(** * Høiax Connected water-heater drivers: retry loops, command dispatch,
      telemetry polling and the leakage estimators

    Two device drivers are embedded:
    - [Device]        : the current driver (setHeaterState, setAmbientTemp,
                        toSettings, onSettings, updateState, logLeakage with the
                        static leakage constant);
    - [Connected200]  : drivers/hiax-connected-200/device.js (setHeaterState and
                        logLeakage with the histogram estimator).

    Conventions of the embedding.
    - A JavaScript number is a [num]: NaN, an infinity, or an exact rational
      (the arithmetic keeps it in lowest terms). Binary64 rounding is not
      modelled and zero carries no sign (a division of a non-zero number by
      zero gives the infinity with the sign of the numerator).
    - [this.*] fields are the fields of a record [dev]; the Homey platform state
      (availability, settings, store) and the trace of platform calls are an
      [env].  [this.log] writes no state and is left out.
    - A value read from the cloud, from a flow or from the store is a [jsval]:
      undefined, null, a boolean, a number or a string (objects and arrays are
      left out); it is converted where the source converts it.
    - The cloud is a script: the list of the outcomes of the coming
      [setDevicePoint] (resp. [getDevicePoints]) calls.  A retry loop consumes
      the script; it yields [None] when the script ends while the loop is still
      retrying (the source loops for ever: there is no attempt bound).
    - A call of an async function that the source does not await runs where it
      is made up to its first [await]; what is left of it is handed back to the
      caller as a pending call, to be resumed on the state of then. *)

From Stdlib Require Import ZArith QArith Qround Lqa List String Bool Lia.
From Stdlib Require Import Sorted Permutation Qpower Qabs.
Import ListNotations.
Local Open Scope string_scope.

(** ** JavaScript numbers *)

Inductive num : Type :=
| NaN
| Inf (neg : bool)
| Fin (q : Q).

Definition Qltb (x y : Q) : bool := negb (Qle_bool y x).

Definition isNaN (x : num) : bool :=
  match x with NaN => true | _ => false end.

Definition num_neg (x : num) : num :=
  match x with
  | NaN => NaN
  | Inf s => Inf (negb s)
  | Fin q => Fin (- q)
  end.

Definition num_add (x y : num) : num :=
  match x, y with
  | NaN, _ | _, NaN => NaN
  | Inf a, Inf b => if Bool.eqb a b then Inf a else NaN
  | Inf a, Fin _ => Inf a
  | Fin _, Inf b => Inf b
  | Fin p, Fin q => Fin (Qred (p + q))
  end.

Definition num_sub (x y : num) : num := num_add x (num_neg y).

Definition num_mul (x y : num) : num :=
  match x, y with
  | NaN, _ | _, NaN => NaN
  | Inf a, Inf b => Inf (xorb a b)
  | Inf a, Fin q => if Qeq_bool q 0 then NaN else Inf (xorb a (Qltb q 0))
  | Fin p, Inf b => if Qeq_bool p 0 then NaN else Inf (xorb (Qltb p 0) b)
  | Fin p, Fin q => Fin (Qred (p * q))
  end.

Definition num_div (x y : num) : num :=
  match x, y with
  | NaN, _ | _, NaN => NaN
  | Inf _, Inf _ => NaN
  | Inf a, Fin q => Inf (xorb a (Qltb q 0))
  | Fin _, Inf _ => Fin 0
  | Fin p, Fin q =>
      if Qeq_bool q 0
      then (if Qeq_bool p 0 then NaN else Inf (Qltb p 0))
      else Fin (Qred (p / q))
  end.

(** [x < y]; every comparison with NaN is false. *)
Definition num_ltb (x y : num) : bool :=
  match x, y with
  | NaN, _ | _, NaN => false
  | Inf a, Inf b => a && negb b
  | Inf a, Fin _ => a
  | Fin _, Inf b => negb b
  | Fin p, Fin q => Qltb p q
  end.

Definition num_gtb (x y : num) : bool := num_ltb y x.

(** [x <= y]. *)
Definition num_leb (x y : num) : bool :=
  match x, y with
  | NaN, _ | _, NaN => false
  | Inf a, Inf b => a || negb b
  | Inf a, Fin _ => a
  | Fin _, Inf b => negb b
  | Fin p, Fin q => Qle_bool p q
  end.

(** [x === y] (and [x == y]) on numbers: NaN differs from itself. *)
Definition num_eqb (x y : num) : bool :=
  match x, y with
  | Inf a, Inf b => Bool.eqb a b
  | Fin p, Fin q => Qeq_bool p q
  | _, _ => false
  end.

Definition of_Z (z : Z) : num := Fin (inject_Z z).

Declare Scope num_scope.
Delimit Scope num_scope with num.
Bind Scope num_scope with num.
Infix "+" := num_add : num_scope.
Infix "-" := num_sub : num_scope.
Infix "*" := num_mul : num_scope.
Infix "/" := num_div : num_scope.

(** ** Values, objects and the platform *)

Inductive jsval : Type :=
| VUndefined
| VNull
| VBool (b : bool)
| VNum (n : num)
| VStr (s : string).

(** ** Conversion to a number

    [+v], [Number.isNaN(+v)], the global [isNaN(v)] and the arithmetic
    operators convert their operand with ToNumber.  A string is the list of the
    bytes of its UTF-8 encoding; it converts by the grammar of
    StringNumericLiteral: white space around a decimal literal (a sign, then
    [Infinity] or digits with an optional fraction and exponent) or around a
    binary, octal or hexadecimal integer; the empty string is 0. *)

Definition bytes (s : string) : list N :=
  map Ascii.N_of_ascii (list_ascii_of_string s).

(** WhiteSpace and LineTerminator. *)
Definition StrWhiteSpaceChar : list (list N) :=
  [ [9]; [10]; [11]; [12]; [13]; [32];
    [194; 160];                        (* U+00A0 *)
    [225; 154; 128];                   (* U+1680 *)
    [226; 128; 128]; [226; 128; 129]; [226; 128; 130]; [226; 128; 131];
    [226; 128; 132]; [226; 128; 133]; [226; 128; 134]; [226; 128; 135];
    [226; 128; 136]; [226; 128; 137]; [226; 128; 138]; (* U+2000 - U+200A *)
    [226; 128; 168]; [226; 128; 169];  (* U+2028, U+2029 *)
    [226; 128; 175];                   (* U+202F *)
    [226; 129; 159];                   (* U+205F *)
    [227; 128; 128];                   (* U+3000 *)
    [239; 187; 191] ]%N.               (* U+FEFF *)

Fixpoint strip_prefix (p l : list N) : option (list N) :=
  match p, l with
  | [], _ => Some l
  | a :: p', b :: l' => if (a =? b)%N then strip_prefix p' l' else None
  | _ :: _, [] => None
  end.

Fixpoint strip_any (ps : list (list N)) (l : list N) : option (list N) :=
  match ps with
  | [] => None
  | p :: ps' =>
      match strip_prefix p l with
      | Some l' => Some l'
      | None => strip_any ps' l
      end
  end.

Fixpoint trim_start (ws : list (list N)) (fuel : nat) (l : list N) : list N :=
  match fuel with
  | O => l
  | S fuel' =>
      match strip_any ws l with
      | Some l' => trim_start ws fuel' l'
      | None => l
      end
  end.

Definition trim (l : list N) : list N :=
  let l1 := trim_start StrWhiteSpaceChar (List.length l) l in
  rev (trim_start (map (@rev N) StrWhiteSpaceChar) (List.length l1) (rev l1)).

(** The value of a digit in a base up to 16. *)
Definition digit_value (base c : N) : option N :=
  let v :=
    if ((48 <=? c) && (c <=? 57))%N then Some (c - 48)%N
    else if ((97 <=? c) && (c <=? 102))%N then Some (c - 87)%N
    else if ((65 <=? c) && (c <=? 70))%N then Some (c - 55)%N
    else None in
  match v with
  | Some k => if (k <? base)%N then Some k else None
  | None => None
  end.

(** The leading digits of [l]: the number they spell after [acc], how many
    they are, and what follows them. *)
Fixpoint span_digits (base : N) (l : list N) (acc : N) : N * nat * list N :=
  match l with
  | [] => (acc, 0%nat, [])
  | c :: l' =>
      match digit_value base c with
      | Some k =>
          let '(v, n, r) := span_digits base l' (base * acc + k)%N in
          (v, S n, r)
      | None => (acc, 0%nat, l)
      end
  end.

(** The exponent that ends a decimal literal; nothing is the exponent 0. *)
Definition ExponentPart (l : list N) : option Z :=
  match l with
  | [] => Some 0%Z
  | c :: l' =>
      if ((c =? 101) || (c =? 69))%N then
        let '(neg, l'') :=
          match l' with
          | s :: r =>
              if (s =? 43)%N then (false, r)
              else if (s =? 45)%N then (true, r)
              else (false, l')
          | [] => (false, l')
          end in
        let '(v, n, r) := span_digits 10 l'' 0 in
        match n, r with
        | S _, [] => Some (if neg then (- Z.of_N v)%Z else Z.of_N v)
        | _, _ => None
        end
      else None
  end.

Definition StrUnsignedDecimalLiteral (l : list N) : num :=
  match strip_prefix (bytes "Infinity") l with
  | Some [] => Inf false
  | _ =>
      let '(v1, n1, r1) := span_digits 10 l 0 in
      let '(v, n2, r2) :=
        match r1 with
        | c :: r => if (c =? 46)%N then span_digits 10 r v1 else (v1, 0%nat, r1)
        | [] => (v1, 0%nat, r1)
        end in
      match (n1 + n2)%nat with
      | O => NaN
      | S _ =>
          match ExponentPart r2 with
          | Some ex =>
              Fin (Qred (inject_Z (Z.of_N v) * Qpower 10 (ex - Z.of_nat n2)))
          | None => NaN
          end
      end
  end.

Definition StrDecimalLiteral (l : list N) : num :=
  match l with
  | c :: l' =>
      if (c =? 43)%N then StrUnsignedDecimalLiteral l'
      else if (c =? 45)%N then num_neg (StrUnsignedDecimalLiteral l')
      else StrUnsignedDecimalLiteral l
  | [] => NaN
  end.

(** [0x], [0o] and [0b] literals; [None] when [l] does not start as one. *)
Definition NonDecimalIntegerLiteral (l : list N) : option num :=
  match l with
  | z :: x :: l' =>
      let base :=
        if ((x =? 120) || (x =? 88))%N then Some 16%N
        else if ((x =? 111) || (x =? 79))%N then Some 8%N
        else if ((x =? 98) || (x =? 66))%N then Some 2%N
        else None in
      match (z =? 48)%N, base with
      | true, Some b =>
          let '(v, n, r) := span_digits b l' 0 in
          match n, r with
          | S _, [] => Some (of_Z (Z.of_N v))
          | _, _ => Some NaN
          end
      | _, _ => None
      end
  | _ => None
  end.

Definition StringToNumber (s : string) : num :=
  match trim (bytes s) with
  | [] => of_Z 0
  | l =>
      match NonDecimalIntegerLiteral l with
      | Some n => n
      | None => StrDecimalLiteral l
      end
  end.

Definition ToNumber (v : jsval) : num :=
  match v with
  | VUndefined => NaN
  | VNull => of_Z 0
  | VBool true => of_Z 1
  | VBool false => of_Z 0
  | VNum n => n
  | VStr s => StringToNumber s
  end.

(** [v === undefined] *)
Definition is_undefined (v : jsval) : bool :=
  match v with
  | VUndefined => true
  | _ => false
  end.

(** [v == undefined], [v == null] *)
Definition nullish (v : jsval) : bool :=
  match v with
  | VUndefined | VNull => true
  | _ => false
  end.

(** [!!v] *)
Definition truthy (v : jsval) : bool :=
  match v with
  | VUndefined | VNull => false
  | VBool b => b
  | VNum n => negb (isNaN n || num_eqb n (of_Z 0))
  | VStr s => negb (String.eqb s "")
  end.

(** [v == w]: undefined and null equal each other and nothing else, two
    strings are compared as strings, and every other pair as numbers. *)
Definition loose_eq (v w : jsval) : bool :=
  match v, w with
  | (VUndefined | VNull), (VUndefined | VNull) => true
  | (VUndefined | VNull), _ | _, (VUndefined | VNull) => false
  | VStr s, VStr t => String.eqb s t
  | _, _ => num_eqb (ToNumber v) (ToNumber w)
  end.

(** ** Points in time

    The drivers hold a point in time as a [Date], or as the debug time they
    were given, whatever it is. *)
Inductive time : Type :=
| TDate (ms : num)
| TRaw (v : jsval).

(** The number that a point in time converts to, in a subtraction or a
    comparison: the time value of a [Date], in milliseconds. *)
Definition time_number (t : time) : num :=
  match t with
  | TDate ms => ms
  | TRaw v => ToNumber v
  end.

(** [!!t]: an object is true. *)
Definition time_truthy (t : time) : bool :=
  match t with
  | TDate _ => true
  | TRaw v => truthy v
  end.

(** The time value of [new Date(n)] for a number [n]. *)
Definition TimeClip (n : num) : num :=
  match n with
  | Fin q =>
      if Qle_bool (Qabs q) 8640000000000000
      then of_Z (if Qltb q 0 then Qceiling q else Qfloor q)
      else NaN
  | _ => NaN
  end.

(** In the store a [Date] is kept as its time value: [new Date] gives the same
    instant from the one as from the other. *)
Definition stored_time (t : time) : jsval :=
  match t with
  | TDate ms => VNum ms
  | TRaw v => v
  end.

(** The time value of [new Date(v)] for a value [v] read from the store.  The
    date strings are not modelled: a string gives an invalid date. *)
Definition new_Date (v : jsval) : num :=
  match v with
  | VUndefined => NaN
  | VStr _ => NaN
  | _ => TimeClip (ToNumber v)
  end.

(** A JavaScript object used as a dictionary: its own properties in insertion
    order. *)
Definition obj (K V : Type) : Type := list (K * V).

Section Obj.
Context {K V : Type} (eqb : K -> K -> bool).

Fixpoint obj_get (o : obj K V) (k : K) : option V :=
  match o with
  | [] => None
  | (k', v) :: o' => if eqb k' k then Some v else obj_get o' k
  end.

(** [o[k] = v]: overwrite in place, or append a new property. *)
Fixpoint obj_set (o : obj K V) (k : K) (v : V) : obj K V :=
  match o with
  | [] => [(k, v)]
  | (k', v') :: o' =>
      if eqb k' k then (k', v) :: o' else (k', v') :: obj_set o' k v
  end.

(** [k in o] *)
Definition obj_has (o : obj K V) (k : K) : bool :=
  match obj_get o k with Some _ => true | None => false end.

Definition obj_keys (o : obj K V) : list K := map fst o.
End Obj.

Definition settings_obj : Type := obj string jsval.
Definition sget (o : settings_obj) (k : string) : jsval :=
  match obj_get String.eqb o k with Some v => v | None => VUndefined end.
Definition sset (o : settings_obj) (k : string) (v : jsval) : settings_obj :=
  obj_set String.eqb o k v.

(** Calls into the platform and the cloud client, in program order. *)
Inductive event : Type :=
| EvSetDevicePoint (points : settings_obj)
| EvGetDevicePoints (ids : string)
| EvSetUnavailable
| EvSetAvailable
| EvSleep (ms : Z)
| EvSetCapabilityValue (name : string) (v : jsval)
| EvTriggerMaxPowerChanged (max_power : num)
| EvSetSettings (s : settings_obj)
| EvSetStoreValue (key : string) (v : jsval).

(** The response of [setDevicePoint]: [None] is [undefined], [rok] is the [ok]
    field ([None] when the field is absent). *)
Record response : Type := { rok : option bool }.

Inductive write_outcome : Type :=
| WThrows
| WResolves (r : option response).

(** One element of a [getDevicePoints] answer. *)
Record point : Type := {
  parameterId : option Z;
  value : option jsval
}.

Inductive read_outcome : Type :=
| RThrows
| RResolves (pts : option (list point)).

Record env : Type := {
  available : bool;
  settings : settings_obj;
  store : settings_obj;
  trace : list event;
  writes : list write_outcome;
  reads : list read_outcome
}.

Definition emit (ev : event) (e : env) : env :=
  {| available := available e; settings := settings e; store := store e;
     trace := trace e ++ [ev]; writes := writes e; reads := reads e |}.

Definition set_available (b : bool) (e : env) : env :=
  {| available := b; settings := settings e; store := store e;
     trace := trace e; writes := writes e; reads := reads e |}.

Definition set_writes (ws : list write_outcome) (e : env) : env :=
  {| available := available e; settings := settings e; store := store e;
     trace := trace e; writes := ws; reads := reads e |}.

Definition set_reads (rs : list read_outcome) (e : env) : env :=
  {| available := available e; settings := settings e; store := store e;
     trace := trace e; writes := writes e; reads := rs |}.

Definition setUnavailable (e : env) : env :=
  set_available false (emit EvSetUnavailable e).
Definition setAvailable (e : env) : env :=
  set_available true (emit EvSetAvailable e).
Definition sleep (ms : Z) (e : env) : env := emit (EvSleep ms) e.
Definition setCapabilityValue (name : string) (v : jsval) (e : env) : env :=
  emit (EvSetCapabilityValue name v) e.
Definition setStoreValue (key : string) (v : jsval) (e : env) : env :=
  let e' := emit (EvSetStoreValue key v) e in
  {| available := available e'; settings := settings e';
     store := sset (store e') key v;
     trace := trace e'; writes := writes e'; reads := reads e' |}.

(** A key that was never stored reads as [null]. *)
Definition getStoreValue (key : string) (e : env) : jsval :=
  match obj_get String.eqb (store e) key with
  | Some v => v
  | None => VNull
  end.

Definition retryOnErrorWaitTime : Z := 10000.

(** ** The retry loop around [setDevicePoint]

    [while (!response || response.ok === false) {
       try { response = await setDevicePoint(deviceId, points); }
       catch (err) { this.setUnavailable(...); await sleep(retryOnErrorWaitTime); } }]

    The loop is written out in setHeaterState, setAmbientTemp, onSettings, the
    target_temperature listener and onOAuth2Init; it is embedded once.
    (device.js tests [== undefined] and [.ok == false], which agree with the
    tests above on the responses of this model.) *)

Definition needs_retry (r : option response) : bool :=
  match r with
  | None => true
  | Some r' => match rok r' with Some false => true | _ => false end
  end.

Fixpoint setDevicePoint_loop (points : settings_obj) (ws : list write_outcome)
    (resp : option response) (e : env) : option (option response * env) :=
  if needs_retry resp then
    match ws with
    | [] => None
    | WThrows :: ws' =>
        let e1 := emit (EvSetDevicePoint points) e in
        let e2 := setUnavailable e1 in
        let e3 := sleep retryOnErrorWaitTime e2 in
        setDevicePoint_loop points ws' resp e3
    | WResolves r :: ws' =>
        let e1 := emit (EvSetDevicePoint points) e in
        setDevicePoint_loop points ws' r e1
    end
  else Some (resp, set_writes ws e).

Definition setDevicePoint_retry (points : settings_obj) (e : env)
    : option (option response * env) :=
  setDevicePoint_loop points (writes e) None e.

(** The same loop from its first [await] on, the first call being issued
    already: it goes on when the answer of that call is there. *)
Definition setDevicePoint_await (points : settings_obj) (e : env)
    : option (option response * env) :=
  match writes e with
  | [] => None
  | WThrows :: ws' =>
      setDevicePoint_loop points ws' None
        (sleep retryOnErrorWaitTime (setUnavailable e))
  | WResolves r :: ws' => setDevicePoint_loop points ws' r e
  end.

(** ** The retry loop around [getDevicePoints]

    [while (!devPoints) {
       try { devPoints = await getDevicePoints(deviceId, ids); }
       catch (err) { this.setUnavailable(...); await sleep(retryOnErrorWaitTime); } }]
    (device.js tests [dev_points == undefined]). *)

Fixpoint getDevicePoints_loop (ids : string) (rs : list read_outcome)
    (devPoints : option (list point)) (e : env)
    : option (list point * env) :=
  match devPoints with
  | Some pts => Some (pts, set_reads rs e)
  | None =>
      match rs with
      | [] => None
      | RThrows :: rs' =>
          getDevicePoints_loop ids rs' devPoints
            (sleep retryOnErrorWaitTime
               (setUnavailable (emit (EvGetDevicePoints ids) e)))
      | RResolves r :: rs' =>
          getDevicePoints_loop ids rs' r (emit (EvGetDevicePoints ids) e)
      end
  end.

(** How a call of an async function that is run to its end completes. *)
Inductive completion : Type :=
| Returned
| Threw.

(** ** The current driver *)

Module Device.

Record dev : Type := {
  is_on : bool;
  max_power : num;
  HeaterNomPower : num;
  HeaterNomPower2 : num;
  max_power_capability_name : string;
  outsideTemp : num;
  tankVolume : num;
  leakageConstant : num;
  accumulatedLeakage : num;
  prevAccumTime : time;
  prevRelationTime : time;
  prevRelationUse : jsval;
  prevRelationLeak : num;
  brokenSpotPrice : bool;
  data : settings_obj
}.

Definition set_heater (turnOn : bool) (newPower : num) (d : dev) : dev :=
  {| is_on := turnOn; max_power := newPower;
     HeaterNomPower := HeaterNomPower d; HeaterNomPower2 := HeaterNomPower2 d;
     max_power_capability_name := max_power_capability_name d;
     outsideTemp := outsideTemp d; tankVolume := tankVolume d;
     leakageConstant := leakageConstant d;
     accumulatedLeakage := accumulatedLeakage d;
     prevAccumTime := prevAccumTime d;
     prevRelationTime := prevRelationTime d;
     prevRelationUse := prevRelationUse d;
     prevRelationLeak := prevRelationLeak d;
     brokenSpotPrice := brokenSpotPrice d; data := data d |}.

Definition set_outsideTemp (t : num) (d : dev) : dev :=
  {| is_on := is_on d; max_power := max_power d;
     HeaterNomPower := HeaterNomPower d; HeaterNomPower2 := HeaterNomPower2 d;
     max_power_capability_name := max_power_capability_name d;
     outsideTemp := t; tankVolume := tankVolume d;
     leakageConstant := leakageConstant d;
     accumulatedLeakage := accumulatedLeakage d;
     prevAccumTime := prevAccumTime d;
     prevRelationTime := prevRelationTime d;
     prevRelationUse := prevRelationUse d;
     prevRelationLeak := prevRelationLeak d;
     brokenSpotPrice := brokenSpotPrice d; data := data d |}.

(** What [setHeaterState] does once its write is acknowledged, on the fields
    and the platform state of then. The trigger is sent from a promise callback
    ([this.driver.ready().then(...)]); it is recorded where it is scheduled. *)
Definition setHeaterState_acknowledged (turnOn : bool) (newPower : num)
    (d : dev) (e1 : env) : dev * env :=
  let e2 := setAvailable e1 in
  (* 2) Set capability states *)
  let newPowerText :=
    if num_eqb newPower (of_Z 1) then "low_power"
    else if num_eqb newPower (of_Z 2) then "medium_power"
    else "high_power" in
  let newPowerWatt :=
    if num_eqb newPower (of_Z 1) then HeaterNomPower d
    else if num_eqb newPower (of_Z 2) then HeaterNomPower2 d
    else (HeaterNomPower d + HeaterNomPower2 d)%num in
  let e3 := setCapabilityValue "onoff" (VBool turnOn) e2 in
  let e4 := setCapabilityValue (max_power_capability_name d)
              (VStr newPowerText) e3 in
  (* 3) Send trigger action *)
  let e5 := if negb (num_eqb newPower (max_power d))
            then emit (EvTriggerMaxPowerChanged newPowerWatt) e4
            else e4 in
  (* 4) Set internal state *)
  (set_heater turnOn newPower d, e5).

(** [setHeaterState(deviceId, turnOn, newPower)], awaited. *)
Definition setHeaterState (turnOn : bool) (newPower : num) (d : dev) (e : env)
    : option (dev * env) :=
  (* 1) Send commands to device *)
  let power := if turnOn then newPower else of_Z 0 in
  match setDevicePoint_retry [("517", VNum power)] e with
  | None => None
  | Some (_, e1) => Some (setHeaterState_acknowledged turnOn newPower d e1)
  end.

(** [setHeaterState(deviceId, turnOn, newPower)], not awaited: the call runs
    up to its first [await], that is, it issues its first write. *)
Definition setHeaterState_call (turnOn : bool) (newPower : num) (e : env)
    : env :=
  let power := if turnOn then newPower else of_Z 0 in
  emit (EvSetDevicePoint [("517", VNum power)]) e.

(** The rest of such a call, from the answer to its first write on; [d] and
    [e] are the fields and the platform state when it is resumed. *)
Definition setHeaterState_resume (turnOn : bool) (newPower : num) (d : dev)
    (e : env) : option (dev * env) :=
  let power := if turnOn then newPower else of_Z 0 in
  match setDevicePoint_await [("517", VNum power)] e with
  | None => None
  | Some (_, e1) => Some (setHeaterState_acknowledged turnOn newPower d e1)
  end.

(** Homey's own [setSettings]: merges the given settings into the stored ones. *)
Definition setSettings (s : settings_obj) (e : env) : env :=
  let e' := emit (EvSetSettings s) e in
  {| available := available e';
     settings := fold_left (fun acc kv => sset acc (fst kv) (snd kv)) s
                   (settings e');
     store := store e'; trace := trace e'; writes := writes e';
     reads := reads e' |}.

(** [setAmbientTemp(deviceId, ambientTemp)] *)
Definition setAmbientTemp (ambientTemp : num) (d : dev) (e : env)
    : option (dev * env) :=
  if isNaN ambientTemp || num_eqb (outsideTemp d) ambientTemp then Some (d, e)
  else
    let e1 := setSettings [("ambient_temperature", VNum ambientTemp)] e in
    let d1 := set_outsideTemp ambientTemp d in
    let keyChange := sset [] "100" (VNum (outsideTemp d1)) in
    match setDevicePoint_retry keyChange e1 with
    | None => None
    | Some (_, e2) => Some (d1, setAvailable e2)
    end.

(** The fields that [onOAuth2Init] sets itself for a Connected 200 with no
    leakage accumulated in the store, before it fetches the states of the
    device; [start] is the instant it takes for [prevAccumTime] and [broken]
    the result of the check of the heater mode.  [prevRelationLeak], still
    [undefined] then, is the NaN that it converts to. *)
Definition onOAuth2Init_state (start : num) (broken : bool) : dev :=
  {| is_on := true; max_power := of_Z 3;
     HeaterNomPower := of_Z 700; HeaterNomPower2 := of_Z 1300;
     max_power_capability_name := "max_power";
     outsideTemp := of_Z 24; tankVolume := of_Z 187;
     leakageConstant := Fin (158 # 100);
     accumulatedLeakage := of_Z 0;
     prevAccumTime := TDate start;
     prevRelationTime := TRaw VUndefined;
     prevRelationUse := VUndefined;
     prevRelationLeak := NaN;
     brokenSpotPrice := broken; data := [] |}.

(** Mapping between settings and controller keys *)
Definition keyMap : obj string string :=
  [ ("ambient_temperature", "100");
    ("inlet_temperature", "101");
    ("max_water_flow", "512");
    ("regulation_diff", "516");
    ("legionella_frequency", "511");
    ("controling_device", "500");
    ("nordpool_price_region", "544");
    ("num_expensive_hours", "545");
    ("min_remain_heat", "546");
    ("num_cheap_hours", "547");
    ("temp_inc_cheap_hours", "548");
    ("TankVolume", "526");
    ("SerialNo", "518");
    ("HeaterNomPower", "503");
    ("HeaterNomPower2", "504") ].

(** [+keyIndex] for [keyIndex = keyMap[name]]: [undefined] converts to NaN and a
    string by [StringToNumber]. *)
Definition to_number (keyIndex : option string) : num :=
  match keyIndex with
  | None => NaN
  | Some s => StringToNumber s
  end.

(** The property name used by [keyChange[keyIndex] = ...]. *)
Definition property_name (keyIndex : option string) : string :=
  match keyIndex with
  | None => "undefined"
  | Some s => s
  end.

Definition is_price_key (keyIndex : option string) : bool :=
  num_leb (of_Z 544) (to_number keyIndex)
  && num_leb (to_number keyIndex) (of_Z 548).

(** The part of [onOAuth2Init] that checks whether myUplink is broken:
    [heaterMode[0].enumValues] is scanned for the value ['6']. *)
Definition onOAuth2Init_brokenSpotPrice (enumValues : list jsval) : bool :=
  fold_left
    (fun broken v =>
       match v with
       | VStr s => if String.eqb s "6" then false else broken
       | _ => broken
       end)
    enumValues true.

(** [onSettings({ oldSettings, newSettings, changedKeys })] *)
Definition onSettings_keyChange (d : dev) (newSettings : settings_obj)
    (changedKeys : list string) : settings_obj :=
  fold_left
    (fun keyChange key =>
       let keyIndex := obj_get String.eqb keyMap key in
       if negb (brokenSpotPrice d && is_price_key keyIndex)
       then sset keyChange (property_name keyIndex) (sget newSettings key)
       else keyChange)
    changedKeys [].

Definition onSettings (newSettings : settings_obj) (changedKeys : list string)
    (d : dev) (e : env) : option env :=
  let keyChange := onSettings_keyChange d newSettings changedKeys in
  if (0 <? List.length (obj_keys keyChange))%nat then
    match setDevicePoint_retry keyChange e with
    | None => None
    | Some (_, e1) => Some (setAvailable e1)
    end
  else Some e.

Section ToSettings.

(** [String(x)] on a number is the built-in Number::toString, taken as given. *)
Variable num_to_string : num -> string.

Definition String_ (v : jsval) : string :=
  match v with
  | VUndefined => "undefined"
  | VNull => "null"
  | VBool true => "true"
  | VBool false => "false"
  | VNum n => num_to_string n
  | VStr s => s
  end.

Definition stringify (k : string) (o : settings_obj) : settings_obj :=
  sset o k (VStr (String_ (sget o k))).

(** [toSettings(newSettings)]: makes sure the settings are of the right type and
    hands them to Homey's [setSettings]. *)
Definition toSettings (newSettings : settings_obj) (d : dev) (e : env) : env :=
  let t0 := newSettings in
  let t1 := stringify "nordpool_price_region" t0 in
  let t2 := stringify "controling_device" t1 in
  let t3 :=
    if brokenSpotPrice d
       && match sget t2 "controling_device" with
          | VStr s => String.eqb s "6"
          | _ => false
          end
    then sset t2 "controling_device" (VStr "8")
    else t2 in
  let t4 := stringify "TankVolume" t3 in
  let t5 := stringify "SerialNo" t4 in
  let t6 := stringify "HeaterNomPower" t5 in
  let t7 := stringify "HeaterNomPower2" t6 in
  let t8 := sset t7 "LeakageConstant"
              (VStr (num_to_string (leakageConstant d) ++ " W/Δ°C")) in
  let t9 := sset t8 "systemId" (VStr (String_ (sget (data d) "systemId"))) in
  let t10 := sset t9 "systemName"
               (VStr (String_ (sget (data d) "systemName"))) in
  let t11 := sset t10 "deviceId" (VStr (String_ (sget (data d) "deviceId"))) in
  let t12 := sset t11 "deviceName"
               (VStr (String_ (sget (data d) "deviceName"))) in
  setSettings t12 e.

End ToSettings.

(** *** Leakage with the static constant *)

Definition set_accum (newTime : time) (acc : num) (d : dev) : dev :=
  {| is_on := is_on d; max_power := max_power d;
     HeaterNomPower := HeaterNomPower d; HeaterNomPower2 := HeaterNomPower2 d;
     max_power_capability_name := max_power_capability_name d;
     outsideTemp := outsideTemp d; tankVolume := tankVolume d;
     leakageConstant := leakageConstant d;
     accumulatedLeakage := acc;
     prevAccumTime := newTime;
     prevRelationTime := prevRelationTime d;
     prevRelationUse := prevRelationUse d;
     prevRelationLeak := prevRelationLeak d;
     brokenSpotPrice := brokenSpotPrice d; data := data d |}.

Definition set_relation (t : time) (use : jsval) (leak : num) (d : dev)
    : dev :=
  {| is_on := is_on d; max_power := max_power d;
     HeaterNomPower := HeaterNomPower d; HeaterNomPower2 := HeaterNomPower2 d;
     max_power_capability_name := max_power_capability_name d;
     outsideTemp := outsideTemp d; tankVolume := tankVolume d;
     leakageConstant := leakageConstant d;
     accumulatedLeakage := accumulatedLeakage d;
     prevAccumTime := prevAccumTime d;
     prevRelationTime := t;
     prevRelationUse := use;
     prevRelationLeak := leak;
     brokenSpotPrice := brokenSpotPrice d; data := data d |}.

Definition day_ms : num := of_Z (24 * 60 * 60 * 1000).

(** [(addedEnergy > leakedEnergy) ? ((100 * leakedEnergy) / addedEnergy) : 100] *)
Definition leakRelation (leakedEnergy addedEnergy : num) : num :=
  if num_gtb addedEnergy leakedEnergy
  then ((of_Z 100 * leakedEnergy) / addedEnergy)%num
  else of_Z 100.

(** [logLeakage(totalUsage, temperature, inTank, debugTime)]; [now] is the
    time value of [new Date()]. *)
Definition logLeakage (totalUsage temperature inTank debugTime : jsval)
    (now : num) (d : dev) (e : env) : completion * dev * env :=
  let newTime :=
    if isNaN (ToNumber debugTime) then TDate now else TRaw debugTime in
  (* Make sure input is valid *)
  if isNaN (ToNumber totalUsage) || isNaN (ToNumber temperature)
     || isNaN (ToNumber inTank)
  then (Threw, d, e)
  else
    let outerTempDiff := (ToNumber temperature - outsideTemp d)%num in
    let accumTimeDiff :=
      (time_number newTime - time_number (prevAccumTime d))%num in
    let currentLeakage := (leakageConstant d * outerTempDiff)%num in
    let timedLeakage :=
      ((currentLeakage * accumTimeDiff) / of_Z (60 * 60 * 1000000))%num in
    let '(d1, e1) :=
      if negb (isNaN timedLeakage) then
        let d' := set_accum newTime (accumulatedLeakage d + timedLeakage)%num d in
        let e' := setCapabilityValue "measure_power.leak" (VNum currentLeakage) e in
        let e'' := setCapabilityValue "meter_power.leak_accum"
                     (VNum (accumulatedLeakage d')) e' in
        (* Update stores only once every day *)
        let prevUpdateTime := new_Date (getStoreValue "prevAccumTime" e'') in
        if num_gtb (time_number (prevAccumTime d') - prevUpdateTime)%num day_ms
        then
          (d', setStoreValue "accumulatedLeakage" (VNum (accumulatedLeakage d'))
                 (setStoreValue "prevAccumTime" (stored_time (prevAccumTime d'))
                    e''))
        else (d', e'')
      else (d, e) in
    (* Check relations *)
    if negb (time_truthy (prevRelationTime d1)) then
      (Returned,
       set_relation newTime totalUsage (accumulatedLeakage d1) d1, e1)
    else if num_gtb (time_number newTime - time_number (prevRelationTime d1))%num
              day_ms
    then
      (* Once every day *)
      let leakedEnergy := (accumulatedLeakage d1 - prevRelationLeak d1)%num in
      let addedEnergy :=
        (ToNumber totalUsage - ToNumber (prevRelationUse d1))%num in
      let d2 := set_relation newTime totalUsage (accumulatedLeakage d1) d1 in
      (Returned, d2,
       setCapabilityValue "measure_humidity.leak_relation"
         (VNum (leakRelation leakedEnergy addedEnergy)) e1)
    else (Returned, d1, e1).

(** *** Telemetry poll *)

(** The state of a tick of [updateState] inside its [for] loop; [pending]
    are the calls of [setHeaterState] made so far, each with its arguments:
    none of them is awaited. *)
Record poll : Type := {
  pdev : dev;
  penv : env;
  logTotal : jsval;
  logTemp : jsval;
  logStored : jsval;
  pending : list (bool * num)
}.

(** The body of the [for] loop of [updateState] for one device point. *)
Definition updateState_point (p : point) (st : poll) : poll :=
  match parameterId p, value p with
  | Some id, Some v =>
      let d := pdev st in
      let e := penv st in
      let cap name :=
        {| pdev := d; penv := setCapabilityValue name v e;
           logTotal := logTotal st; logTemp := logTemp st;
           logStored := logStored st; pending := pending st |} in
      if (id =? 405)%Z then st
      else if (id =? 302)%Z then
        {| pdev := d;
           penv := setCapabilityValue "meter_power.in_tank" v e;
           logTotal := logTotal st; logTemp := logTemp st;
           logStored := v; pending := pending st |}
      else if (id =? 303)%Z then
        {| pdev := d;
           penv := setCapabilityValue "meter_power.accumulated" v e;
           logTotal := v; logTemp := logTemp st;
           logStored := logStored st; pending := pending st |}
      else if (id =? 400)%Z then cap "measure_power"
      else if (id =? 404)%Z then cap "measure_humidity.fill_level"
      else if (id =? 517)%Z then
        let currentMaxPower := ToNumber v in
        let d1 :=
          if num_eqb currentMaxPower (of_Z 0)
          then set_heater false (max_power d) d
          else set_heater true currentMaxPower d in
        {| pdev := d1;
           penv := setHeaterState_call (is_on d1) (max_power d1) e;
           logTotal := logTotal st; logTemp := logTemp st;
           logStored := logStored st;
           pending := pending st ++ [(is_on d1, max_power d1)] |}
      else if (id =? 527)%Z then cap "target_temperature"
      else if (id =? 528)%Z then
        {| pdev := d;
           penv := setCapabilityValue "measure_temperature" v e;
           logTotal := logTotal st; logTemp := v;
           logStored := logStored st; pending := pending st |}
      else st
  | _, _ => st
  end.

Definition updateState_points (pts : list point) (st : poll) : poll :=
  fold_left (fun st p => updateState_point p st) pts st.

(** [updateState(deviceId)]; [now] is the clock read by [logLeakage], which
    has no [await] and so runs to its end where it is called; its rejection is
    dropped.  The result holds the calls of [setHeaterState] still pending
    when the tick is over. *)
Definition updateState (now : num) (d : dev) (e : env)
    : option (dev * env * list (bool * num)) :=
  match getDevicePoints_loop "302,303,400,404,517,527,528" (reads e) None e with
  | None => None
  | Some (devPoints, e0) =>
      let st :=
        updateState_points devPoints
          {| pdev := d; penv := e0; logTotal := VUndefined;
             logTemp := VUndefined; logStored := VUndefined; pending := [] |} in
      let '(d1, e1) :=
        if is_undefined (logTotal st) || is_undefined (logTemp st)
           || is_undefined (logStored st)
        then (pdev st, penv st)
        else
          let '(_, d', e') :=
            logLeakage (logTotal st) (logTemp st) (logStored st) VUndefined now
              (pdev st) (penv st) in
          (d', e') in
      Some (d1, setAvailable e1, pending st)
  end.

(** *** The listeners registered by onOAuth2Init *)

(** [(value === 'low_power') ? 1 : (value === 'medium_power') ? 2 : 3], as the
    flow action and the capability listener both compute it. *)
Definition newPower_of (value : jsval) : num :=
  match value with
  | VStr s =>
      if String.eqb s "low_power" then of_Z 1
      else if String.eqb s "medium_power" then of_Z 2
      else of_Z 3
  | _ => of_Z 3
  end.

(** The run listener of the flow action card [this.max_power_action_name]. *)
Definition OnMaxPowerAction (state_max_power : jsval) (d : dev) (e : env)
    : option (dev * env) :=
  setHeaterState (is_on d) (newPower_of state_max_power) d e.

(** The run listener of the flow action card 'change-ambient-temp' and the
    capability listener of 'ambient_temp'. *)
Definition OnAmbientAction (ambient_temp : num) (d : dev) (e : env)
    : option (dev * env) :=
  setAmbientTemp ambient_temp d e.

(** The capability listener of 'onoff'. *)
Definition onoff_listener (turnOn : bool) (d : dev) (e : env)
    : option (dev * env) :=
  setHeaterState turnOn (max_power d) d e.

(** The capability listener of [this.max_power_capability_name]. *)
Definition max_power_listener (value : jsval) (d : dev) (e : env)
    : option (dev * env) :=
  setHeaterState (is_on d) (newPower_of value) d e.

(** The capability listener of 'target_temperature'. *)
Definition target_temperature_listener (value : jsval) (e : env) : option env :=
  match setDevicePoint_retry [("527", value)] e with
  | None => None
  | Some (_, e1) => Some (setAvailable e1)
  end.

(** *** The first run *)

(** Make sure that the heater mode is controllable, but only the first time
    the app is run: [heaterMode_value] is [heaterMode[0].value]; a key that was
    never stored reads as [null]. *)
Definition onOAuth2Init_firstTime (heaterMode_value : jsval) (e : env)
    : option env :=
  let isFirstTime :=
    match getStoreValue "isFirstTime" e with
    | VNull => true
    | _ => false
    end in
  if isFirstTime then
    let external := (* 8 == External *)
      match heaterMode_value with
      | VStr s => String.eqb s "8"
      | _ => false
      end in
    let written :=
      if external then Some e
      else
        match setDevicePoint_retry [("500", VStr "8")] e with
        | None => None
        | Some (_, e1) => Some e1
        end in
    match written with
    | None => None
    | Some e1 => Some (setStoreValue "isFirstTime" (VBool false) e1)
    end
  else Some e.

(** [this.reverseKeyMap], as the loop over [Object.keys(keyMap)] builds it. *)
Definition reverseKeyMap_of (km : obj string string) : obj string string :=
  fold_left (fun reverse kv => obj_set String.eqb reverse (snd kv) (fst kv))
    km [].

Definition reverseKeyMap : obj string string := reverseKeyMap_of keyMap.

(** [statesLeft] as onOAuth2Init hands it to initializeInternalStates. *)
Definition onOAuth2Init_statesLeft (broken : bool) : list string :=
  let statesLeft := map snd keyMap in
  if broken
  then filter
         (fun value =>
            num_ltb (to_number (Some value)) (of_Z 544)
            || num_gtb (to_number (Some value)) (of_Z 548))
         statesLeft
  else statesLeft.

End Device.

(** ** drivers/hiax-connected-200/device.js *)

Module Connected200.

(** The string that [toFixed] returns: ["NaN"], ["Infinity"], ["-Infinity"], or
    a sign and the digits, kept as the integer they spell once the point is
    dropped (["-0.3"] is [FxDec true 3], ["-0.0"] is [FxDec true 0]). Two such
    strings are equal exactly when their [fixed] are. Numbers of magnitude
    1e21 and more, which [toFixed] prints with an exponent, are outside the
    model. *)
Inductive fixed : Type :=
| FxNaN
| FxInf (neg : bool)
| FxDec (neg : bool) (mag : N).

Definition pow10 (digits : nat) : Q := inject_Z (10 ^ Z.of_nat digits).

(** [x.toFixed(digits)]: the sign, then the integer n for which n / 10^digits
    is nearest to |x|, the larger n on a tie. *)
Definition toFixed (digits : nat) (x : num) : fixed :=
  match x with
  | NaN => FxNaN
  | Inf s => FxInf s
  | Fin q =>
      let neg := Qltb q 0 in
      let a := if neg then (- q)%Q else q in
      FxDec neg (Z.to_N (Qfloor (a * pow10 digits + (1 # 2))))
  end.

(** The number that such a string converts to. *)
Definition Number_ (digits : nat) (f : fixed) : num :=
  match f with
  | FxNaN => NaN
  | FxInf s => Inf s
  | FxDec neg mag =>
      let a := (inject_Z (Z.of_N mag) / pow10 digits)%Q in
      Fin (if neg then (- a)%Q else a)
  end.

Definition fixed_eqb (f g : fixed) : bool :=
  match f, g with
  | FxNaN, FxNaN => true
  | FxInf a, FxInf b => Bool.eqb a b
  | FxDec a m, FxDec b n => Bool.eqb a b && (m =? n)%N
  | _, _ => false
  end.

Definition num_abs (x : num) : num :=
  match x with
  | NaN => NaN
  | Inf _ => Inf false
  | Fin q => Fin (if Qltb q 0 then (- q)%Q else q)
  end.

(** [parseInt(key * 10)] for a key printed with one decimal. *)
Definition parseInt_times10 (key : fixed) : num :=
  match key with
  | FxNaN => NaN
  | FxInf _ => NaN
  | FxDec neg mag => of_Z (if neg then - Z.of_N mag else Z.of_N mag)
  end.

Record sample : Type := {
  powDiff : fixed;
  tempDiff : fixed;
  timeDiff : num;
  storeDiff : fixed;
  outerTempDiff : fixed
}.

Record dev : Type := {
  is_on : bool;
  max_power : jsval;
  outsideTemp : num;
  tankVolume : num;
  prevPower : jsval;
  prevTemp : jsval;
  prevStored : jsval;
  prevTime : time;
  pastLeakage : list sample;
  prevAccumTime : time;
  currentLeakage : num;
  leakageConstant : num;
  accumulatedLeakage : num
}.

(** The state set by [onOAuth2Init] when the store is empty; [now] is the
    time value of [new Date()]. *)
Definition onOAuth2Init_state (now : num) : dev :=
  {| is_on := true; max_power := VNum (of_Z 3);
     outsideTemp := of_Z 24; tankVolume := of_Z 178;
     prevPower := VUndefined; prevTemp := VUndefined;
     prevStored := VUndefined; prevTime := TRaw VUndefined;
     pastLeakage := [];
     prevAccumTime := TDate now;
     currentLeakage := of_Z 0;
     leakageConstant := Fin (12696 # 1000);
     accumulatedLeakage := of_Z 0 |}.

Definition set_heater (turn_on : bool) (new_power : jsval) (d : dev) : dev :=
  {| is_on := turn_on; max_power := new_power;
     outsideTemp := outsideTemp d; tankVolume := tankVolume d;
     prevPower := prevPower d; prevTemp := prevTemp d;
     prevStored := prevStored d; prevTime := prevTime d;
     pastLeakage := pastLeakage d; prevAccumTime := prevAccumTime d;
     currentLeakage := currentLeakage d; leakageConstant := leakageConstant d;
     accumulatedLeakage := accumulatedLeakage d |}.

Definition set_prev (power temp stored : jsval) (new_time : time) (d : dev)
    : dev :=
  {| is_on := is_on d; max_power := max_power d;
     outsideTemp := outsideTemp d; tankVolume := tankVolume d;
     prevPower := power; prevTemp := temp;
     prevStored := stored; prevTime := new_time;
     pastLeakage := pastLeakage d; prevAccumTime := prevAccumTime d;
     currentLeakage := currentLeakage d; leakageConstant := leakageConstant d;
     accumulatedLeakage := accumulatedLeakage d |}.

Definition set_pastLeakage (l : list sample) (d : dev) : dev :=
  {| is_on := is_on d; max_power := max_power d;
     outsideTemp := outsideTemp d; tankVolume := tankVolume d;
     prevPower := prevPower d; prevTemp := prevTemp d;
     prevStored := prevStored d; prevTime := prevTime d;
     pastLeakage := l; prevAccumTime := prevAccumTime d;
     currentLeakage := currentLeakage d; leakageConstant := leakageConstant d;
     accumulatedLeakage := accumulatedLeakage d |}.

Definition set_leakageConstant (k : num) (d : dev) : dev :=
  {| is_on := is_on d; max_power := max_power d;
     outsideTemp := outsideTemp d; tankVolume := tankVolume d;
     prevPower := prevPower d; prevTemp := prevTemp d;
     prevStored := prevStored d; prevTime := prevTime d;
     pastLeakage := pastLeakage d; prevAccumTime := prevAccumTime d;
     currentLeakage := currentLeakage d; leakageConstant := k;
     accumulatedLeakage := accumulatedLeakage d |}.

Definition set_accum (new_time : time) (leak acc : num) (d : dev) : dev :=
  {| is_on := is_on d; max_power := max_power d;
     outsideTemp := outsideTemp d; tankVolume := tankVolume d;
     prevPower := prevPower d; prevTemp := prevTemp d;
     prevStored := prevStored d; prevTime := prevTime d;
     pastLeakage := pastLeakage d; prevAccumTime := new_time;
     currentLeakage := leak; leakageConstant := leakageConstant d;
     accumulatedLeakage := acc |}.

(** What [setHeaterState] does once its write is acknowledged, on the fields
    and the platform state of then. *)
Definition setHeaterState_acknowledged (turn_on : bool) (new_power : jsval)
    (d : dev) (e1 : env) : dev * env :=
  let e2 := setAvailable e1 in
  (* 2) Set capability states *)
  let new_power_text :=
    if loose_eq new_power (VNum (of_Z 1)) then "low_power"
    else if loose_eq new_power (VNum (of_Z 2)) then "medium_power"
    else "high_power" in
  let new_power_watt :=
    if loose_eq new_power (VNum (of_Z 1)) then of_Z 700
    else if loose_eq new_power (VNum (of_Z 2)) then of_Z 1300
    else of_Z 2000 in
  let e3 := setCapabilityValue "onoff" (VBool turn_on) e2 in
  let e4 := setCapabilityValue "max_power" (VStr new_power_text) e3 in
  (* 3) Send trigger action *)
  let e5 := if negb (loose_eq new_power (max_power d))
            then emit (EvTriggerMaxPowerChanged new_power_watt) e4
            else e4 in
  (* 4) Set internal state *)
  (set_heater turn_on new_power d, e5).

(** The value written to point 517. *)
Definition power (turn_on : bool) (new_power : jsval) : jsval :=
  if turn_on then new_power else VNum (of_Z 0).

(** [setHeaterState(deviceId, turn_on, new_power)], awaited. *)
Definition setHeaterState (turn_on : bool) (new_power : jsval) (d : dev)
    (e : env) : option (dev * env) :=
  (* 1) Send commands to device *)
  match setDevicePoint_retry [("517", power turn_on new_power)] e with
  | None => None
  | Some (_, e1) => Some (setHeaterState_acknowledged turn_on new_power d e1)
  end.

(** [setHeaterState(deviceId, turn_on, new_power)], not awaited: the call
    runs up to its first [await], that is, it issues its first write. *)
Definition setHeaterState_call (turn_on : bool) (new_power : jsval) (e : env)
    : env :=
  emit (EvSetDevicePoint [("517", power turn_on new_power)]) e.

(** The rest of such a call, from the answer to its first write on; [d] and
    [e] are the fields and the platform state when it is resumed. *)
Definition setHeaterState_resume (turn_on : bool) (new_power : jsval) (d : dev)
    (e : env) : option (dev * env) :=
  match setDevicePoint_await [("517", power turn_on new_power)] e with
  | None => None
  | Some (_, e1) => Some (setHeaterState_acknowledged turn_on new_power d e1)
  end.

(** *** The histogram estimator *)

Definition LOGITEMS : nat := 200.

(** A logged entry counts when there was no power usage and the temperature
    did not increase: [powDiff == 0 && tempDiff <= 0]. *)
Definition qualifies (s : sample) : bool :=
  num_eqb (Number_ 1 (powDiff s)) (of_Z 0)
  && num_leb (Number_ 1 (tempDiff s)) (of_Z 0).

Definition histogram : Type := obj fixed nat.

Definition count_of (temp_diffs : histogram) (key : fixed) : nat :=
  match obj_get fixed_eqb temp_diffs key with
  | Some c => c
  | None => 0%nat
  end.

(** The loop that fills [temp_diffs] and [include_count]. *)
Definition find_temp_diffs (past : list sample) : histogram * nat :=
  fold_left
    (fun '(temp_diffs, include_count) s =>
       if qualifies s then
         (obj_set fixed_eqb temp_diffs (tempDiff s)
            (match obj_get fixed_eqb temp_diffs (tempDiff s) with
             | Some c => S c
             | None => 1%nat
             end),
          S include_count)
       else (temp_diffs, include_count))
    past ([], 0)%nat.

(** [keys.sort(function(a,b){return temp_diffs[b]-temp_diffs[a]})]: the keys by
    decreasing count, keys of equal count in their order of insertion. *)
Fixpoint insert_sorted (x : fixed * nat) (l : list (fixed * nat))
    : list (fixed * nat) :=
  match l with
  | [] => [x]
  | y :: l' =>
      if (snd x <? snd y)%nat then y :: insert_sorted x l' else x :: l
  end.

Definition sort_by_count (temp_diffs : histogram) : list fixed :=
  map fst (fold_right insert_sorted [] temp_diffs).

(** The choice of the keys to use: [(key0, key1)], [key0 = None] when the
    data are rejected. *)
Definition select_keys (temp_diffs : histogram) (include_count : nat)
    : option fixed * option fixed :=
  let sortedKeys := sort_by_count temp_diffs in
  match sortedKeys with
  | [] => (None, None)
  | k0 :: rest =>
      if (include_count =? 0)%nat || (count_of temp_diffs k0 <? 10)%nat then
        (* Too few entries recorded *)
        (None, None)
      else
        (* Find second key to use *)
        let key1a := toFixed 1 (Number_ 1 k0 - Fin (1 # 10))%num in
        let key1b := toFixed 1 (Number_ 1 k0 + Fin (1 # 10))%num in
        let has_a := obj_has fixed_eqb temp_diffs key1a in
        let has_b := obj_has fixed_eqb temp_diffs key1b in
        let second_key :=
          if negb (has_a || has_b) then (Some k0, None)
          else if negb has_a then (Some k0, Some key1b)
          else if negb has_b then (Some k0, Some key1a)
          else if (count_of temp_diffs key1b <=? count_of temp_diffs key1a)%nat
          then
            if (2 * count_of temp_diffs key1b <? count_of temp_diffs key1a)%nat
            then (Some k0, Some key1a)
            else (None, None) (* Too much noise *)
          else
            if (2 * count_of temp_diffs key1a <? count_of temp_diffs key1b)%nat
            then (Some k0, Some key1b)
            else (None, None) (* Too much noise *) in
        match rest with
        | k1 :: _ =>
            if negb (num_eqb
                       (num_abs (parseInt_times10 k1 - parseInt_times10 k0)%num)
                       (of_Z 1))
            then
              (* Key0 and key1 are not neighbours *)
              if (count_of temp_diffs k0 <? 3 * count_of temp_diffs k1)%nat
              then (None, None) (* Too noisy *)
              else (Some k0, None)
            else second_key
        | [] => second_key
        end
  end.

Definition is_key (key : option fixed) (f : fixed) : bool :=
  match key with
  | Some k => fixed_eqb f k
  | None => false
  end.

(** The loop that sums the temperature drops of the entries of the two keys. *)
Definition sum_temp_drop (past : list sample) (key0 : fixed)
    (key1 : option fixed) : num :=
  fold_left
    (fun temp_drop_val s =>
       if fixed_eqb (tempDiff s) key0 || is_key key1 (tempDiff s) then
         (temp_drop_val
          - (Number_ 1 (tempDiff s) * of_Z 1000000)
            / (Number_ 1 (outerTempDiff s) * timeDiff s))%num
       else temp_drop_val)
    past (of_Z 0).

Definition blend (leakageConstant new_leakageConstant : num) : num :=
  (Fin (99 # 100) * leakageConstant + Fin (1 # 100) * new_leakageConstant)%num.

(** The entry logged by a call: the differences from the previous call. *)
Definition prevData (total_usage temperature in_tank : jsval) (new_time : time)
    (d : dev) : sample :=
  let powDiff_ := (ToNumber total_usage - ToNumber (prevPower d))%num in
  let tempDiff_ := (ToNumber temperature - ToNumber (prevTemp d))%num in
  let storeDiff_ := (ToNumber in_tank - ToNumber (prevStored d))%num in
  let timeDiff_ := (time_number new_time - time_number (prevTime d))%num in
  let outerTempDiff_ := (ToNumber temperature - outsideTemp d)%num in
  {| powDiff := toFixed 1 powDiff_;
     tempDiff := toFixed 1 tempDiff_;
     timeDiff := timeDiff_;
     storeDiff := toFixed 2 storeDiff_;
     outerTempDiff := toFixed 1 outerTempDiff_ |}.

(** The log after the shift loop
    [for (idx = LOGITEMS-1; idx > 0; idx--)
       if (pastLeakage[idx-1] != undefined) pastLeakage[idx] = pastLeakage[idx-1];
     pastLeakage[0] = prevData]:
    every entry moves one place up and the one at LOGITEMS-1 is dropped. *)
Definition shift_log (entry : sample) (past : list sample) : list sample :=
  firstn LOGITEMS (entry :: past).

(** The new value of the leakage constant from the log, [None] when the data
    are rejected and the constant is kept. *)
Definition estimate (past : list sample) (leakageConstant_ tankVolume_ : num)
    : option num :=
  let '(temp_diffs, include_count) := find_temp_diffs past in
  let '(key0, key1) := select_keys temp_diffs include_count in
  match key0 with
  | None => None
  | Some k0 =>
      let temp_drop_count :=
        (count_of temp_diffs k0
         + match key1 with
           | Some k1 => count_of temp_diffs k1
           | None => 0%nat
           end)%nat in
      let temp_drop_val := sum_temp_drop past k0 key1 in
      (* Smooth out changes to the leakage constant *)
      let new_leakageConstant :=
        ((Fin (4187 # 1000) * temp_drop_val * tankVolume_)
         / of_Z (Z.of_nat temp_drop_count))%num in
      Some (blend leakageConstant_ new_leakageConstant)
  end.

(** [logLeakage(total_usage, temperature, in_tank, debug_time)]; [now] is the
    time value of [new Date()]. *)
Definition logLeakage (total_usage temperature in_tank debug_time : jsval)
    (now : num) (d : dev) (e : env) : completion * dev * env :=
  let new_time :=
    if isNaN (ToNumber debug_time) then TDate now else TRaw debug_time in
  (* Make sure input is valid *)
  if isNaN (ToNumber total_usage) || isNaN (ToNumber temperature)
     || isNaN (ToNumber in_tank)
  then (Threw, d, e)
  else if nullish (prevPower d) || nullish (prevTemp d)
          || nullish (prevStored d)
  then
    (* If first time set state and exit *)
    (Returned, set_prev total_usage temperature in_tank new_time d, e)
  else
    (* Calculate diff from last time *)
    let entry := prevData total_usage temperature in_tank new_time d in
    let outerTempDiff_ := (ToNumber temperature - outsideTemp d)%num in
    let d1 := set_prev total_usage temperature in_tank new_time d in
    let past := shift_log entry (pastLeakage d1) in
    let d2 := set_pastLeakage past d1 in
    let tail (d3 : dev) :=
      let accum_time_diff :=
        (time_number new_time - time_number (prevAccumTime d3))%num in
      let leak := (leakageConstant d3 * outerTempDiff_)%num in
      let acc :=
        (accumulatedLeakage d3
         + (leak * accum_time_diff) / of_Z (60 * 60 * 1000000))%num in
      let d4 := set_accum new_time leak acc d3 in
      (* Update stores *)
      let e1 := setStoreValue "prevAccumTime" (stored_time (prevAccumTime d4))
                  e in
      let e2 := setStoreValue "currentLeakage" (VNum (currentLeakage d4)) e1 in
      let e3 := setStoreValue "leakageConstant"
                  (VNum (leakageConstant d4)) e2 in
      let e4 := setStoreValue "accumulatedLeakage"
                  (VNum (accumulatedLeakage d4)) e3 in
      (* Update statistics *)
      let e5 := setCapabilityValue "measure_power.leak"
                  (VNum (currentLeakage d4)) e4 in
      let e6 := setCapabilityValue "meter_power.leak_accum"
                  (VNum (accumulatedLeakage d4)) e5 in
      (Returned, d4, e6) in
    match estimate past (leakageConstant d2) (tankVolume d2) with
    | None =>
        if isNaN (currentLeakage d2)
           || num_eqb (currentLeakage d2) (of_Z 0)
        then (Returned, d2, e) (* Only return if there is no old data *)
        else tail d2 (* Otherwise, keep leakageConstant unchanged *)
    | Some k => tail (set_leakageConstant k d2)
    end.

Definition set_outsideTemp (t : num) (d : dev) : dev :=
  {| is_on := is_on d; max_power := max_power d;
     outsideTemp := t; tankVolume := tankVolume d;
     prevPower := prevPower d; prevTemp := prevTemp d;
     prevStored := prevStored d; prevTime := prevTime d;
     pastLeakage := pastLeakage d; prevAccumTime := prevAccumTime d;
     currentLeakage := currentLeakage d; leakageConstant := leakageConstant d;
     accumulatedLeakage := accumulatedLeakage d |}.

(** [setAmbientTemp(deviceId, ambient_temp)] *)
Definition setAmbientTemp (ambient_temp : num) (d : dev) (e : env)
    : option (dev * env) :=
  if isNaN ambient_temp then Some (d, e)
  else
    let d1 := set_outsideTemp ambient_temp d in
    let key_change := sset [] "100" (VNum (outsideTemp d1)) in
    match setDevicePoint_retry key_change e with
    | None => None
    | Some (_, e1) => Some (d1, setAvailable e1)
    end.

(** *** Telemetry poll *)

(** The state of a tick of [updateState] inside its [for] loop; [pending]
    are the calls of [setHeaterState] made so far, each with its arguments:
    none of them is awaited. *)
Record poll : Type := {
  pdev : dev;
  penv : env;
  log_total : jsval;
  log_temp : jsval;
  log_stored : jsval;
  pending : list (bool * jsval)
}.

(** The body of the [for] loop of [updateState] for one device point. *)
Definition updateState_point (p : point) (st : poll) : poll :=
  match parameterId p, value p with
  | Some id, Some v =>
      let d := pdev st in
      let e := penv st in
      let cap name :=
        {| pdev := d; penv := setCapabilityValue name v e;
           log_total := log_total st; log_temp := log_temp st;
           log_stored := log_stored st; pending := pending st |} in
      if (id =? 405)%Z then st
      else if (id =? 302)%Z then
        {| pdev := d;
           penv := setCapabilityValue "meter_power.in_tank" v e;
           log_total := log_total st; log_temp := log_temp st;
           log_stored := v; pending := pending st |}
      else if (id =? 303)%Z then
        {| pdev := d;
           penv := setCapabilityValue "meter_power.accumulated" v e;
           log_total := v; log_temp := log_temp st;
           log_stored := log_stored st; pending := pending st |}
      else if (id =? 400)%Z then cap "measure_power"
      else if (id =? 404)%Z then cap "measure_humidity.fill_level"
      else if (id =? 517)%Z then
        let current_max_power := v in
        let d1 :=
          if loose_eq current_max_power (VNum (of_Z 0))
          then set_heater false (max_power d) d
          else set_heater true current_max_power d in
        {| pdev := d1;
           penv := setHeaterState_call (is_on d1) (max_power d1) e;
           log_total := log_total st; log_temp := log_temp st;
           log_stored := log_stored st;
           pending := pending st ++ [(is_on d1, max_power d1)] |}
      else if (id =? 527)%Z then cap "target_temperature"
      else if (id =? 528)%Z then
        {| pdev := d;
           penv := setCapabilityValue "measure_temperature" v e;
           log_total := log_total st; log_temp := v;
           log_stored := log_stored st; pending := pending st |}
      else st
  | _, _ => st
  end.

Definition updateState_points (pts : list point) (st : poll) : poll :=
  fold_left (fun st p => updateState_point p st) pts st.

(** [updateState(deviceId)]; [logLeakage], which has no [await] and so runs
    to its end where it is called, is given whatever was found (a missing
    value is [undefined]) and its rejection is dropped.  The result holds the
    calls of [setHeaterState] still pending when the tick is over. *)
Definition updateState (now : num) (d : dev) (e : env)
    : option (dev * env * list (bool * jsval)) :=
  match getDevicePoints_loop "302,303,400,404,517,527,528" (reads e) None e with
  | None => None
  | Some (dev_points, e0) =>
      let st :=
        updateState_points dev_points
          {| pdev := d; penv := e0; log_total := VUndefined;
             log_temp := VUndefined; log_stored := VUndefined;
             pending := [] |} in
      let '(_, d1, e1) :=
        logLeakage (log_total st) (log_temp st) (log_stored st) VUndefined now
          (pdev st) (penv st) in
      Some (d1, setAvailable e1, pending st)
  end.

(** *** The log as the JavaScript array it is *)

(** An array with holes: [None] is an index that reads [undefined]. *)
Definition array (A : Type) : Type := list (option A).

Definition array_get {A : Type} (a : array A) (idx : nat) : option A :=
  nth idx a None.

(** [a[idx] = v]; writing past the end lengthens the array. *)
Fixpoint array_set {A : Type} (a : array A) (idx : nat) (v : A) : array A :=
  match idx, a with
  | O, [] => [Some v]
  | O, _ :: a' => Some v :: a'
  | S i, [] => None :: array_set [] i v
  | S i, x :: a' => x :: array_set a' i v
  end.

(** [for (let idx = from; idx > 0; idx--)
      if (pastLeakage[idx-1] != undefined) pastLeakage[idx] = pastLeakage[idx-1];] *)
Fixpoint shift_loop {A : Type} (from : nat) (pastLeakage_ : array A) : array A :=
  match from with
  | O => pastLeakage_
  | S i =>
      shift_loop i
        (match array_get pastLeakage_ i with
         | Some x => array_set pastLeakage_ (S i) x
         | None => pastLeakage_
         end)
  end.

(** The shift loop followed by [pastLeakage[0] = prevData]. *)
Definition log_entry {A : Type} (entry : A) (pastLeakage_ : array A) : array A :=
  array_set (shift_loop (LOGITEMS - 1) pastLeakage_) 0 entry.

End Connected200.

(** * Properties *)

Local Open Scope list_scope.

(** ** Reading traces *)

Definition is_write (ev : event) : bool :=
  match ev with EvSetDevicePoint _ => true | _ => false end.
Definition is_write_of (id : string) (ev : event) : bool :=
  match ev with
  | EvSetDevicePoint points => obj_has String.eqb points id
  | _ => false
  end.
Definition is_unavailable (ev : event) : bool :=
  match ev with EvSetUnavailable => true | _ => false end.
Definition is_available (ev : event) : bool :=
  match ev with EvSetAvailable => true | _ => false end.
Definition is_sleep (ev : event) : bool :=
  match ev with EvSleep _ => true | _ => false end.
Definition is_any_capability (ev : event) : bool :=
  match ev with EvSetCapabilityValue _ _ => true | _ => false end.
Definition is_trigger (ev : event) : bool :=
  match ev with EvTriggerMaxPowerChanged _ => true | _ => false end.


Definition count (p : event -> bool) (evs : list event) : nat :=
  List.length (filter p evs).

(** An attempt fails when the call throws or when its result asks for a retry. *)
Definition failed (o : write_outcome) : bool :=
  match o with
  | WThrows => true
  | WResolves r => needs_retry r
  end.
Definition threw (o : write_outcome) : bool :=
  match o with WThrows => true | WResolves _ => false end.

(** What the loop does on one failed attempt. *)
Definition failed_attempt (points : settings_obj) (e : env) (o : write_outcome)
    : env :=
  match o with
  | WThrows =>
      sleep retryOnErrorWaitTime
        (setUnavailable (emit (EvSetDevicePoint points) e))
  | WResolves _ => emit (EvSetDevicePoint points) e
  end.

Definition failed_attempt_events (points : settings_obj) (o : write_outcome)
    : list event :=
  match o with
  | WThrows =>
      [EvSetDevicePoint points; EvSetUnavailable; EvSleep retryOnErrorWaitTime]
  | WResolves _ => [EvSetDevicePoint points]
  end.

(** ** Scenarios *)

Definition ok_response : write_outcome := WResolves (Some {| rok := Some true |}).
Definition not_ok_response : write_outcome :=
  WResolves (Some {| rok := Some false |}).

Definition env0 (ws : list write_outcome) (rs : list read_outcome) : env :=
  {| available := true; settings := []; store := []; trace := [];
     writes := ws; reads := rs |}.

(** A device point that reports the requested power. *)
Definition requested_power (v : Z) : point :=
  {| parameterId := Some 517%Z; value := Some (VNum (of_Z v)) |}.

(** The stream of the scenario: polls five minutes apart, the tank 0.3 degrees
    colder at each, no power used; before each poll the ambient temperature is
    set 10 degrees under the tank temperature, so that every logged entry has
    tempDiff "-0.3", outerTempDiff "10.0", timeDiff 300000 and powDiff "0.0".
    The first poll only records the baseline. *)
Definition scenario_temperature (i : nat) : num :=
  Fin (Qred (34 - (3 # 10) * inject_Z (Z.of_nat i))).

Definition scenario_poll (st : option (Connected200.dev * env)) (i : nat)
    : option (Connected200.dev * env) :=
  match st with
  | None => None
  | Some (d, e) =>
      match Connected200.setAmbientTemp
              (scenario_temperature i - of_Z 10)%num d e with
      | None => None
      | Some (d1, e1) =>
          let '(_, d2, e2) :=
            Connected200.logLeakage (VNum (of_Z 100))
              (VNum (scenario_temperature i)) (VNum (of_Z 5))
              (VNum (of_Z (300000 * Z.of_nat i))) (of_Z 0) d1 e1 in
          Some (d2, e2)
      end
  end.

(** The state after [n] entries were logged, from the initial state. *)
Definition scenario (n : nat) : option (Connected200.dev * env) :=
  fold_left scenario_poll (seq 0 (S n))
    (Some (Connected200.onOAuth2Init_state (of_Z 0),
           env0 (repeat ok_response (S n)) [])).

Definition k_initial : Q := 12696 # 1000.
Definition k_implied : Q :=
  (4187 # 1000) * 178 * ((3 # 10) * 1000000 / (10 * 300000)).

Definition num_is (P : Q -> Prop) (x : num) : Prop :=
  match x with
  | Fin q => P q
  | _ => False
  end.

Definition after_scenario (n : nat) (P : Connected200.dev -> Prop) : Prop :=
  match scenario n with
  | Some (d, _) => P d
  | None => False
  end.

Definition entry_of_scenario : Connected200.sample :=
  {| Connected200.powDiff := Connected200.FxDec false 0;
     Connected200.tempDiff := Connected200.FxDec true 3;
     Connected200.timeDiff := Fin 300000;
     Connected200.storeDiff := Connected200.FxDec false 0;
     Connected200.outerTempDiff := Connected200.FxDec false 100 |}.

(** Polls five minutes apart at the given tank temperatures, the total usage
    and the stored energy staying the same. *)
Definition polls (temps : list num) (d : Connected200.dev) (e : env)
    : Connected200.dev * env * Z :=
  fold_left
    (fun '(d, e, i) t =>
       let '(_, d', e') :=
         Connected200.logLeakage (VNum (of_Z 100)) (VNum t) (VNum (of_Z 5))
           (VNum (of_Z (300000 * i))) (of_Z 0) d e in
       (d', e', (i + 1)%Z))
    temps (d, e, 0%Z).

(** The temperatures of a tank that starts at [t] and cools by the given
    drops. *)
Fixpoint cooling (t : Q) (drops : list Q) : list num :=
  Fin t :: match drops with
           | [] => []
           | drop :: drops' => cooling (Qred (t - drop)) drops'
           end.

(** A driver that, from the initial state and a tank at 80 degrees, has logged
    [n1] entries "-0.5" and then [n0] entries "-0.3". *)
Definition two_bins (n0 n1 : nat) : Connected200.dev * env * Z :=
  polls (cooling 80 (repeat (1 # 2) n1 ++ repeat (3 # 10) n0))
    (Connected200.onOAuth2Init_state (of_Z 0)) (env0 [] []).

(** The parameters of the price control. *)
Definition price_ids : list string := ["544"; "545"; "546"; "547"; "548"].

(** What is seen of a call that retried through the failed attempts [fails]
    and then succeeded: [evs] are the calls it made, from [e] to [e']. *)
Definition retried_then_succeeded (e e' : env) (evs : list event)
    (fails rest : list write_outcome) : Prop :=
  trace e' = trace e ++ evs
  /\ writes e' = rest
  /\ count is_write evs = S (List.length fails)
  /\ count is_unavailable evs = List.length (filter threw fails)
  /\ count is_sleep evs = List.length (filter threw fails)
  /\ (forall ms, In (EvSleep ms) evs -> ms = 10000%Z)
  /\ count is_available evs = 1%nat
  /\ count is_any_capability evs = 2%nat
  /\ available e' = true.

(** A sequence of calls of logLeakage of device.js, each with its total usage,
    temperature, stored energy and debug time, and the instant of the call. *)
Definition logLeakage_calls (calls : list (jsval * jsval * jsval * jsval * num))
    (d : Connected200.dev) (e : env) : Connected200.dev * env :=
  fold_left
    (fun '(d, e) '(total_usage, temperature, in_tank, debug_time, now) =>
       let '(_, d', e') :=
         Connected200.logLeakage total_usage temperature in_tank debug_time now
           d e in
       (d', e'))
    calls (d, e).

(** The entries of the log that fall in the bin [key]. *)
Definition in_bin (key : Connected200.fixed) (s : Connected200.sample) : bool :=
  Connected200.qualifies s
  && Connected200.fixed_eqb (Connected200.tempDiff s) key.

(** The order of [sortedKeys], on the entries of the histogram. *)
Definition by_decreasing_count (a b : Connected200.fixed * nat) : Prop :=
  (snd b <= snd a)%nat.

(** The text and the wattage that setHeaterState derives from a level. *)
Definition newPowerText (d : Device.dev) (newPower : num) : string :=
  if num_eqb newPower (of_Z 1) then "low_power"
  else if num_eqb newPower (of_Z 2) then "medium_power"
  else "high_power".

Definition newPowerWatt (d : Device.dev) (newPower : num) : num :=
  if num_eqb newPower (of_Z 1) then Device.HeaterNomPower d
  else if num_eqb newPower (of_Z 2) then Device.HeaterNomPower2 d
  else (Device.HeaterNomPower d + Device.HeaterNomPower2 d)%num.

(** The events of a call of setHeaterState once its write is acknowledged. *)
Definition acknowledged (d : Device.dev) (turnOn : bool) (newPower : num)
    : list event :=
  [EvSetAvailable;
   EvSetCapabilityValue "onoff" (VBool turnOn);
   EvSetCapabilityValue (Device.max_power_capability_name d)
     (VStr (newPowerText d newPower))]
  ++ (if num_eqb newPower (Device.max_power d) then []
      else [EvTriggerMaxPowerChanged (newPowerWatt d newPower)]).

(** The point written for a state of the heater. *)
Definition power_point (turnOn : bool) (newPower : num) : settings_obj :=
  [("517", VNum (if turnOn then newPower else of_Z 0))].


(** Whether onSettings forwards a change of the setting whose point is
    [keyIndex]. *)
Definition forwarded (d : Device.dev) (keyIndex : option string) : bool :=
  negb (Device.brokenSpotPrice d && Device.is_price_key keyIndex).

(** The settings that toSettings hands over as strings. *)
Definition typed_settings : list string :=
  ["nordpool_price_region"; "controling_device"; "TankVolume"; "SerialNo";
   "HeaterNomPower"; "HeaterNomPower2"].

Definition identity_settings : list string :=
  ["systemId"; "systemName"; "deviceId"; "deviceName"].


(** A device point of a poll answer that reports parameter [id] with a value. *)
Definition reports (id : Z) (p : point) : bool :=
  match parameterId p, value p with
  | Some id', Some _ => (id' =? id)%Z
  | _, _ => false
  end.

(** The fields of the leakage model of the current driver. *)
Definition leak_model (d : Device.dev)
    : num * time * time * jsval * num * num :=
  (Device.accumulatedLeakage d, Device.prevAccumTime d,
   Device.prevRelationTime d, Device.prevRelationUse d,
   Device.prevRelationLeak d, Device.leakageConstant d).

Definition poll_ids : string := "302,303,400,404,517,527,528".


(** A leak relation is published among the calls [evs]. *)
Definition publishes_relation (evs : list event) : Prop :=
  exists v, In (EvSetCapabilityValue "measure_humidity.leak_relation" v) evs.

(** The state and the calls after [logLeakage] as the poll calls it (no debug
    time) at the instant [now]. *)
Definition logged (totalUsage temperature inTank : jsval) (now : num)
    (d : Device.dev) (e : env) : Device.dev * env :=
  let '(_, d', e') :=
    Device.logLeakage totalUsage temperature inTank VUndefined now d e in
  (d', e').

(** The values that the device points of a poll answer report for parameter
    517, in their order. *)
Definition values_517 (pts : list point) : list jsval :=
  flat_map
    (fun p =>
       match parameterId p, value p with
       | Some id, Some v => if (id =? 517)%Z then [v] else []
       | _, _ => []
       end)
    pts.

(** The point that a tick of the current driver writes back for a value [v]
    read for parameter 517: the number it converts to. *)
Definition echo (v : jsval) : settings_obj :=
  [("517", VNum (if num_eqb (ToNumber v) (of_Z 0) then of_Z 0
                 else ToNumber v))].


(** The cached state of the heater (on or off, the level) and the calls of
    setHeaterState left pending once the values [vs], read for parameter 517,
    are applied in their order: 0 switches the cached state off and keeps the
    level, any other value switches it on at the number it converts to. *)
Definition reapplied (vs : list jsval) (st : bool * num * list (bool * num))
    : bool * num * list (bool * num) :=
  fold_left
    (fun '(turnOn, level, calls) v =>
       let turnOn' := negb (num_eqb (ToNumber v) (of_Z 0)) in
       let level' := if turnOn' then ToNumber v else level in
       (turnOn', level', calls ++ [(turnOn', level')]))
    vs st.

(** [Number.MAX_VALUE], the largest number. *)
Definition MAX_VALUE : Q := inject_Z (2 ^ 1024 - 2 ^ 971).

(** * Proofs *)

(** ** The retry loop *)

Lemma count_app (p : event -> bool) (l l' : list event) :
  count p (l ++ l') = (count p l + count p l')%nat.
Proof. unfold count. now rewrite filter_app, length_app. Qed.

Lemma failed_attempt_trace points e o :
  trace (failed_attempt points e o) = trace e ++ failed_attempt_events points o.
Proof. destruct o; cbn; now rewrite <- ?app_assoc. Qed.

Lemma failed_attempt_frame points e o :
  settings (failed_attempt points e o) = settings e
  /\ store (failed_attempt points e o) = store e
  /\ writes (failed_attempt points e o) = writes e
  /\ reads (failed_attempt points e o) = reads e.
Proof. destruct o; cbn; auto. Qed.

Lemma fold_failed_trace points fails : forall e,
  trace (fold_left (failed_attempt points) fails e)
  = trace e ++ flat_map (failed_attempt_events points) fails.
Proof.
  induction fails as [|o fails IH]; intro e; cbn [fold_left flat_map].
  - now rewrite app_nil_r.
  - now rewrite IH, failed_attempt_trace, <- app_assoc.
Qed.

Lemma fold_failed_frame points fails : forall e,
  settings (fold_left (failed_attempt points) fails e) = settings e
  /\ store (fold_left (failed_attempt points) fails e) = store e
  /\ reads (fold_left (failed_attempt points) fails e) = reads e.
Proof.
  induction fails as [|o fails IH]; intro e; cbn [fold_left]; auto.
  destruct (IH (failed_attempt points e o)) as (-> & -> & ->).
  destruct (failed_attempt_frame points e o) as (-> & -> & _ & ->). auto.
Qed.

(** The loop on a script that fails, then succeeds. *)
Lemma setDevicePoint_loop_succeeds points r rest fails : forall resp e,
  forallb failed fails = true ->
  needs_retry resp = true ->
  needs_retry r = false ->
  setDevicePoint_loop points (fails ++ WResolves r :: rest) resp e
  = Some (r, set_writes rest
               (emit (EvSetDevicePoint points)
                  (fold_left (failed_attempt points) fails e))).
Proof.
  induction fails as [|o fails IH]; intros resp e Hf Hresp Hr.
  - cbn [app fold_left setDevicePoint_loop]. rewrite Hresp.
    destruct rest; cbn [setDevicePoint_loop]; now rewrite Hr.
  - cbn [forallb] in Hf. apply andb_true_iff in Hf as [Ho Hf].
    cbn [app fold_left setDevicePoint_loop]. rewrite Hresp.
    destruct o as [|r0]; cbn [failed_attempt].
    + now apply IH.
    + now apply IH.
Qed.

Lemma count_writes_failed points fails :
  count is_write (flat_map (failed_attempt_events points) fails)
  = List.length fails.
Proof.
  induction fails as [|o fails IH]; [reflexivity|].
  cbn [flat_map]. rewrite count_app, IH. now destruct o.
Qed.

Lemma count_unavailable_failed points fails :
  count is_unavailable (flat_map (failed_attempt_events points) fails)
  = List.length (filter threw fails).
Proof.
  induction fails as [|o fails IH]; [reflexivity|].
  cbn [flat_map filter]. rewrite count_app, IH. now destruct o.
Qed.

Lemma count_sleep_failed points fails :
  count is_sleep (flat_map (failed_attempt_events points) fails)
  = List.length (filter threw fails).
Proof.
  induction fails as [|o fails IH]; [reflexivity|].
  cbn [flat_map filter]. rewrite count_app, IH. now destruct o.
Qed.

Lemma count_none_failed (p : event -> bool) points fails :
  (forall o, count p (failed_attempt_events points o) = 0%nat) ->
  count p (flat_map (failed_attempt_events points) fails) = 0%nat.
Proof.
  intro H. induction fails as [|o fails IH]; [reflexivity|].
  cbn [flat_map]. now rewrite count_app, IH, H.
Qed.

Lemma sleeps_failed points fails ms :
  In (EvSleep ms) (flat_map (failed_attempt_events points) fails) ->
  ms = retryOnErrorWaitTime.
Proof.
  rewrite in_flat_map. intros (o & _ & Hin).
  destruct o; cbn in Hin; intuition congruence.
Qed.

(** ** setHeaterState *)

Ltac env_simpl :=
  cbn [trace available settings store writes reads emit set_available
       set_writes set_reads setAvailable setUnavailable sleep
       setCapabilityValue negb].

Lemma Device_setHeaterState_succeeds (turnOn : bool) (newPower : num) d e fails
    r rest :
  forallb failed fails = true ->
  needs_retry r = false ->
  writes e = fails ++ WResolves r :: rest ->
  let points : settings_obj :=
    [("517", VNum (if turnOn then newPower else of_Z 0))] in
  exists e' text watt,
    Device.setHeaterState turnOn newPower d e
    = Some (Device.set_heater turnOn newPower d, e')
    /\ trace e'
       = trace e ++ flat_map (failed_attempt_events points) fails
         ++ [EvSetDevicePoint points; EvSetAvailable;
             EvSetCapabilityValue "onoff" (VBool turnOn);
             EvSetCapabilityValue (Device.max_power_capability_name d)
               (VStr text)]
         ++ (if num_eqb newPower (Device.max_power d) then []
             else [EvTriggerMaxPowerChanged watt])
    /\ available e' = true
    /\ writes e' = rest
    /\ settings e' = settings e /\ store e' = store e /\ reads e' = reads e.
Proof.
  intros Hf Hr Hw points.
  unfold Device.setHeaterState, setDevicePoint_retry. rewrite Hw.
  fold points.
  rewrite (setDevicePoint_loop_succeeds points r rest fails None e Hf eq_refl Hr).
  destruct (fold_failed_frame points fails e) as (Hs & Hst & Hrd).
  pose proof (fold_failed_trace points fails e) as Ht.
  do 3 eexists. split; [reflexivity|].
  destruct (num_eqb newPower (Device.max_power d)); env_simpl;
    rewrite Ht, Hs, Hst, Hrd, <- ?app_assoc; cbn [app]; auto 10.
Qed.

Lemma Connected200_setHeaterState_succeeds (turn_on : bool) (new_power : jsval)
    d e fails r rest :
  forallb failed fails = true ->
  needs_retry r = false ->
  writes e = fails ++ WResolves r :: rest ->
  let points : settings_obj :=
    [("517", Connected200.power turn_on new_power)] in
  exists e' text watt,
    Connected200.setHeaterState turn_on new_power d e
    = Some (Connected200.set_heater turn_on new_power d, e')
    /\ trace e'
       = trace e ++ flat_map (failed_attempt_events points) fails
         ++ [EvSetDevicePoint points; EvSetAvailable;
             EvSetCapabilityValue "onoff" (VBool turn_on);
             EvSetCapabilityValue "max_power" (VStr text)]
         ++ (if loose_eq new_power (Connected200.max_power d) then []
             else [EvTriggerMaxPowerChanged watt])
    /\ available e' = true
    /\ writes e' = rest
    /\ settings e' = settings e /\ store e' = store e /\ reads e' = reads e.
Proof.
  intros Hf Hr Hw points.
  unfold Connected200.setHeaterState, setDevicePoint_retry. rewrite Hw.
  fold points.
  rewrite (setDevicePoint_loop_succeeds points r rest fails None e Hf eq_refl Hr).
  destruct (fold_failed_frame points fails e) as (Hs & Hst & Hrd).
  pose proof (fold_failed_trace points fails e) as Ht.
  do 3 eexists. split; [reflexivity|].
  unfold Connected200.setHeaterState_acknowledged.
  destruct (loose_eq new_power (Connected200.max_power d)); env_simpl;
    rewrite Ht, Hs, Hst, Hrd, <- ?app_assoc; cbn [app]; auto 10.
Qed.

Lemma retried_then_succeeded_intro e e' points fails rest tail :
  trace e'
  = trace e ++ flat_map (failed_attempt_events points) fails
    ++ EvSetDevicePoint points :: EvSetAvailable :: tail ->
  count is_write tail = 0%nat ->
  count is_unavailable tail = 0%nat ->
  count is_sleep tail = 0%nat ->
  count is_available tail = 0%nat ->
  count is_any_capability tail = 2%nat ->
  available e' = true ->
  writes e' = rest ->
  retried_then_succeeded e e'
    (flat_map (failed_attempt_events points) fails
     ++ EvSetDevicePoint points :: EvSetAvailable :: tail) fails rest.
Proof.
  intros Ht Hw Hu Hs Ha Hc Hav Hwr.
  assert (Hcons : forall p ev l, count p (ev :: l)
                  = ((if p ev then 1 else 0) + count p l)%nat).
  { intros p ev l. unfold count. cbn [filter]. now destruct (p ev). }
  repeat split; auto.
  - rewrite count_app, count_writes_failed, !Hcons, Hw. cbn. lia.
  - rewrite count_app, count_unavailable_failed, !Hcons, Hu. cbn. lia.
  - rewrite count_app, count_sleep_failed, !Hcons, Hs. cbn. lia.
  - intros ms Hin. apply in_app_or in Hin as [Hin|Hin].
    + now apply sleeps_failed in Hin.
    + destruct Hin as [Hin|[Hin|Hin]]; try discriminate.
      exfalso. clear - Hs Hin. unfold count in Hs.
      induction tail as [|ev tail IH]; [easy|].
      destruct Hin as [->|Hin]; [discriminate|].
      cbn [filter] in Hs. destruct (is_sleep ev); [discriminate|auto].
  - rewrite count_app, count_none_failed, !Hcons, Ha; [reflexivity|].
    now intros [|?].
  - rewrite count_app, count_none_failed, !Hcons, Hc; [reflexivity|].
    now intros [|?].
Qed.

(** C1, as amended: for the point write of setHeaterState (both drivers) and
    every list of failed attempts (a throw, or a result that asks for a retry:
    undefined or ok=false) followed by a success, the call returns, makes one
    write attempt per failed attempt and one more, performs the success side
    effects once (one setAvailable, the two capability updates), and ends
    available.  It sets the device unavailable and sleeps the fixed 10 seconds
    once per attempt that threw; an attempt that returned ok=false is retried
    at once, with neither. *)
Theorem setHeaterState_retries_until_success
    (turnOn : bool) (newPower : num) (new_power : jsval) (d : Device.dev)
    (c : Connected200.dev)
    (e : env) (fails : list write_outcome) (r : option response)
    (rest : list write_outcome)
    (Hfails : forallb failed fails = true)
    (Hsuccess : needs_retry r = false)
    (Hscript : writes e = fails ++ WResolves r :: rest) :
  (exists d' e' evs,
     Device.setHeaterState turnOn newPower d e = Some (d', e')
     /\ retried_then_succeeded e e' evs fails rest)
  /\ (exists c' e' evs,
        Connected200.setHeaterState turnOn new_power c e = Some (c', e')
        /\ retried_then_succeeded e e' evs fails rest).
Proof.
  split.
  - destruct (Device_setHeaterState_succeeds turnOn newPower d e fails r rest
                Hfails Hsuccess Hscript)
      as (e' & text & watt & Hrun & Ht & Hav & Hwr & _).
    eexists _, e', _. split; [exact Hrun|].
    eapply retried_then_succeeded_intro; [exact Ht| | | | | |exact Hav|exact Hwr];
      now destruct (num_eqb newPower (Device.max_power d)).
  - destruct (Connected200_setHeaterState_succeeds turnOn new_power c e fails r
                rest Hfails Hsuccess Hscript)
      as (e' & text & watt & Hrun & Ht & Hav & Hwr & _).
    eexists _, e', _. split; [exact Hrun|].
    eapply retried_then_succeeded_intro; [exact Ht| | | | | |exact Hav|exact Hwr];
      now destruct (loose_eq new_power (Connected200.max_power c)).
Qed.

Lemma setHeaterState_retries_until_success_witness :
  let fails := [WThrows; not_ok_response; WThrows] in
  let e := env0 (fails ++ [ok_response]) [] in
  (exists d' e' evs,
     Device.setHeaterState true (of_Z 2)
       (Device.onOAuth2Init_state (of_Z 0) false) e = Some (d', e')
     /\ retried_then_succeeded e e' evs fails [])
  /\ (exists c' e' evs,
        Connected200.setHeaterState true (VNum (of_Z 2))
          (Connected200.onOAuth2Init_state (of_Z 0)) e = Some (c', e')
        /\ retried_then_succeeded e e' evs fails []).
Proof.
  intros fails e.
  apply (setHeaterState_retries_until_success true (of_Z 2) (VNum (of_Z 2))
           (Device.onOAuth2Init_state (of_Z 0) false)
           (Connected200.onOAuth2Init_state (of_Z 0)) e fails
           (Some {| rok := Some true |}) []); reflexivity.
Defined.

(** C1 as stated fails: one attempt returns ok=false and the next succeeds;
    the claim asks for one availability-false transition and one sleep, the
    loop makes none. *)
Lemma setHeaterState_not_ok_no_sleep :
  let fails := [not_ok_response] in
  forallb failed fails = true
  /\ match Device.setHeaterState true (of_Z 2)
             (Device.onOAuth2Init_state (of_Z 0) false)
             (env0 (fails ++ [ok_response]) []) with
     | Some (_, e') =>
         count is_write (trace e') = 2%nat
         /\ count is_unavailable (trace e') <> List.length fails
         /\ count is_sleep (trace e') <> List.length fails
     | None => False
     end.
Proof. cbv. repeat split; discriminate. Qed.

Lemma num_eqb_refl (x : num) : isNaN x = false -> num_eqb x x = true.
Proof.
  destruct x as [|s|q]; cbn; intro H; [discriminate|now destruct s|].
  apply Qeq_bool_iff. reflexivity.
Qed.

Lemma count_trigger_failed points fails :
  count is_trigger (flat_map (failed_attempt_events points) fails) = 0%nat.
Proof. apply count_none_failed. now intros [|?]. Qed.

(** The calls made by one setHeaterState hold a trigger exactly when the new
    level differs from the cached one. *)
Lemma Device_setHeaterState_trigger (turnOn : bool) (newPower : num) d e fails
    r rest :
  forallb failed fails = true ->
  needs_retry r = false ->
  writes e = fails ++ WResolves r :: rest ->
  exists e' evs,
    Device.setHeaterState turnOn newPower d e
    = Some (Device.set_heater turnOn newPower d, e')
    /\ trace e' = trace e ++ evs
    /\ writes e' = rest
    /\ count is_trigger evs
       = (if num_eqb newPower (Device.max_power d) then 0 else 1)%nat.
Proof.
  intros Hf Hr Hw.
  destruct (Device_setHeaterState_succeeds turnOn newPower d e fails r rest
              Hf Hr Hw) as (e' & text & watt & Hrun & Ht & _ & Hwr & _).
  eexists e', _. repeat split; [exact Hrun|exact Ht|exact Hwr|].
  rewrite count_app, count_trigger_failed.
  now destruct (num_eqb newPower (Device.max_power d)).
Qed.

(** C6, as amended: two calls of setHeaterState in succession with the same
    level (a number) both return and send at most one max-power-changed
    trigger: the first call sends it exactly when the level differs from the
    level cached before it, the second never does.  The test is on the level,
    whatever the wattage and the on/off argument. *)
Theorem setHeaterState_twice_one_trigger
    (on1 on2 : bool) (level : num) (d : Device.dev) (e : env)
    (fails1 fails2 : list write_outcome) (r1 r2 : option response)
    (rest : list write_outcome)
    (Hlevel : isNaN level = false)
    (Hfails1 : forallb failed fails1 = true)
    (Hsuccess1 : needs_retry r1 = false)
    (Hfails2 : forallb failed fails2 = true)
    (Hsuccess2 : needs_retry r2 = false)
    (Hscript : writes e
               = fails1 ++ WResolves r1 :: fails2 ++ WResolves r2 :: rest) :
  exists d1 e1 evs1 d2 e2 evs2,
    Device.setHeaterState on1 level d e = Some (d1, e1)
    /\ trace e1 = trace e ++ evs1
    /\ Device.setHeaterState on2 level d1 e1 = Some (d2, e2)
    /\ trace e2 = trace e1 ++ evs2
    /\ count is_trigger evs1
       = (if num_eqb level (Device.max_power d) then 0 else 1)%nat
    /\ count is_trigger evs2 = 0%nat
    /\ Device.max_power d2 = level.
Proof.
  destruct (Device_setHeaterState_trigger on1 level d e fails1 r1 _
              Hfails1 Hsuccess1 Hscript) as (e1 & evs1 & Hrun1 & Ht1 & Hw1 & Hc1).
  destruct (Device_setHeaterState_trigger on2 level
              (Device.set_heater on1 level d) e1 fails2 r2 rest
              Hfails2 Hsuccess2 Hw1) as (e2 & evs2 & Hrun2 & Ht2 & _ & Hc2).
  exists (Device.set_heater on1 level d), e1, evs1,
         (Device.set_heater on2 level (Device.set_heater on1 level d)), e2, evs2.
  repeat split; auto.
  rewrite Hc2. cbn [Device.max_power Device.set_heater].
  now rewrite num_eqb_refl.
Qed.

Lemma setHeaterState_twice_one_trigger_witness :
  let d := Device.onOAuth2Init_state (of_Z 0) false in
  let e := env0 [WThrows; ok_response; not_ok_response; ok_response] [] in
  exists d1 e1 evs1 d2 e2 evs2,
    Device.setHeaterState true (of_Z 1) d e = Some (d1, e1)
    /\ trace e1 = trace e ++ evs1
    /\ Device.setHeaterState false (of_Z 1) d1 e1 = Some (d2, e2)
    /\ trace e2 = trace e1 ++ evs2
    /\ count is_trigger evs1
       = (if num_eqb (of_Z 1) (Device.max_power d) then 0 else 1)%nat
    /\ count is_trigger evs2 = 0%nat
    /\ Device.max_power d2 = of_Z 1.
Proof.
  intros d e.
  apply (setHeaterState_twice_one_trigger true false (of_Z 1) d e
           [WThrows] [not_ok_response] (Some {| rok := Some true |})
           (Some {| rok := Some true |}) []); reflexivity.
Defined.

(** C6 as stated fails: right after the initialisation the cached level is 3;
    two calls with level 3 send no max-power-changed trigger, not one. *)
Lemma setHeaterState_twice_same_as_cached_no_trigger :
  let d := Device.onOAuth2Init_state (of_Z 0) false in
  match Device.setHeaterState true (of_Z 3) d
          (env0 [ok_response; ok_response] []) with
  | Some (d1, e1) =>
      match Device.setHeaterState true (of_Z 3) d1 e1 with
      | Some (_, e2) =>
          count is_write (trace e2) = 2%nat
          /\ count is_trigger (trace e2) <> 1%nat
      | None => False
      end
  | None => False
  end.
Proof. cbv. split; [reflexivity|discriminate]. Qed.

(** ** setAmbientTemp *)

(** C10: setAmbientTemp with a NaN, or with the ambient temperature already
    stored, returns at once: the device fields and the platform state (settings,
    availability, the calls made, the pending cloud script) are those of
    before, so that no write was attempted. *)
Theorem setAmbientTemp_nan_or_same_is_noop
    (ambientTemp : num) (d : Device.dev) (e : env)
    (H : isNaN ambientTemp = true
         \/ num_eqb (Device.outsideTemp d) ambientTemp = true) :
  Device.setAmbientTemp ambientTemp d e = Some (d, e).
Proof.
  unfold Device.setAmbientTemp.
  destruct H as [-> | ->]; [reflexivity|].
  now rewrite orb_true_r.
Qed.

Lemma setAmbientTemp_nan_or_same_is_noop_witness :
  let d := Device.onOAuth2Init_state (of_Z 0) false in
  Device.setAmbientTemp NaN d (env0 [WThrows] []) = Some (d, env0 [WThrows] [])
  /\ Device.setAmbientTemp (of_Z 24) d (env0 [] []) = Some (d, env0 [] []).
Proof.
  intro d. split.
  - apply (setAmbientTemp_nan_or_same_is_noop NaN d (env0 [WThrows] [])).
    left. reflexivity.
  - apply (setAmbientTemp_nan_or_same_is_noop (of_Z 24) d (env0 [] [])).
    right. reflexivity.
Defined.

(** ** logLeakage with the static constant *)

Lemma Qltb_lt x y : Qltb x y = true <-> x < y.
Proof.
  unfold Qltb. rewrite negb_true_iff, <- not_true_iff_false, Qle_bool_iff.
  split; [apply Qnot_le_lt|apply Qlt_not_le].
Qed.

(** The leakage of the period between two calls, in kWh. *)
Lemma Device_logLeakage_accumulated totalUsage temperature inTank debugTime now
    d e :
  isNaN (ToNumber totalUsage) = false ->
  isNaN (ToNumber temperature) = false ->
  isNaN (ToNumber inTank) = false ->
  let newTime :=
    if isNaN (ToNumber debugTime) then TDate now else TRaw debugTime in
  let timedLeakage :=
    ((Device.leakageConstant d * (ToNumber temperature - Device.outsideTemp d)
      * (time_number newTime - time_number (Device.prevAccumTime d)))
     / of_Z (60 * 60 * 1000000))%num in
  exists d' e',
    Device.logLeakage totalUsage temperature inTank debugTime now d e
    = (Returned, d', e')
    /\ Device.accumulatedLeakage d'
       = (if isNaN timedLeakage then Device.accumulatedLeakage d
          else (Device.accumulatedLeakage d + timedLeakage)%num)
    /\ Device.prevAccumTime d'
       = (if isNaN timedLeakage then Device.prevAccumTime d else newTime)
    /\ Device.leakageConstant d' = Device.leakageConstant d
    /\ Device.outsideTemp d' = Device.outsideTemp d
    /\ Device.brokenSpotPrice d' = Device.brokenSpotPrice d.
Proof.
  intros Hu Ht Hi newTime timedLeakage.
  unfold Device.logLeakage. rewrite Hu, Ht, Hi. cbn [orb].
  fold newTime. fold timedLeakage.
  destruct (isNaN timedLeakage); cbn [negb].
  - destruct (time_truthy (Device.prevRelationTime d)); cbn [negb];
      [destruct (num_gtb _ Device.day_ms)|]; eauto 10.
  - match goal with
    | |- context [if num_gtb ?a ?b then (_, setStoreValue _ _ _) else _] =>
        destruct (num_gtb a b)
    end;
      cbn [Device.prevRelationTime Device.set_accum];
      (destruct (time_truthy (Device.prevRelationTime d)); cbn [negb];
       [destruct (num_gtb _ Device.day_ms)|]); eauto 10.
Qed.

(** device.js: a call returns early, leaving the leakage figures, when it is a
    first call or when it has no estimate and no leakage yet; otherwise it
    adds the leakage of the period, computed with the constant as the call
    leaves it. *)
Lemma Connected200_logLeakage_accumulated total_usage temperature in_tank
    debug_time now d e :
  isNaN (ToNumber total_usage) = false ->
  isNaN (ToNumber temperature) = false ->
  isNaN (ToNumber in_tank) = false ->
  let new_time :=
    if isNaN (ToNumber debug_time) then TDate now else TRaw debug_time in
  let first_call :=
    nullish (Connected200.prevPower d) || nullish (Connected200.prevTemp d)
    || nullish (Connected200.prevStored d) in
  let past :=
    Connected200.shift_log
      (Connected200.prevData total_usage temperature in_tank new_time d)
      (Connected200.pastLeakage d) in
  let no_estimate :=
    match Connected200.estimate past (Connected200.leakageConstant d)
            (Connected200.tankVolume d) with
    | Some _ => false
    | None => true
    end in
  let no_old_data :=
    isNaN (Connected200.currentLeakage d)
    || num_eqb (Connected200.currentLeakage d) (of_Z 0) in
  exists d' e',
    Connected200.logLeakage total_usage temperature in_tank debug_time now d e
    = (Returned, d', e')
    /\ if first_call || no_estimate && no_old_data then
         Connected200.accumulatedLeakage d' = Connected200.accumulatedLeakage d
         /\ Connected200.currentLeakage d' = Connected200.currentLeakage d
         /\ Connected200.prevAccumTime d' = Connected200.prevAccumTime d
       else
         Connected200.currentLeakage d'
         = (Connected200.leakageConstant d'
            * (ToNumber temperature - Connected200.outsideTemp d))%num
         /\ Connected200.accumulatedLeakage d'
            = (Connected200.accumulatedLeakage d
               + (Connected200.currentLeakage d'
                  * (time_number new_time
                     - time_number (Connected200.prevAccumTime d)))
                 / of_Z (60 * 60 * 1000000))%num
         /\ Connected200.prevAccumTime d' = new_time.
Proof.
  intros Hu Ht Hi new_time first_call past no_estimate no_old_data.
  unfold Connected200.logLeakage. rewrite Hu, Ht, Hi. cbn [orb].
  fold new_time. fold first_call.
  destruct first_call; cbn [orb].
  { do 2 eexists. split; [reflexivity|]. repeat split. }
  cbn [Connected200.pastLeakage Connected200.set_prev
       Connected200.set_pastLeakage Connected200.leakageConstant
       Connected200.tankVolume Connected200.currentLeakage].
  fold past. subst no_estimate.
  destruct (Connected200.estimate past _ _) as [k|]; cbn [andb].
  - do 2 eexists. split; [reflexivity|]. repeat split.
  - fold no_old_data. destruct no_old_data;
      do 2 eexists; (split; [reflexivity|]); repeat split.
Qed.





(** C5, as amended: logLeakage throws exactly when the total usage, the
    temperature or the stored energy converts to NaN (undefined, NaN itself, a
    string that spells no number), and then leaves every field of the device
    and the whole platform state (the published capabilities, the store) as
    they were; so do both drivers.  A value that converts to a number is
    accepted and the call returns: null, the empty string and false count
    as 0, true as 1. *)
Theorem logLeakage_throws_on_nan_only
    (totalUsage temperature inTank debugTime : jsval) (now : num)
    (d : Device.dev) (c : Connected200.dev) (e : env) :
  (if isNaN (ToNumber totalUsage) || isNaN (ToNumber temperature)
      || isNaN (ToNumber inTank)
   then
     Device.logLeakage totalUsage temperature inTank debugTime now d e
     = (Threw, d, e)
     /\ Connected200.logLeakage totalUsage temperature inTank debugTime now c e
        = (Threw, c, e)
   else
     exists d' c' e1 e2,
       Device.logLeakage totalUsage temperature inTank debugTime now d e
       = (Returned, d', e1)
       /\ Connected200.logLeakage totalUsage temperature inTank debugTime now
            c e
          = (Returned, c', e2))
  /\ ToNumber VUndefined = NaN
  /\ ToNumber (VNum NaN) = NaN
  /\ ToNumber (VStr "high") = NaN
  /\ ToNumber VNull = of_Z 0
  /\ ToNumber (VStr "") = of_Z 0
  /\ ToNumber (VBool false) = of_Z 0
  /\ ToNumber (VBool true) = of_Z 1
  /\ ToNumber (VStr "61.5") = Fin (123 # 2).
Proof.
  split; [|repeat split].
  destruct (isNaN (ToNumber totalUsage)) eqn:Hu;
    [|destruct (isNaN (ToNumber temperature)) eqn:Ht;
      [|destruct (isNaN (ToNumber inTank)) eqn:Hi]];
    cbn [orb];
    try (unfold Device.logLeakage, Connected200.logLeakage;
         rewrite ?Hu, ?Ht, ?Hi, ?orb_true_r; cbn [orb]; split; reflexivity).
  destruct (Device_logLeakage_accumulated totalUsage temperature inTank
              debugTime now d e Hu Ht Hi) as (d' & e1 & Hrun & _).
  destruct (Connected200_logLeakage_accumulated totalUsage temperature inTank
              debugTime now c e Hu Ht Hi) as (c' & e2 & Hrun2 & _).
  exists d', c', e1, e2. split; assumption.
Qed.

(** C5 as stated fails: a temperature of null is not a number, yet the call
    does not throw; it takes the tank to be at 0 degrees and lowers the
    accumulated leakage. *)
Lemma logLeakage_accepts_null :
  let d := Device.onOAuth2Init_state (of_Z 0) false in
  match Device.logLeakage (VNum (of_Z 100)) VNull (VNum (of_Z 5)) VUndefined
          (of_Z 300000) d (env0 [] []) with
  | (Returned, d', e') =>
      Device.accumulatedLeakage d = of_Z 0
      /\ Device.accumulatedLeakage d' = Fin (- 79 # 25000)
      /\ trace e' <> []
  | (Threw, _, _) => False
  end.
Proof. vm_compute. repeat split; discriminate. Qed.

(** ** The leak relation *)

Lemma leakRelation_clipped leakedEnergy addedEnergy :
  num_gtb addedEnergy leakedEnergy = false ->
  Device.leakRelation leakedEnergy addedEnergy = of_Z 100.
Proof. unfold Device.leakRelation. now intros ->. Qed.

(** With energy added, the relation does not exceed 100. *)
Lemma leakRelation_bounded (l a : Q) :
  0 < a ->
  num_leb (Device.leakRelation (Fin l) (Fin a)) (of_Z 100) = true.
Proof.
  intro Ha. unfold Device.leakRelation, num_gtb. cbn [num_ltb].
  destruct (Qltb l a) eqn:Hla; [|reflexivity].
  apply Qltb_lt in Hla. cbn [num_mul num_div of_Z].
  assert (Ha0 : Qeq_bool a 0 = false).
  { apply not_true_iff_false. intro H. apply Qeq_bool_iff in H. lra. }
  rewrite Ha0. cbn [num_leb of_Z]. apply Qle_bool_iff.
  rewrite !Qred_correct. change (inject_Z 100) with 100.
  apply Qle_shift_div_r; [exact Ha|]. lra.
Qed.

(** The only leak relation that a call publishes is the one of the period. *)
Lemma Device_logLeakage_relation_published totalUsage temperature inTank
    debugTime now d e c d' e' :
  Device.logLeakage totalUsage temperature inTank debugTime now d e
  = (c, d', e') ->
  exists evs,
    trace e' = trace e ++ evs
    /\ forall v, In (EvSetCapabilityValue "measure_humidity.leak_relation" v) evs ->
         v = VNum (Device.leakRelation
                     (Device.accumulatedLeakage d' - Device.prevRelationLeak d)
                     (ToNumber totalUsage - ToNumber (Device.prevRelationUse d))).
Proof.
  unfold Device.logLeakage.
  set (newTime := if isNaN (ToNumber debugTime) then _ else _).
  destruct (isNaN (ToNumber totalUsage) || isNaN (ToNumber temperature)
            || isNaN (ToNumber inTank)).
  { intros [= <- <- <-]. exists []. split; [now rewrite app_nil_r|easy]. }
  match goal with
  | |- context [if negb ?b then _ else _] => destruct b
  end; cbn [negb].
  - destruct (time_truthy (Device.prevRelationTime d)); cbn [negb];
      [destruct (num_gtb _ Device.day_ms)|];
      intros [= <- <- <-]; env_simpl.
    + eexists. split; [reflexivity|]. intros v [H|[]]. now injection H as <-.
    + exists []. split; [now rewrite app_nil_r|easy].
    + exists []. split; [now rewrite app_nil_r|easy].
  - match goal with
    | |- context [if num_gtb ?a ?b then (_, setStoreValue _ _ _) else _] =>
        destruct (num_gtb a b)
    end;
      cbn [Device.prevRelationTime Device.set_accum];
      (destruct (time_truthy (Device.prevRelationTime d)); cbn [negb];
       [destruct (num_gtb _ Device.day_ms)|]);
      intros [= <- <- <-]; unfold setStoreValue; env_simpl;
      rewrite <- ?app_assoc; cbn [app];
      (eexists; split; [reflexivity|]);
      intros v Hin; cbn [In] in Hin;
      repeat (destruct Hin as [Hin|Hin]; [try discriminate Hin|]);
      try contradiction;
      now injection Hin as <-.
Qed.

(** C3, as amended: the leak relation that logLeakage publishes is that of the
    energy leaked and the energy added since the start of the period.  It is
    100 whenever the added energy does not exceed the leaked energy (or one of
    the two is NaN), and 100 * leaked / added otherwise.  With energy added
    in the period (added > 0) and a leaked energy whose hundredfold is a
    number (100 * leaked <= Number.MAX_VALUE), it does not exceed 100. *)
Theorem leak_relation_bounded_when_energy_added
    (totalUsage temperature inTank debugTime : jsval) (now : num)
    (d d' : Device.dev) (e e' : env) (c : completion)
    (Hrun : Device.logLeakage totalUsage temperature inTank debugTime now d e
            = (c, d', e')) :
  let leakedEnergy :=
    (Device.accumulatedLeakage d' - Device.prevRelationLeak d)%num in
  let addedEnergy :=
    (ToNumber totalUsage - ToNumber (Device.prevRelationUse d))%num in
  exists evs,
    trace e' = trace e ++ evs
    /\ forall v,
         In (EvSetCapabilityValue "measure_humidity.leak_relation" v) evs ->
         exists x,
           v = VNum x
           /\ (num_gtb addedEnergy leakedEnergy = false -> x = of_Z 100)
           /\ (num_gtb addedEnergy leakedEnergy = true ->
               num_eqb addedEnergy (of_Z 0) = false ->
               x = (of_Z 100 * leakedEnergy / addedEnergy)%num)
           /\ (forall l a,
                 leakedEnergy = Fin l -> addedEnergy = Fin a ->
                 0 < a -> 100 * l <= MAX_VALUE ->
                 num_leb x (of_Z 100) = true).
Proof.
  intros leakedEnergy addedEnergy.
  destruct (Device_logLeakage_relation_published _ _ _ _ _ _ _ _ _ _ Hrun)
    as (evs & Ht & Hpub).
  exists evs. split; [exact Ht|]. intros v Hin.
  eexists. split; [exact (Hpub v Hin)|].
  fold leakedEnergy. fold addedEnergy.
  split; [apply leakRelation_clipped|]. split.
  - intros Hgt _. unfold Device.leakRelation. now rewrite Hgt.
  - intros l a -> -> Ha _. now apply leakRelation_bounded.
Qed.

(** Two polls a little more than a day apart, 41 degrees above the ambient
    temperature, 3 kWh used in between. *)
Lemma leak_relation_bounded_when_energy_added_witness :
  let d := Device.set_relation (TDate (of_Z 0)) (VNum (of_Z 100)) (of_Z 0)
             (Device.onOAuth2Init_state (of_Z 0) false) in
  exists c d' e',
    Device.logLeakage (VNum (of_Z 103)) (VNum (of_Z 65)) (VNum (of_Z 5))
      VUndefined (of_Z 86400001) d (env0 [] []) = (c, d', e')
    /\ exists evs,
         trace e' = trace (env0 [] []) ++ evs
         /\ In (EvSetCapabilityValue "measure_humidity.leak_relation"
                  (VNum (Fin (279849603239 # 5400000000)))) evs
         /\ forall v,
              In (EvSetCapabilityValue "measure_humidity.leak_relation" v) evs ->
              exists x, v = VNum x /\ num_leb x (of_Z 100) = true.
Proof.
  intro d.
  destruct (Device.logLeakage (VNum (of_Z 103)) (VNum (of_Z 65))
              (VNum (of_Z 5)) VUndefined (of_Z 86400001) d (env0 [] []))
    as [[c d'] e'] eqn:Hrun.
  exists c, d', e'. split; [reflexivity|].
  destruct (leak_relation_bounded_when_energy_added _ _ _ _ _ d d'
              (env0 [] []) e' c Hrun)
    as (evs & Ht & Hle).
  exists evs. split; [exact Ht|].
  vm_compute in Hrun. injection Hrun as _ <- <-.
  cbn [trace env0 app] in Ht. subst evs. split; [cbn; auto 10|].
  intros v Hin. destruct (Hle v Hin) as (x & Hv & _ & _ & Hbound).
  exists x. split; [exact Hv|].
  apply (Hbound (279849603239 # 180000000000) 3);
    [reflexivity|reflexivity|reflexivity|].
  apply Qle_bool_iff. vm_compute. reflexivity.
Defined.

(** C3 as stated fails: the tank is colder (20) than the ambient temperature
    (24) and the energy counter went back by 0.1 kWh over a day; both period
    energies are negative and the relation published is above 100. *)
Lemma leak_relation_above_100 :
  let d := Device.onOAuth2Init_state (of_Z 0) false in
  match Device.logLeakage (VNum (of_Z 100)) (VNum (of_Z 20)) (VNum (of_Z 5))
          VUndefined (of_Z 1000) d (env0 [] []) with
  | (Returned, d1, e1) =>
      match Device.logLeakage (VNum (Fin (999 # 10))) (VNum (of_Z 20))
              (VNum (of_Z 5)) VUndefined (of_Z 86401001) d1 e1 with
      | (Returned, _, e2) =>
          match last (trace e2) EvSetAvailable with
          | EvSetCapabilityValue name (VNum x) =>
              name = "measure_humidity.leak_relation"
              /\ num_gtb x (of_Z 100) = true
          | _ => False
          end
      | (Threw, _, _) => False
      end
  | (Threw, _, _) => False
  end.
Proof. vm_compute. split; reflexivity. Qed.

(** ** updateState *)

Lemma count_cons (p : event -> bool) (ev : event) (l : list event) :
  count p (ev :: l) = ((if p ev then 1 else 0) + count p l)%nat.
Proof. unfold count. cbn [filter]. now destruct (p ev). Qed.

Lemma count_quiet (p : event -> bool) (l : list event) :
  (forall ev, In ev l -> p ev = false) -> count p l = 0%nat.
Proof.
  induction l as [|ev l IH]; intro H; [reflexivity|].
  rewrite count_cons, (H ev (or_introl eq_refl)). apply IH.
  intros ev' Hin. apply H. now right.
Qed.

Lemma filter_quiet (p : event -> bool) (l : list event) :
  (forall ev, In ev l -> p ev = false) -> filter p l = [].
Proof.
  induction l as [|ev l IH]; intro H; [reflexivity|].
  cbn [filter]. rewrite (H ev (or_introl eq_refl)). apply IH.
  intros ev' Hin. apply H. now right.
Qed.

Lemma setDevicePoint_loop_writes points ws : forall resp e r e',
  setDevicePoint_loop points ws resp e = Some (r, e') ->
  exists evs,
    trace e' = trace e ++ evs
    /\ (needs_retry resp = true ->
        (1 <= count (fun ev => is_write ev) evs)%nat
        /\ In (EvSetDevicePoint points) evs).
Proof.
  induction ws as [|o ws IH]; intros resp e r e' H; cbn [setDevicePoint_loop] in H.
  - destruct (needs_retry resp); [discriminate|].
    injection H as <- <-. exists []. split; [now rewrite app_nil_r|easy].
  - destruct (needs_retry resp) eqn:Hresp.
    + assert (Hstep : forall e1 resp1 evs1,
                setDevicePoint_loop points ws resp1 e1 = Some (r, e') ->
                trace e1 = trace e ++ EvSetDevicePoint points :: evs1 ->
                exists evs,
                  trace e' = trace e ++ evs
                  /\ (true = true ->
                      (1 <= count (fun ev => is_write ev) evs)%nat
                      /\ In (EvSetDevicePoint points) evs)).
      { intros e1 resp1 evs1 Hrun Ht.
        destruct (IH _ _ _ _ Hrun) as (evs & Hevs & _).
        exists (EvSetDevicePoint points :: evs1 ++ evs).
        split.
        - rewrite Hevs, Ht, <- app_assoc. reflexivity.
        - intros _. split; [unfold count; cbn; lia|now left]. }
      destruct o as [|r0].
      * eapply Hstep; [exact H|]. env_simpl. rewrite <- !app_assoc. reflexivity.
      * eapply Hstep with (evs1 := []); [exact H|]. reflexivity.
    + injection H as <- <-. exists []. split; [now rewrite app_nil_r|easy].
Qed.

Lemma count_in (p : event -> bool) (ev : event) (l : list event) :
  In ev l -> p ev = true -> (1 <= count p l)%nat.
Proof.
  intros Hin Hp. unfold count.
  assert (Hf : In ev (filter p l)) by (apply filter_In; auto).
  destruct (filter p l); [contradiction|cbn; lia].
Qed.

Lemma Device_setHeaterState_writes turnOn newPower d e d' e' :
  Device.setHeaterState turnOn newPower d e = Some (d', e') ->
  d' = Device.set_heater turnOn newPower d
  /\ exists evs,
       trace e' = trace e ++ evs
       /\ (1 <= count (is_write_of "517") evs)%nat.
Proof.
  unfold Device.setHeaterState, setDevicePoint_retry.
  destruct (setDevicePoint_loop _ _ _ _) as [[r e1]|] eqn:Hloop; [|discriminate].
  unfold Device.setHeaterState_acknowledged.
  intros [= <- <-]. split; [reflexivity|].
  destruct (setDevicePoint_loop_writes _ _ _ _ _ _ Hloop) as (evs & Ht & Hw).
  destruct (Hw eq_refl) as [_ Hin].
  destruct (negb (num_eqb newPower (Device.max_power d)));
    env_simpl; rewrite Ht, <- !app_assoc;
    (eexists; split; [reflexivity|]);
    (eapply count_in; [apply in_or_app; left; exact Hin|reflexivity]).
Qed.

(** An awaited loop is its first call followed by the wait for its answer. *)
Lemma setDevicePoint_retry_await points e :
  setDevicePoint_retry points e
  = setDevicePoint_await points (emit (EvSetDevicePoint points) e).
Proof.
  unfold setDevicePoint_retry, setDevicePoint_await. cbn [writes emit].
  destruct (writes e) as [|[|r] ws]; reflexivity.
Qed.

(** X26: a call of setHeaterState that is awaited is the call as it is made
    without being awaited (its first write issued), resumed at once on the
    same fields: the two halves make up the function, in both drivers, also
    when no write is ever acknowledged. *)
Theorem setHeaterState_is_call_then_resume
    (turnOn : bool) (newPower : num) (new_power : jsval)
    (d : Device.dev) (c : Connected200.dev) (e : env) :
  Device.setHeaterState turnOn newPower d e
  = Device.setHeaterState_resume turnOn newPower d
      (Device.setHeaterState_call turnOn newPower e)
  /\ Connected200.setHeaterState turnOn new_power c e
     = Connected200.setHeaterState_resume turnOn new_power c
         (Connected200.setHeaterState_call turnOn new_power e).
Proof.
  unfold Device.setHeaterState, Device.setHeaterState_resume,
    Device.setHeaterState_call, Connected200.setHeaterState,
    Connected200.setHeaterState_resume, Connected200.setHeaterState_call.
  now rewrite !setDevicePoint_retry_await.
Qed.

(** The read loop makes no write and sends no trigger, and leaves the script
    of the writes as it is. *)
Lemma getDevicePoints_loop_quiet ids rs : forall devPoints e pts e',
  getDevicePoints_loop ids rs devPoints e = Some (pts, e') ->
  writes e' = writes e
  /\ exists evs,
       trace e' = trace e ++ evs
       /\ forall ev, In ev evs -> is_write ev = false /\ is_trigger ev = false.
Proof.
  induction rs as [|o rs IH]; intros devPoints e pts e' H;
    cbn [getDevicePoints_loop] in H.
  - destruct devPoints; [|discriminate]. injection H as <- <-.
    split; [reflexivity|]. exists []. split; [now rewrite app_nil_r|easy].
  - destruct devPoints.
    + injection H as <- <-.
      split; [reflexivity|]. exists []. split; [now rewrite app_nil_r|easy].
    + destruct o; apply IH in H as (Hw & evs & Ht & Hq); revert Hw Ht; env_simpl;
        rewrite <- !app_assoc; intros Hw Ht; (split; [exact Hw|]);
        (eexists; split; [exact Ht|]);
        intros ev Hin; cbn [In app] in Hin;
        repeat (destruct Hin as [<-|Hin]; [now split|]);
        now apply Hq.
Qed.

(** logLeakage changes neither the state of the heater nor the script of the
    writes, makes no write and sends no trigger. *)
Lemma Device_logLeakage_quiet totalUsage temperature inTank debugTime now d e c
    d' e' :
  Device.logLeakage totalUsage temperature inTank debugTime now d e
  = (c, d', e') ->
  Device.is_on d' = Device.is_on d
  /\ Device.max_power d' = Device.max_power d
  /\ writes e' = writes e
  /\ exists evs,
       trace e' = trace e ++ evs
       /\ forall ev, In ev evs -> is_write ev = false /\ is_trigger ev = false.
Proof.
  unfold Device.logLeakage.
  set (newTime := if isNaN (ToNumber debugTime) then _ else _).
  destruct (isNaN (ToNumber totalUsage) || isNaN (ToNumber temperature)
            || isNaN (ToNumber inTank)).
  { intros [= <- <- <-]. repeat split. exists [].
    split; [now rewrite app_nil_r|easy]. }
  match goal with
  | |- context [if negb ?b then _ else _] => destruct b
  end; cbn [negb].
  - destruct (time_truthy (Device.prevRelationTime d)); cbn [negb];
      [destruct (num_gtb _ Device.day_ms)|];
      intros [= <- <- <-]; env_simpl; repeat split;
      first [ exists []; split; [now rewrite app_nil_r|easy]
            | eexists; split; [reflexivity|];
              intros ev Hin; cbn [In] in Hin;
              repeat (destruct Hin as [<-|Hin]; [now split|]);
              contradiction ].
  - match goal with
    | |- context [if num_gtb ?a ?b then (_, setStoreValue _ _ _) else _] =>
        destruct (num_gtb a b)
    end;
      cbn [Device.prevRelationTime Device.set_accum];
      (destruct (time_truthy (Device.prevRelationTime d)); cbn [negb];
       [destruct (num_gtb _ Device.day_ms)|]);
      intros [= <- <- <-]; unfold setStoreValue; env_simpl;
      rewrite <- ?app_assoc; repeat split;
      (eexists; split; [reflexivity|]);
      intros ev Hin; cbn [In app] in Hin;
      repeat (destruct Hin as [<-|Hin]; [now split|]);
      contradiction.
Qed.



(** One point of the answer: a 517 point issues the write of the value read
    and leaves the call pending; any other point issues no write. *)
Lemma Device_updateState_point_tick p st :
  let st' := Device.updateState_point p st in
  writes (Device.penv st') = writes (Device.penv st)
  /\ List.length (Device.pending st')
     = (List.length (Device.pending st)
        + List.length (values_517 [p]))%nat
  /\ exists evs,
       trace (Device.penv st') = trace (Device.penv st) ++ evs
       /\ filter is_write evs
          = map (fun v => EvSetDevicePoint (echo v)) (values_517 [p])
       /\ count is_trigger evs = 0%nat.
Proof.
  unfold Device.updateState_point, values_517. cbn [flat_map].
  rewrite app_nil_r.
  destruct (parameterId p) as [id|]; [destruct (value p) as [v|]|];
    try (cbn [List.length map]; rewrite Nat.add_0_r;
         repeat split; exists []; now rewrite app_nil_r).
  repeat match goal with
         | |- context [(id =? ?k)%Z] =>
             destruct (Z.eqb_spec id k) as [->|?]; cbn [Z.eqb Pos.eqb]
         end;
    cbn [Device.penv Device.pending List.length map];
    rewrite ?Nat.add_0_r;
    try (split; [reflexivity|]; split; [reflexivity|];
         first [ exists []; now rewrite app_nil_r
               | eexists; split; [env_simpl; reflexivity|]; now split ]).
  unfold Device.setHeaterState_call, echo. env_simpl.
  split; [reflexivity|]. split; [rewrite length_app; reflexivity|].
  eexists. split; [reflexivity|]. split; [|reflexivity].
  cbn [filter is_write]. do 3 f_equal.
  destruct (num_eqb (ToNumber v) (of_Z 0)); reflexivity.
Qed.

Lemma Device_updateState_points_tick pts : forall st,
  let st' := Device.updateState_points pts st in
  writes (Device.penv st') = writes (Device.penv st)
  /\ List.length (Device.pending st')
     = (List.length (Device.pending st) + List.length (values_517 pts))%nat
  /\ exists evs,
       trace (Device.penv st') = trace (Device.penv st) ++ evs
       /\ filter is_write evs
          = map (fun v => EvSetDevicePoint (echo v)) (values_517 pts)
       /\ count is_trigger evs = 0%nat.
Proof.
  induction pts as [|p pts IH]; intro st.
  - cbn. rewrite Nat.add_0_r. repeat split. exists [].
    now rewrite app_nil_r.
  - change (Device.updateState_points (p :: pts) st)
      with (Device.updateState_points pts (Device.updateState_point p st)).
    destruct (Device_updateState_point_tick p st)
      as (Hw1 & Hp1 & evs1 & Ht1 & Hf1 & Hc1).
    destruct (IH (Device.updateState_point p st))
      as (Hw2 & Hp2 & evs2 & Ht2 & Hf2 & Hc2).
    cbv zeta.
    replace (values_517 (p :: pts)) with (values_517 [p] ++ values_517 pts)
      by (unfold values_517; cbn [flat_map]; now rewrite app_nil_r).
    split; [congruence|]. split; [rewrite Hp2, Hp1, length_app; lia|].
    exists (evs1 ++ evs2). split; [now rewrite Ht2, Ht1, app_assoc|].
    split; [now rewrite filter_app, map_app, Hf1, Hf2|].
    now rewrite count_app, Hc1, Hc2.
Qed.



(** The tick of the current driver, once the read is answered. *)
Lemma Device_updateState_tick now d e e0 pts :
  getDevicePoints_loop poll_ids (reads e) None e = Some (pts, e0) ->
  exists d' e' calls evs,
    Device.updateState now d e = Some (d', e', calls)
    /\ trace e' = trace e ++ evs
    /\ filter is_write evs
       = map (fun v => EvSetDevicePoint (echo v)) (values_517 pts)
    /\ count is_trigger evs = 0%nat
    /\ List.length calls = List.length (values_517 pts)
    /\ writes e' = writes e
    /\ available e' = true.
Proof.
  intro Hread. unfold Device.updateState. unfold poll_ids in Hread.
  rewrite Hread.
  apply getDevicePoints_loop_quiet in Hread as (Hw0 & evs0 & Ht0 & Hq0).
  set (st0 := {| Device.pdev := d; Device.penv := e0;
                 Device.logTotal := VUndefined; Device.logTemp := VUndefined;
                 Device.logStored := VUndefined; Device.pending := [] |}).
  destruct (Device_updateState_points_tick pts st0)
    as (HwP & HpP & evsP & HtP & HfP & HcP).
  set (st := Device.updateState_points pts st0) in *.
  cbn [Device.penv Device.pending st0 List.length] in HwP, HpP, HtP.
  assert (Hlog : exists d1 e1 evsL,
             (if is_undefined (Device.logTotal st)
                 || is_undefined (Device.logTemp st)
                 || is_undefined (Device.logStored st)
              then (Device.pdev st, Device.penv st)
              else
                let '(_, d', e') :=
                  Device.logLeakage (Device.logTotal st) (Device.logTemp st)
                    (Device.logStored st) VUndefined now (Device.pdev st)
                    (Device.penv st) in
                (d', e')) = (d1, e1)
             /\ writes e1 = writes (Device.penv st)
             /\ trace e1 = trace (Device.penv st) ++ evsL
             /\ forall ev, In ev evsL ->
                  is_write ev = false /\ is_trigger ev = false).
  { destruct (is_undefined (Device.logTotal st)
              || is_undefined (Device.logTemp st)
              || is_undefined (Device.logStored st)).
    - eexists _, _, []. split; [reflexivity|]. rewrite app_nil_r. easy.
    - destruct (Device.logLeakage _ _ _ _ _ _ _) as [[cl dl] el] eqn:Hlog.
      apply Device_logLeakage_quiet in Hlog as (_ & _ & Hw & evsL & HtL & HqL).
      eexists _, _, evsL. split; [reflexivity|]. auto. }
  destruct Hlog as (d1 & e1 & evsL & -> & HwL & HtL & HqL).
  exists d1, (setAvailable e1), (Device.pending st),
    (evs0 ++ evsP ++ evsL ++ [EvSetAvailable]).
  split; [reflexivity|]. env_simpl.
  split; [now rewrite HtL, HtP, Ht0, <- !app_assoc|].
  split.
  { rewrite !filter_app, HfP, (filter_quiet is_write evs0),
      (filter_quiet is_write evsL); [now rewrite app_nil_r| |];
      intros ev Hin; [now apply HqL|now apply Hq0]. }
  split.
  { rewrite !count_app, HcP, (count_quiet is_trigger evs0),
      (count_quiet is_trigger evsL); [reflexivity| |];
      intros ev Hin; [now apply HqL|now apply Hq0]. }
  split; [exact HpP|]. split; [congruence|reflexivity].
Qed.







(** ** The histogram estimator on a stationary stream *)

(** C7, as amended: from leakageConstant = 12.696 and tankVolume = 178, the
    log holds 20 entries "-0.3" after the 20 samples, the modal-bin gate passes
    (modal count 20 >= 10, no second bin) and leakageConstant lies strictly
    between 12.696 and k_implied = 4.187 * 178 * (0.3 * 1e6 / (10 * 300000)).
    The gate passes from the 10th sample on (the constant is still 12.696 after
    9 samples and 0.99*12.696 + 0.01*k_implied after 10), and each of the 11
    updates moves the constant by k := 0.99*k + 0.01*k_implied, so that after
    the 20th sample it is k_implied - 0.99^11 * (k_implied - 12.696).  One
    update alone, on a log of 20 such entries with the constant at 12.696,
    gives 0.99*12.696 + 0.01*k_implied. *)
Theorem leakage_constant_after_20_samples :
  after_scenario 20 (fun d =>
    Connected200.pastLeakage d = repeat entry_of_scenario 20
    /\ Connected200.find_temp_diffs (Connected200.pastLeakage d)
       = ([(Connected200.FxDec true 3, 20%nat)], 20%nat)
    /\ Connected200.select_keys [(Connected200.FxDec true 3, 20%nat)] 20
       = (Some (Connected200.FxDec true 3), None)
    /\ num_is (fun k =>
                 k == k_implied - (99 # 100) ^ 11 * (k_implied - k_initial)
                 /\ k_initial < k /\ k < k_implied)
         (Connected200.leakageConstant d))
  /\ after_scenario 9 (fun d =>
       Connected200.leakageConstant d = Fin k_initial)
  /\ after_scenario 10 (fun d =>
       num_is (fun k => k == (99 # 100) * k_initial + (1 # 100) * k_implied)
         (Connected200.leakageConstant d))
  /\ num_is (fun k =>
               k == (99 # 100) * k_initial + (1 # 100) * k_implied
               /\ k_initial < k /\ k < k_implied)
       (match Connected200.estimate (repeat entry_of_scenario 20)
                (Fin k_initial) (of_Z 178) with
        | Some k => k
        | None => NaN
        end).
Proof.
  unfold after_scenario.
  split; [|split; [|split]].
  - vm_compute. repeat split; try reflexivity; discriminate.
  - vm_compute. reflexivity.
  - vm_compute. reflexivity.
  - vm_compute. repeat split; try reflexivity; discriminate.
Qed.

(** C7 as stated fails: after the 20 samples the constant is not
    0.99*12.696 + 0.01*k_implied (it was updated 11 times, not once). *)
Lemma leakage_constant_after_20_samples_not_one_blend :
  after_scenario 20 (fun d =>
    num_is (fun k => ~ k == (99 # 100) * k_initial + (1 # 100) * k_implied)
      (Connected200.leakageConstant d)).
Proof. vm_compute. discriminate. Qed.

(** ** The noise gate of the histogram estimator *)

Lemma fixed_eqb_eq f g : Connected200.fixed_eqb f g = true <-> f = g.
Proof.
  destruct f as [|a|a m], g as [|b|b n]; cbn; try (split; congruence).
  - rewrite Bool.eqb_true_iff. split; congruence.
  - rewrite andb_true_iff, Bool.eqb_true_iff, N.eqb_eq. split; [|intros [=]; auto].
    intros [-> ->]. reflexivity.
Qed.

Lemma count_of_set temp_diffs key v k :
  Connected200.count_of (obj_set Connected200.fixed_eqb temp_diffs key v) k
  = if Connected200.fixed_eqb key k then v
    else Connected200.count_of temp_diffs k.
Proof.
  unfold Connected200.count_of.
  induction temp_diffs as [|[k' v'] o IH]; cbn [obj_set obj_get].
  - now destruct (Connected200.fixed_eqb key k).
  - destruct (Connected200.fixed_eqb k' key) eqn:Hk'; cbn [obj_get].
    + apply fixed_eqb_eq in Hk' as ->.
      destruct (Connected200.fixed_eqb key k); reflexivity.
    + destruct (Connected200.fixed_eqb k' k) eqn:Hkk.
      * apply fixed_eqb_eq in Hkk as ->.
        destruct (Connected200.fixed_eqb key k) eqn:Hc; [|reflexivity].
        apply fixed_eqb_eq in Hc as ->.
        assert (Hr : Connected200.fixed_eqb k k = true) by now apply fixed_eqb_eq.
        congruence.
      * exact IH.
Qed.

(** No bin holds more entries than were included. *)
Lemma find_temp_diffs_bounded past temp_diffs include_count k :
  Connected200.find_temp_diffs past = (temp_diffs, include_count) ->
  (Connected200.count_of temp_diffs k <= include_count)%nat.
Proof.
  unfold Connected200.find_temp_diffs.
  set (step := fun '(td, ic) s => _).
  assert (Hinv : forall l (acc : Connected200.histogram * nat),
             (forall k, Connected200.count_of (fst acc) k <= snd acc)%nat ->
             forall k, (Connected200.count_of (fst (fold_left step l acc)) k
                        <= snd (fold_left step l acc))%nat).
  { induction l as [|s l IH]; intros [td ic] Hacc; cbn [fold_left]; [exact Hacc|].
    apply IH. intro k'. unfold step.
    destruct (Connected200.qualifies s); [|exact (Hacc k')].
    cbn [fst snd]. rewrite count_of_set.
    destruct (Connected200.fixed_eqb (Connected200.tempDiff s) k').
    - specialize (Hacc (Connected200.tempDiff s)).
      unfold Connected200.count_of in Hacc. cbn [fst snd] in Hacc.
      destruct (obj_get _ td _); lia.
    - specialize (Hacc k'). cbn [fst snd] in Hacc. lia. }
  intro H. specialize (Hinv past ([], 0%nat) (fun _ => Nat.le_refl 0) k).
  now rewrite H in Hinv.
Qed.

(** The gate when the two most frequent bins are not neighbours. *)
Lemma select_keys_not_neighbours temp_diffs include_count k0 k1 rest :
  Connected200.sort_by_count temp_diffs = k0 :: k1 :: rest ->
  (10 <= Connected200.count_of temp_diffs k0)%nat ->
  (Connected200.count_of temp_diffs k0 <= include_count)%nat ->
  num_eqb
    (Connected200.num_abs
       (Connected200.parseInt_times10 k1 - Connected200.parseInt_times10 k0))
    (of_Z 1) = false ->
  Connected200.select_keys temp_diffs include_count
  = if (Connected200.count_of temp_diffs k0
        <? 3 * Connected200.count_of temp_diffs k1)%nat
    then (None, None)
    else (Some k0, None).
Proof.
  intros Hsort Hmodal Hinc Hfar. unfold Connected200.select_keys.
  rewrite Hsort, Hfar. cbn [negb].
  destruct (Nat.eqb_spec include_count 0) as [->|_]; [lia|].
  destruct (Nat.ltb_spec (Connected200.count_of temp_diffs k0) 10); [lia|].
  reflexivity.
Qed.

(** What a call does to the leakage constant. *)
Lemma Connected200_logLeakage_constant total_usage temperature in_tank
    debug_time now d e :
  isNaN (ToNumber total_usage) = false ->
  isNaN (ToNumber temperature) = false ->
  isNaN (ToNumber in_tank) = false ->
  nullish (Connected200.prevPower d) = false ->
  nullish (Connected200.prevTemp d) = false ->
  nullish (Connected200.prevStored d) = false ->
  let new_time :=
    if isNaN (ToNumber debug_time) then TDate now else TRaw debug_time in
  let past :=
    Connected200.shift_log
      (Connected200.prevData total_usage temperature in_tank new_time d)
      (Connected200.pastLeakage d) in
  exists d' e',
    Connected200.logLeakage total_usage temperature in_tank debug_time now d e
    = (Returned, d', e')
    /\ Connected200.pastLeakage d' = past
    /\ Connected200.leakageConstant d'
       = match Connected200.estimate past (Connected200.leakageConstant d)
                 (Connected200.tankVolume d) with
         | Some k => k
         | None => Connected200.leakageConstant d
         end.
Proof.
  intros Hu Ht Hi Hp Hpt Hps new_time past.
  unfold Connected200.logLeakage. rewrite Hu, Ht, Hi, Hp, Hpt, Hps.
  cbn [orb]. fold new_time.
  cbn [Connected200.pastLeakage Connected200.set_prev
       Connected200.set_pastLeakage Connected200.leakageConstant
       Connected200.tankVolume Connected200.currentLeakage].
  fold past.
  destruct (Connected200.estimate past _ _) as [k|].
  - eauto.
  - destruct (isNaN (Connected200.currentLeakage d)
              || num_eqb (Connected200.currentLeakage d) (of_Z 0)); eauto.
Qed.

(** C8, as amended: when the log of a call has a second-most-frequent bin key1
    that is not adjacent to the modal bin key0 (which holds at least 10
    entries), key0 is used alone exactly when count(key0) >= 3 * count(key1),
    the case of equality included, and the constant is then blended with the
    value implied by the entries of key0; the update is rejected, and
    leakageConstant kept, exactly when count(key0) < 3 * count(key1). *)
Theorem noise_gate_not_neighbours
    (total_usage temperature in_tank debug_time : jsval) (now : num)
    (d : Connected200.dev) (e : env)
    (temp_diffs : Connected200.histogram) (include_count : nat)
    (k0 k1 : Connected200.fixed) (rest : list Connected200.fixed)
    (Husage : isNaN (ToNumber total_usage) = false)
    (Htemperature : isNaN (ToNumber temperature) = false)
    (Hin_tank : isNaN (ToNumber in_tank) = false)
    (HprevPower : nullish (Connected200.prevPower d) = false)
    (HprevTemp : nullish (Connected200.prevTemp d) = false)
    (HprevStored : nullish (Connected200.prevStored d) = false)
    (Hhist :
       Connected200.find_temp_diffs
         (Connected200.shift_log
            (Connected200.prevData total_usage temperature in_tank
               (if isNaN (ToNumber debug_time) then TDate now
                else TRaw debug_time) d)
            (Connected200.pastLeakage d))
       = (temp_diffs, include_count))
    (Hsorted : Connected200.sort_by_count temp_diffs = k0 :: k1 :: rest)
    (Hmodal : (10 <= Connected200.count_of temp_diffs k0)%nat)
    (Hfar :
       num_eqb
         (Connected200.num_abs
            (Connected200.parseInt_times10 k1
             - Connected200.parseInt_times10 k0))
         (of_Z 1) = false) :
  exists d' e',
    Connected200.logLeakage total_usage temperature in_tank debug_time now d e
    = (Returned, d', e')
    /\ ((Connected200.count_of temp_diffs k0
         < 3 * Connected200.count_of temp_diffs k1)%nat ->
        Connected200.select_keys temp_diffs include_count = (None, None)
        /\ Connected200.leakageConstant d' = Connected200.leakageConstant d)
    /\ ((3 * Connected200.count_of temp_diffs k1
         <= Connected200.count_of temp_diffs k0)%nat ->
        Connected200.select_keys temp_diffs include_count = (Some k0, None)
        /\ Connected200.leakageConstant d'
           = Connected200.blend (Connected200.leakageConstant d)
               ((Fin (4187 # 1000)
                 * Connected200.sum_temp_drop (Connected200.pastLeakage d')
                     k0 None
                 * Connected200.tankVolume d)
                / of_Z (Z.of_nat (Connected200.count_of temp_diffs k0)))%num).
Proof.
  destruct (Connected200_logLeakage_constant total_usage temperature in_tank
              debug_time now d e
              Husage Htemperature Hin_tank HprevPower HprevTemp HprevStored)
    as (d' & e' & Hrun & Hpast & Hk).
  exists d', e'. split; [exact Hrun|].
  pose proof (find_temp_diffs_bounded _ _ _ k0 Hhist) as Hinc.
  pose proof (select_keys_not_neighbours temp_diffs include_count k0 k1 rest
                Hsorted Hmodal Hinc Hfar) as Hsel.
  unfold Connected200.estimate in Hk. rewrite Hhist, Hsel in Hk.
  rewrite Hpast.
  split; intro Hcount.
  - apply Nat.ltb_lt in Hcount. rewrite Hcount in Hk, Hsel. auto.
  - apply Nat.ltb_ge in Hcount. rewrite Hcount in Hk, Hsel.
    cbv iota beta in Hk. rewrite Nat.add_0_r in Hk. auto.
Qed.

Lemma noise_gate_not_neighbours_witness :
  let '(d, e, i) := two_bins 29 11 in
  let k0 := Connected200.FxDec true 3 in
  let k1 := Connected200.FxDec true 5 in
  let temp_diffs := [(k0, 30%nat); (k1, 11%nat)] in
  exists d' e',
    Connected200.logLeakage (VNum (of_Z 100)) (VNum (Fin (655 # 10)))
      (VNum (of_Z 5)) (VNum (of_Z (300000 * i))) (of_Z 0) d e
    = (Returned, d', e')
    /\ ((Connected200.count_of temp_diffs k0
         < 3 * Connected200.count_of temp_diffs k1)%nat ->
        Connected200.select_keys temp_diffs 41 = (None, None)
        /\ Connected200.leakageConstant d' = Connected200.leakageConstant d)
    /\ ((3 * Connected200.count_of temp_diffs k1
         <= Connected200.count_of temp_diffs k0)%nat ->
        Connected200.select_keys temp_diffs 41 = (Some k0, None)
        /\ Connected200.leakageConstant d'
           = Connected200.blend (Connected200.leakageConstant d)
               ((Fin (4187 # 1000)
                 * Connected200.sum_temp_drop (Connected200.pastLeakage d')
                     k0 None
                 * Connected200.tankVolume d)
                / of_Z (Z.of_nat (Connected200.count_of temp_diffs k0)))%num).
Proof.
  destruct (two_bins 29 11) as [[d e] i] eqn:Hstate.
  vm_compute in Hstate. injection Hstate as <- <- <-.
  apply (noise_gate_not_neighbours (VNum (of_Z 100)) (VNum (Fin (655 # 10)))
           (VNum (of_Z 5)) (VNum (of_Z (300000 * 41))) (of_Z 0) _ _
           [(Connected200.FxDec true 3, 30%nat);
            (Connected200.FxDec true 5, 11%nat)] 41
           (Connected200.FxDec true 3) (Connected200.FxDec true 5) []);
    first [reflexivity | vm_compute; lia].
Defined.

(** C8 as stated fails: ten polls 0.5 degrees apart, then thirty polls 0.3
    degrees apart.  At the last one the modal bin "-0.3" holds 30 entries and
    the bin "-0.5", which is not adjacent, 10: count(key0) = 3 * count(key1);
    the update is not rejected and the constant changes. *)
Lemma noise_gate_accepts_at_equality :
  let '(d, e, i) := two_bins 29 10 in
  match Connected200.logLeakage (VNum (of_Z 100)) (VNum (Fin (66 # 1)))
          (VNum (of_Z 5)) (VNum (of_Z (300000 * i))) (of_Z 0) d e with
  | (Returned, d', _) =>
      Connected200.find_temp_diffs (Connected200.pastLeakage d')
      = ([(Connected200.FxDec true 3, 30%nat);
          (Connected200.FxDec true 5, 10%nat)], 40%nat)
      /\ Connected200.select_keys
           [(Connected200.FxDec true 3, 30%nat);
            (Connected200.FxDec true 5, 10%nat)] 40
         = (Some (Connected200.FxDec true 3), None)
      /\ num_eqb (Connected200.leakageConstant d')
           (Connected200.leakageConstant d) = false
  | (Threw, _, _) => False
  end.
Proof. vm_compute. auto. Qed.

(** ** Price control on a firmware without mode 6 *)

Section ObjFacts.
Context {K V : Type} (eqb : K -> K -> bool).
Hypothesis eqb_eq : forall a b, eqb a b = true <-> a = b.

Lemma obj_get_set_same (o : obj K V) k v :
  obj_get eqb (obj_set eqb o k v) k = Some v.
Proof.
  assert (Hr : eqb k k = true) by now apply eqb_eq.
  induction o as [|[k' v'] o IH]; cbn [obj_set obj_get].
  - now rewrite Hr.
  - destruct (eqb k' k) eqn:Hk; cbn [obj_get]; now rewrite Hk.
Qed.

Lemma obj_get_set_other (o : obj K V) k v k' :
  k <> k' -> obj_get eqb (obj_set eqb o k v) k' = obj_get eqb o k'.
Proof.
  intro Hne.
  assert (Hf : eqb k k' = false).
  { apply not_true_iff_false. now rewrite eqb_eq. }
  induction o as [|[k1 v1] o IH]; cbn [obj_set obj_get].
  - now rewrite Hf.
  - destruct (eqb k1 k) eqn:Hk; cbn [obj_get].
    + apply eqb_eq in Hk as ->. now rewrite Hf.
    + now rewrite IH.
Qed.

End ObjFacts.

Lemma sget_sset_same o k v : sget (sset o k v) k = v.
Proof. unfold sget, sset. now rewrite (obj_get_set_same _ String.eqb_eq). Qed.

Lemma sget_sset_other o k v k' : k <> k' -> sget (sset o k v) k' = sget o k'.
Proof.
  intro H. unfold sget, sset. now rewrite (obj_get_set_other _ String.eqb_eq).
Qed.

Lemma brokenSpotPrice_detected enumValues :
  (forall v, In v enumValues -> v <> VStr "6") ->
  Device.onOAuth2Init_brokenSpotPrice enumValues = true.
Proof.
  unfold Device.onOAuth2Init_brokenSpotPrice.
  set (step := fun (broken : bool) (v : jsval) => _).
  intro H.
  assert (Hfold : forall b, fold_left step enumValues b = b); [|apply Hfold].
  induction enumValues as [|v l IH]; intro b; cbn [fold_left]; [reflexivity|].
  assert (Hv : v <> VStr "6") by (apply H; now left).
  assert (Hstep : step b v = b).
  { unfold step. destruct v as [| | | |s]; try reflexivity.
    destruct (String.eqb_spec s "6") as [->|_]; [congruence|reflexivity]. }
  rewrite Hstep. apply IH. intros; apply H; now right.
Qed.

Lemma price_ids_are_price_keys id :
  In id price_ids -> Device.is_price_key (Some id) = true.
Proof.
  intro H. repeat (destruct H as [<-|H]; [reflexivity|]). contradiction.
Qed.

Lemma onSettings_keyChange_no_price_key d newSettings changedKeys id :
  Device.brokenSpotPrice d = true ->
  In id price_ids ->
  obj_get String.eqb (Device.onSettings_keyChange d newSettings changedKeys) id
  = None.
Proof.
  intros Hb Hid. unfold Device.onSettings_keyChange.
  set (step := fun (keyChange : settings_obj) (key : string) => _).
  assert (Hfold : forall l acc,
             obj_get String.eqb acc id = None ->
             obj_get String.eqb (fold_left step l acc) id = None);
    [|now apply Hfold].
  induction l as [|key l IH]; intros acc Hacc; cbn [fold_left]; [exact Hacc|].
  apply IH. unfold step. rewrite Hb. cbn [andb].
  destruct (Device.is_price_key (obj_get String.eqb Device.keyMap key)) eqn:Hp;
    cbn [negb]; [exact Hacc|].
  unfold sset. rewrite (obj_get_set_other _ String.eqb_eq); [exact Hacc|].
  intro Heq.
  destruct (obj_get String.eqb Device.keyMap key) as [s|];
    cbn [Device.property_name] in Heq; subst id.
  - rewrite (price_ids_are_price_keys _ Hid) in Hp. discriminate.
  - repeat (destruct Hid as [Hid|Hid]; [discriminate Hid|]). contradiction.
Qed.

(** The loop writes nothing but the points it was given, and touches neither
    the settings nor the store. *)
Lemma setDevicePoint_loop_points points ws : forall resp e r e',
  setDevicePoint_loop points ws resp e = Some (r, e') ->
  exists evs,
    trace e' = trace e ++ evs
    /\ (forall p, In (EvSetDevicePoint p) evs -> p = points)
    /\ (forall s, ~ In (EvSetSettings s) evs)
    /\ settings e' = settings e.
Proof.
  induction ws as [|o ws IH]; intros resp e r e' H; cbn [setDevicePoint_loop] in H.
  - destruct (needs_retry resp); [discriminate|].
    injection H as <- <-. exists []. split; [now rewrite app_nil_r|easy].
  - destruct (needs_retry resp).
    + destruct o as [|r0]; apply IH in H as (evs & Ht & Hp & Hs & Hset);
        revert Ht; env_simpl; rewrite <- !app_assoc; intro Ht;
        (eexists; split; [exact Ht|]); (split; [|split; [|exact Hset]]).
      * intros p [Hin|[Hin|[Hin|Hin]]]; try discriminate Hin;
          [now injection Hin as <-|now apply Hp].
      * intros s [Hin|[Hin|[Hin|Hin]]]; try discriminate Hin. now apply (Hs s).
      * intros p [Hin|Hin]; [now injection Hin as <-|now apply Hp].
      * intros s [Hin|Hin]; [discriminate Hin|now apply (Hs s)].
    + injection H as <- <-. exists []. split; [now rewrite app_nil_r|easy].
Qed.

Lemma onSettings_writes_keyChange newSettings changedKeys d e e' :
  Device.onSettings newSettings changedKeys d e = Some e' ->
  exists evs,
    trace e' = trace e ++ evs
    /\ forall p, In (EvSetDevicePoint p) evs ->
         p = Device.onSettings_keyChange d newSettings changedKeys.
Proof.
  unfold Device.onSettings, setDevicePoint_retry.
  destruct (0 <? _)%nat.
  - destruct (setDevicePoint_loop _ _ _ _) as [[r e1]|] eqn:Hloop;
      [|discriminate].
    intros [= <-].
    apply setDevicePoint_loop_points in Hloop as (evs & Ht & Hp & _).
    exists (evs ++ [EvSetAvailable]). env_simpl.
    split; [now rewrite Ht, app_assoc|].
    intros p Hin. apply in_app_or in Hin as [Hin|[Hin|[]]];
      [now apply Hp|discriminate Hin].
  - intros [= <-]. exists []. split; [now rewrite app_nil_r|easy].
Qed.

Lemma toSettings_coerces_mode_6 num_to_string fetched d e :
  Device.brokenSpotPrice d = true ->
  Device.String_ num_to_string (sget fetched "controling_device") = "6" ->
  exists s,
    trace (Device.toSettings num_to_string fetched d e)
    = trace e ++ [EvSetSettings s]
    /\ sget s "controling_device" = VStr "8".
Proof.
  intros Hb H6. unfold Device.toSettings, Device.setSettings. env_simpl.
  eexists. split; [reflexivity|].
  unfold Device.stringify.
  repeat (rewrite sget_sset_other; [|discriminate]).
  rewrite Hb. cbn [andb].
  rewrite sget_sset_same.
  rewrite (sget_sset_other _ "nordpool_price_region"); [|discriminate].
  rewrite H6. cbn [String.eqb Ascii.eqb Bool.eqb].
  apply sget_sset_same.
Qed.

(** No entry point changes the flag set by the initialisation. *)
Lemma Device_logLeakage_keeps_flag totalUsage temperature inTank debugTime now
    d e c d' e' :
  Device.logLeakage totalUsage temperature inTank debugTime now d e
  = (c, d', e') ->
  Device.brokenSpotPrice d' = Device.brokenSpotPrice d.
Proof.
  unfold Device.logLeakage.
  destruct (isNaN (ToNumber totalUsage) || isNaN (ToNumber temperature)
            || isNaN (ToNumber inTank));
    [now intros [= _ <- _]|].
  match goal with
  | |- context [if negb ?b then _ else _] => destruct b
  end; cbn [negb].
  - destruct (time_truthy (Device.prevRelationTime d)); cbn [negb];
      [match goal with
       | |- context [if ?b then _ else _] => destruct b
       end|]; now intros [= _ <- _].
  - match goal with
    | |- context [if num_gtb ?a ?b then (_, setStoreValue _ _ _) else _] =>
        destruct (num_gtb a b)
    end;
      cbn [Device.prevRelationTime Device.set_accum];
      (destruct (time_truthy (Device.prevRelationTime d)); cbn [negb];
       [match goal with
        | |- context [if ?b then _ else _] => destruct b
        end|]); now intros [= _ <- _].
Qed.

Lemma Device_setHeaterState_keeps_flag turnOn newPower d e d' e' :
  Device.setHeaterState turnOn newPower d e = Some (d', e') ->
  Device.brokenSpotPrice d' = Device.brokenSpotPrice d.
Proof.
  intro H. now apply Device_setHeaterState_writes in H as [-> _].
Qed.

Lemma Device_setAmbientTemp_keeps_flag ambientTemp d e d' e' :
  Device.setAmbientTemp ambientTemp d e = Some (d', e') ->
  Device.brokenSpotPrice d' = Device.brokenSpotPrice d.
Proof.
  unfold Device.setAmbientTemp.
  destruct (isNaN ambientTemp || _); [now intros [= <- _]|].
  destruct (setDevicePoint_retry _ _) as [[r e2]|]; [|discriminate].
  now intros [= <- _].
Qed.

Lemma Device_updateState_point_keeps_flag p st :
  Device.brokenSpotPrice (Device.pdev (Device.updateState_point p st))
  = Device.brokenSpotPrice (Device.pdev st).
Proof.
  unfold Device.updateState_point.
  destruct (parameterId p) as [id|]; [destruct (value p) as [v|]|];
    try reflexivity.
  repeat match goal with
         | |- context [(id =? ?k)%Z] => destruct (id =? k)%Z
         end;
    try reflexivity.
  cbn [Device.pdev]. now destruct (num_eqb (ToNumber v) (of_Z 0)).
Qed.

Lemma Device_updateState_points_keeps_flag pts : forall st,
  Device.brokenSpotPrice (Device.pdev (Device.updateState_points pts st))
  = Device.brokenSpotPrice (Device.pdev st).
Proof.
  induction pts as [|p l IH]; intro st; [reflexivity|].
  change (Device.updateState_points (p :: l) st)
    with (Device.updateState_points l (Device.updateState_point p st)).
  now rewrite IH, Device_updateState_point_keeps_flag.
Qed.

Lemma Device_updateState_keeps_flag now d e d' e' calls :
  Device.updateState now d e = Some (d', e', calls) ->
  Device.brokenSpotPrice d' = Device.brokenSpotPrice d.
Proof.
  unfold Device.updateState.
  destruct (getDevicePoints_loop _ _ _ _) as [[devPoints e0]|]; [|discriminate].
  match goal with
  | |- context [Device.updateState_points devPoints ?st0] =>
      pose proof (Device_updateState_points_keeps_flag devPoints st0) as Hpts;
      set (st := Device.updateState_points devPoints st0) in *
  end.
  cbn [Device.pdev] in Hpts.
  destruct (is_undefined (Device.logTotal st)
            || is_undefined (Device.logTemp st)
            || is_undefined (Device.logStored st)).
  - intros [= <- _ _]. exact Hpts.
  - destruct (Device.logLeakage _ _ _ _ _ _ _) as [[cl dl] el] eqn:Hlog.
    apply Device_logLeakage_keeps_flag in Hlog.
    intros [= <- _ _]. congruence.
Qed.

Lemma Device_setHeaterState_resume_keeps_flag turnOn newPower d e d' e' :
  Device.setHeaterState_resume turnOn newPower d e = Some (d', e') ->
  Device.brokenSpotPrice d' = Device.brokenSpotPrice d.
Proof.
  unfold Device.setHeaterState_resume.
  destruct (setDevicePoint_await _ _) as [[r e1]|]; [|discriminate].
  now intros [= <- _].
Qed.

(** C9 fails on a settings change: on a firmware whose heater mode has no
    value '6' the flag brokenSpotPrice is set; toSettings then replaces a
    controling_device of '6' by '8' in what it hands to setSettings, but
    onSettings forwards a change of the setting controling_device to '6' to
    the device as it is: point 500 is written with '6', the mode of the price
    control. *)
Lemma onSettings_forwards_price_control_mode :
  let d :=
    Device.onOAuth2Init_state (of_Z 0)
      (Device.onOAuth2Init_brokenSpotPrice [VStr "7"; VStr "8"]) in
  let e := env0 [ok_response] [] in
  let newSettings := [("controling_device", VStr "6")] in
  Device.brokenSpotPrice d = true
  /\ (exists e',
        Device.onSettings newSettings ["controling_device"] d e = Some e'
        /\ trace e' = [EvSetDevicePoint [("500", VStr "6")]; EvSetAvailable])
  /\ (exists s,
        trace (Device.toSettings (fun _ => "NaN") newSettings d e)
        = [EvSetSettings s]
        /\ sget s "controling_device" = VStr "8").
Proof.
  intros d e newSettings. split; [reflexivity|]. split.
  - eexists. split; reflexivity.
  - eexists. split; reflexivity.
Qed.

(** The check of the heater mode: the flag is set exactly when no enumerated
    value is '6'. *)
Lemma brokenSpotPrice_iff enumValues :
  Device.onOAuth2Init_brokenSpotPrice enumValues = true
  <-> forall v, In v enumValues -> v <> VStr "6".
Proof.
  split; [|apply brokenSpotPrice_detected].
  unfold Device.onOAuth2Init_brokenSpotPrice.
  set (step := fun (broken : bool) (v : jsval) => _).
  assert (Hfalse : forall l, fold_left step l false = false).
  { induction l as [|v l IH]; [reflexivity|]. cbn [fold_left].
    replace (step false v) with false; [exact IH|].
    unfold step. destruct v as [| | | |s]; try reflexivity.
    now destruct (String.eqb s "6"). }
  induction enumValues as [|v l IH]; intros H w Hin; [contradiction|].
  cbn [fold_left] in H. destruct Hin as [->|Hin].
  - intros ->. unfold step at 2 in H. cbn in H. rewrite Hfalse in H.
    discriminate H.
  - apply IH; [|exact Hin].
    destruct (step true v) eqn:Hs; [exact H|].
    rewrite Hfalse in H. discriminate H.
Qed.

(** X25: what the flag brokenSpotPrice does and does not do.  The
    initialisation sets it exactly when the enumerated values of the heater
    mode hold no '6'.  With the flag set, no settings change writes one of the
    parameters 544 to 548 to the device, and toSettings replaces a
    controling_device of '6' by '8' in what it hands to setSettings.  No
    entry point (setHeaterState, awaited or resumed, setAmbientTemp,
    logLeakage, updateState) changes the flag. *)
Theorem broken_spot_price_blocks_price_points
    (num_to_string : num -> string) (enumValues : list jsval)
    (d : Device.dev) (e : env)
    (newSettings fetched : settings_obj) (changedKeys : list string)
    (Hbroken : Device.brokenSpotPrice d = true) :
  (Device.onOAuth2Init_brokenSpotPrice enumValues = true
   <-> forall v, In v enumValues -> v <> VStr "6")
  /\ (forall e',
        Device.onSettings newSettings changedKeys d e = Some e' ->
        exists evs,
          trace e' = trace e ++ evs
          /\ forall points id,
               In (EvSetDevicePoint points) evs -> In id price_ids ->
               obj_has String.eqb points id = false)
  /\ (Device.String_ num_to_string (sget fetched "controling_device") = "6" ->
      exists s,
        trace (Device.toSettings num_to_string fetched d e)
        = trace e ++ [EvSetSettings s]
        /\ sget s "controling_device" = VStr "8")
  /\ (forall turnOn newPower d' e',
        Device.setHeaterState turnOn newPower d e = Some (d', e')
        \/ Device.setHeaterState_resume turnOn newPower d e = Some (d', e') ->
        Device.brokenSpotPrice d' = true)
  /\ (forall ambientTemp d' e',
        Device.setAmbientTemp ambientTemp d e = Some (d', e') ->
        Device.brokenSpotPrice d' = true)
  /\ (forall totalUsage temperature inTank debugTime now c d' e',
        Device.logLeakage totalUsage temperature inTank debugTime now d e
        = (c, d', e') ->
        Device.brokenSpotPrice d' = true)
  /\ (forall now d' e' calls,
        Device.updateState now d e = Some (d', e', calls) ->
        Device.brokenSpotPrice d' = true).
Proof.
  split; [apply brokenSpotPrice_iff|].
  split; [|split; [|repeat split]].
  - intros e' Hrun.
    apply onSettings_writes_keyChange in Hrun as (evs & Ht & Hp).
    exists evs. split; [exact Ht|]. intros points id Hin Hid.
    rewrite (Hp _ Hin). unfold obj_has.
    now rewrite onSettings_keyChange_no_price_key.
  - now apply toSettings_coerces_mode_6.
  - intros turnOn newPower d' e' [H|H].
    + apply Device_setHeaterState_keeps_flag in H. congruence.
    + apply Device_setHeaterState_resume_keeps_flag in H. congruence.
  - intros ambientTemp d' e' H.
    apply Device_setAmbientTemp_keeps_flag in H. congruence.
  - intros totalUsage temperature inTank debugTime now c d' e' H.
    apply Device_logLeakage_keeps_flag in H. congruence.
  - intros now d' e' calls H.
    apply Device_updateState_keeps_flag in H. congruence.
Qed.

Lemma broken_spot_price_blocks_price_points_witness :
  let d := Device.onOAuth2Init_state (of_Z 0) true in
  let e := env0 [ok_response] [] in
  let newSettings :=
    [("nordpool_price_region", VStr "3"); ("max_water_flow", VNum (of_Z 12))] in
  let changedKeys := ["nordpool_price_region"; "max_water_flow"] in
  let fetched := [("controling_device", VStr "6")] in
  Device.onOAuth2Init_brokenSpotPrice [VStr "7"; VStr "8"] = true
  /\ (exists e' evs,
        Device.onSettings newSettings changedKeys d e = Some e'
        /\ trace e' = trace e ++ evs
        /\ In (EvSetDevicePoint [("512", VNum (of_Z 12))]) evs
        /\ forall points id,
             In (EvSetDevicePoint points) evs -> In id price_ids ->
             obj_has String.eqb points id = false)
  /\ (exists s,
        trace (Device.toSettings (fun _ => "NaN") fetched d e)
        = trace e ++ [EvSetSettings s]
        /\ sget s "controling_device" = VStr "8").
Proof.
  intros d e newSettings changedKeys fetched.
  destruct (broken_spot_price_blocks_price_points (fun _ => "NaN")
              [VStr "7"; VStr "8"] d e newSettings fetched changedKeys
              eq_refl) as (Hdet & Hset & Hto & _).
  split; [reflexivity|]. split; [|exact (Hto eq_refl)].
  destruct (Device.onSettings newSettings changedKeys d e) as [e'|] eqn:Hrun;
    [|vm_compute in Hrun; discriminate Hrun].
  destruct (Hset e' eq_refl) as (evs & Ht & Hp).
  exists e', evs. repeat split; [exact Ht| |exact Hp].
  vm_compute in Hrun. injection Hrun as <-.
  cbn [trace e env0 app] in Ht. subst evs. now left.
Defined.

(** * Further properties of the two drivers *)

(** ** The log of device.js as an array *)

Lemma array_get_dense {A : Type} (l : list A) (i : nat) :
  Connected200.array_get (map Some l) i = nth_error l i.
Proof.
  unfold Connected200.array_get. revert i.
  induction l as [|x l IH]; intros [|i]; cbn; auto.
Qed.

Lemma array_set_dense {A : Type} (l : list A) (i : nat) (v : A) :
  (i <= List.length l)%nat ->
  Connected200.array_set (map Some l) i v
  = map Some (firstn i l ++ v :: skipn (S i) l).
Proof.
  revert i. induction l as [|x l IH]; intros [|i] H; cbn in *; try lia; auto.
  now rewrite IH by lia.
Qed.

Lemma firstn_snoc_nth {A : Type} (l : list A) (i : nat) (x : A) :
  nth_error l i = Some x -> firstn (S i) l = firstn i l ++ [x].
Proof.
  revert i. induction l as [|y l IH]; intros [|i] H; cbn in *; try discriminate.
  - now injection H as ->.
  - now rewrite <- IH.
Qed.

Lemma firstn_prefix {A : Type} (n : nat) (l1 l2 : list A) :
  (n <= List.length l1)%nat -> firstn n (l1 ++ l2) = firstn n l1.
Proof.
  revert n. induction l1 as [|x l1 IH]; intros [|n] H; cbn in *; try lia; auto.
  now rewrite IH by lia.
Qed.

Lemma skipn_prefix {A : Type} (l1 l2 : list A) :
  skipn (List.length l1) (l1 ++ l2) = l2.
Proof. induction l1 as [|x l1 IH]; cbn; auto. Qed.

Lemma shift_loop_dense {A : Type} (i : nat) : forall (l : list A),
  Connected200.shift_loop i (map Some l)
  = map Some (match l with
              | [] => []
              | x :: _ => x :: firstn i l ++ skipn (S i) l
              end).
Proof.
  induction i as [|i IH]; intro l; cbn [Connected200.shift_loop].
  - destruct l; reflexivity.
  - rewrite array_get_dense.
    destruct (nth_error l i) as [x|] eqn:Hnth.
    + assert (Hlen : (i < List.length l)%nat)
        by (apply nth_error_Some; congruence).
      rewrite array_set_dense by lia. rewrite IH.
      destruct l as [|l0 l]; [cbn in Hlen; lia|].
      set (l' := l0 :: l) in *.
      assert (Hfirst : (List.length (firstn (S i) l') = S i)%nat)
        by (rewrite length_firstn; lia).
      assert (Hhd : firstn (S i) l' ++ x :: skipn (S (S i)) l'
                    = l0 :: (firstn i l ++ x :: skipn (S (S i)) l'))
        by reflexivity.
      rewrite Hhd. f_equal. rewrite <- Hhd.
      rewrite (firstn_prefix i (firstn (S i) l')) by lia.
      rewrite firstn_firstn, Nat.min_l by lia.
      rewrite <- Hfirst at 1. rewrite skipn_prefix.
      rewrite (firstn_snoc_nth l' i x Hnth), <- app_assoc. reflexivity.
    + apply nth_error_None in Hnth. rewrite IH.
      destruct l as [|l0 l]; [reflexivity|].
      rewrite !firstn_all2, !skipn_all2 by (cbn in *; lia). reflexivity.
Qed.

(** X1: on a log without holes that holds at most LOGITEMS entries, the shift
    loop followed by the write of index 0 leaves the new entry first, the old
    entries after it in their order, and drops the entry that would go past
    LOGITEMS: the array stays without holes and never holds more than
    LOGITEMS (200) entries. *)
Theorem log_entry_shifts_and_bounds
    (entry : Connected200.sample) (past : list Connected200.sample)
    (Hcap : (List.length past <= Connected200.LOGITEMS)%nat) :
  Connected200.log_entry entry (map Some past)
  = map Some (Connected200.shift_log entry past)
  /\ Connected200.shift_log entry past
     = entry :: firstn (Connected200.LOGITEMS - 1) past
  /\ (List.length (Connected200.shift_log entry past)
      <= Connected200.LOGITEMS)%nat
  /\ (List.length past < Connected200.LOGITEMS ->
      Connected200.shift_log entry past = entry :: past)%nat.
Proof.
  assert (Hshift : Connected200.shift_log entry past
                   = entry :: firstn (Connected200.LOGITEMS - 1) past).
  { reflexivity. }
  split; [|split; [exact Hshift|split]].
  - unfold Connected200.log_entry. rewrite shift_loop_dense, Hshift.
    destruct past as [|x past]; [reflexivity|].
    cbn [map Connected200.array_set]. do 2 f_equal.
    replace (S (Connected200.LOGITEMS - 1)) with Connected200.LOGITEMS
      by reflexivity.
    rewrite (skipn_all2 (x :: past)) by exact Hcap. now rewrite app_nil_r.
  - unfold Connected200.shift_log. rewrite length_firstn. lia.
  - intro Hlt. rewrite Hshift, firstn_all2; [reflexivity|].
    unfold Connected200.LOGITEMS in *. lia.
Qed.

Lemma log_entry_shifts_and_bounds_witness :
  let entry := entry_of_scenario in
  let past := repeat entry_of_scenario 200 in
  Connected200.log_entry entry (map Some past)
  = map Some (Connected200.shift_log entry past)
  /\ Connected200.shift_log entry past
     = entry :: firstn (Connected200.LOGITEMS - 1) past
  /\ (List.length (Connected200.shift_log entry past)
      <= Connected200.LOGITEMS)%nat
  /\ (List.length past < Connected200.LOGITEMS ->
      Connected200.shift_log entry past = entry :: past)%nat.
Proof.
  intros entry past.
  apply (log_entry_shifts_and_bounds entry past).
  apply Nat.leb_le. vm_compute. reflexivity.
Defined.

Lemma Connected200_logLeakage_log total_usage temperature in_tank debug_time
    now d e c d' e' :
  Connected200.logLeakage total_usage temperature in_tank debug_time now d e
  = (c, d', e') ->
  Connected200.pastLeakage d' = Connected200.pastLeakage d
  \/ exists entry,
       Connected200.pastLeakage d'
       = Connected200.shift_log entry (Connected200.pastLeakage d).
Proof.
  unfold Connected200.logLeakage.
  destruct (isNaN (ToNumber total_usage) || isNaN (ToNumber temperature)
            || isNaN (ToNumber in_tank));
    [intros [= _ <- _]; now left|].
  destruct (nullish (Connected200.prevPower d)
            || nullish (Connected200.prevTemp d)
            || nullish (Connected200.prevStored d));
    [intros [= _ <- _]; now left|].
  destruct (Connected200.estimate _ _ _).
  - intros [= _ <- _]. right. eexists. reflexivity.
  - match goal with
    | |- context [if ?b then _ else _] => destruct b
    end; intros [= _ <- _]; right; eexists; reflexivity.
Qed.

(** X2: whatever is fed to logLeakage of device.js, call after call (calls
    that throw and first calls included), the log never holds more than
    LOGITEMS (200) entries. *)
Theorem pastLeakage_never_exceeds_capacity
    (calls : list (jsval * jsval * jsval * jsval * num))
    (d : Connected200.dev) (e : env)
    (Hcap : (List.length (Connected200.pastLeakage d)
             <= Connected200.LOGITEMS)%nat) :
  (List.length (Connected200.pastLeakage (fst (logLeakage_calls calls d e)))
   <= Connected200.LOGITEMS)%nat.
Proof.
  unfold logLeakage_calls. revert d e Hcap.
  induction calls as [|[[[[u t] i] n] now] calls IH]; intros d e Hcap;
    cbn [fold_left]; [exact Hcap|].
  destruct (Connected200.logLeakage u t i n now d e) as [[c d'] e'] eqn:Hrun.
  apply IH.
  apply Connected200_logLeakage_log in Hrun as [->|[entry ->]]; [exact Hcap|].
  unfold Connected200.shift_log. rewrite length_firstn. lia.
Qed.

Lemma pastLeakage_never_exceeds_capacity_witness :
  (List.length
     (Connected200.pastLeakage
        (fst (logLeakage_calls
                (map (fun t =>
                        (VNum (of_Z 100), VNum t, VNum (of_Z 5), VUndefined,
                         of_Z 0))
                   (cooling 80 (repeat (3 # 10) 3)))
                (Connected200.onOAuth2Init_state (of_Z 0)) (env0 [] []))))
   <= Connected200.LOGITEMS)%nat.
Proof.
  apply (pastLeakage_never_exceeds_capacity _
           (Connected200.onOAuth2Init_state (of_Z 0)) (env0 [] [])).
  apply Nat.leb_le. vm_compute. reflexivity.
Defined.

(** ** The histogram *)

Lemma find_temp_diffs_counts past key :
  Connected200.count_of (fst (Connected200.find_temp_diffs past)) key
  = List.length (filter (in_bin key) past)
  /\ snd (Connected200.find_temp_diffs past)
     = List.length (filter Connected200.qualifies past).
Proof.
  unfold Connected200.find_temp_diffs.
  set (step := fun '(td, ic) s => _).
  assert (Hinv : forall l (acc : Connected200.histogram * nat),
             Connected200.count_of (fst (fold_left step l acc)) key
             = (Connected200.count_of (fst acc) key
                + List.length (filter (in_bin key) l))%nat
             /\ snd (fold_left step l acc)
                = (snd acc + List.length (filter Connected200.qualifies l))%nat).
  { induction l as [|s l IH]; intros [td ic]; cbn [fold_left filter].
    - cbn. lia.
    - destruct (IH (step (td, ic) s)) as [-> ->]. unfold step, in_bin.
      destruct (Connected200.qualifies s); cbn [andb fst snd List.length];
        [|lia].
      rewrite count_of_set.
      destruct (Connected200.fixed_eqb (Connected200.tempDiff s) key) eqn:Hk;
        cbn [List.length]; [|lia].
      apply fixed_eqb_eq in Hk as ->. unfold Connected200.count_of.
      destruct (obj_get _ td _); lia. }
  destruct (Hinv past ([], 0%nat)) as [H1 H2]. split; [exact H1|exact H2].
Qed.

(** X3: the histogram counts what it should: the count of a bin is the number
    of entries of the log with no power usage, no temperature increase and
    that rounded temperature difference; include_count is the number of such
    entries over all bins; entries with power usage or a temperature increase
    change nothing. *)
Theorem find_temp_diffs_counts_qualifying_entries
    (past : list Connected200.sample) (key : Connected200.fixed) :
  Connected200.count_of (fst (Connected200.find_temp_diffs past)) key
  = List.length (filter (in_bin key) past)
  /\ snd (Connected200.find_temp_diffs past)
     = List.length (filter Connected200.qualifies past)
  /\ Connected200.find_temp_diffs (filter Connected200.qualifies past)
     = Connected200.find_temp_diffs past.
Proof.
  destruct (find_temp_diffs_counts past key) as [Hc Hi].
  split; [exact Hc|]. split; [exact Hi|]. clear Hc Hi.
  unfold Connected200.find_temp_diffs.
  set (step := fun '(td, ic) s => _).
  generalize (([], 0%nat) : Connected200.histogram * nat).
  induction past as [|s l IH]; intro acc; cbn [filter fold_left]; [reflexivity|].
  destruct (Connected200.qualifies s) eqn:Hq; cbn [fold_left].
  - apply IH.
  - rewrite IH. f_equal. destruct acc as [td ic]. unfold step. now rewrite Hq.
Qed.

Section ObjKeys.
Context {K V : Type} (eqb : K -> K -> bool).
Hypothesis eqb_eq : forall a b, eqb a b = true <-> a = b.

Lemma obj_get_none_not_key (o : obj K V) k :
  obj_get eqb o k = None <-> ~ In k (obj_keys o).
Proof.
  unfold obj_keys. induction o as [|[k' v'] o IH]; cbn [obj_get map In].
  - tauto.
  - destruct (eqb k' k) eqn:Hk.
    + apply eqb_eq in Hk. split; [discriminate|tauto].
    + rewrite IH. assert (k' <> k) by (rewrite <- eqb_eq; congruence).
      cbn [fst]. tauto.
Qed.

Lemma obj_keys_set (o : obj K V) k v :
  obj_keys (obj_set eqb o k v)
  = if obj_has eqb o k then obj_keys o else obj_keys o ++ [k].
Proof.
  unfold obj_keys, obj_has.
  induction o as [|[k' v'] o IH]; cbn [obj_set obj_get map]; [reflexivity|].
  destruct (eqb k' k) eqn:Hk; cbn [map fst]; [reflexivity|].
  rewrite IH. now destruct (obj_get eqb o k).
Qed.

Lemma obj_set_NoDup (o : obj K V) k v :
  NoDup (obj_keys o) -> NoDup (obj_keys (obj_set eqb o k v)).
Proof.
  intro H. rewrite obj_keys_set. unfold obj_has.
  destruct (obj_get eqb o k) eqn:Hg; [exact H|].
  apply obj_get_none_not_key in Hg.
  apply NoDup_app; [exact H|repeat constructor; easy|].
  intros x Hx [<-|[]]. contradiction.
Qed.

Lemma obj_get_in_NoDup (o : obj K V) k v :
  NoDup (obj_keys o) -> In (k, v) o -> obj_get eqb o k = Some v.
Proof.
  unfold obj_keys.
  induction o as [|[k' v'] o IH]; cbn [map In obj_get fst]; [easy|].
  intros Hnd [[= -> ->]|Hin].
  - assert (Hr : eqb k k = true) by now apply eqb_eq.
    now rewrite Hr.
  - inversion Hnd as [|? ? Hnotin Hnd']; subst.
    destruct (eqb k' k) eqn:Hk; [|now apply IH].
    apply eqb_eq in Hk as ->. exfalso. apply Hnotin.
    now apply (in_map fst) in Hin.
Qed.

End ObjKeys.

Lemma in_dec_fixed (key : Connected200.fixed) (l : list Connected200.fixed) :
  {In key l} + {~ In key l}.
Proof.
  apply in_dec. intros a b.
  destruct (Connected200.fixed_eqb a b) eqn:H.
  - left. now apply fixed_eqb_eq.
  - right. intro E. apply fixed_eqb_eq in E. congruence.
Qed.

Lemma find_temp_diffs_NoDup past :
  NoDup (obj_keys (fst (Connected200.find_temp_diffs past))).
Proof.
  unfold Connected200.find_temp_diffs.
  set (step := fun '(td, ic) s => _).
  assert (Hinv : forall l (acc : Connected200.histogram * nat),
             NoDup (obj_keys (fst acc)) ->
             NoDup (obj_keys (fst (fold_left step l acc)))).
  { induction l as [|s l IH]; intros [td ic] Hacc; cbn [fold_left];
      [exact Hacc|].
    apply IH. unfold step. destruct (Connected200.qualifies s); [|exact Hacc].
    cbn [fst] in *. now apply (obj_set_NoDup _ fixed_eqb_eq). }
  apply Hinv. constructor.
Qed.

Lemma insert_sorted_perm x l :
  Permutation (Connected200.insert_sorted x l) (x :: l).
Proof.
  induction l as [|y l IH]; cbn [Connected200.insert_sorted]; [reflexivity|].
  destruct (snd x <? snd y)%nat; [|reflexivity].
  rewrite IH. apply perm_swap.
Qed.

Lemma sort_pairs_perm (td : Connected200.histogram) :
  Permutation (fold_right Connected200.insert_sorted [] td) td.
Proof.
  induction td as [|x td IH]; cbn [fold_right]; [reflexivity|].
  rewrite insert_sorted_perm. now constructor.
Qed.

Lemma insert_sorted_sorted x l :
  StronglySorted by_decreasing_count l ->
  StronglySorted by_decreasing_count (Connected200.insert_sorted x l).
Proof.
  induction 1 as [|y l Hs IH Hall]; cbn [Connected200.insert_sorted].
  - repeat constructor.
  - destruct (Nat.ltb_spec (snd x) (snd y)) as [Hlt|Hge].
    + constructor; [exact IH|].
      rewrite Forall_forall in *. intros z Hz.
      apply (Permutation_in _ (insert_sorted_perm x l)) in Hz as [<-|Hz].
      * unfold by_decreasing_count. lia.
      * now apply Hall.
    + constructor; [now constructor|].
      constructor; [exact Hge|].
      rewrite Forall_forall in *. intros z Hz. specialize (Hall z Hz).
      unfold by_decreasing_count in *. lia.
Qed.

Lemma sort_pairs_sorted (td : Connected200.histogram) :
  StronglySorted by_decreasing_count
    (fold_right Connected200.insert_sorted [] td).
Proof.
  induction td as [|x td IH]; cbn [fold_right]; [constructor|].
  now apply insert_sorted_sorted.
Qed.

Lemma find_temp_diffs_positive past key c :
  obj_get Connected200.fixed_eqb (fst (Connected200.find_temp_diffs past)) key
  = Some c ->
  (1 <= c)%nat.
Proof.
  unfold Connected200.find_temp_diffs.
  set (step := fun '(td, ic) s => _).
  assert (Hinv : forall l (acc : Connected200.histogram * nat),
             (forall k, obj_get Connected200.fixed_eqb (fst acc) k
                        <> Some 0%nat) ->
             forall k, obj_get Connected200.fixed_eqb
                         (fst (fold_left step l acc)) k <> Some 0%nat).
  { induction l as [|s l IH]; intros [td ic] Hacc; cbn [fold_left];
      [exact Hacc|].
    apply IH. intro k. unfold step.
    destruct (Connected200.qualifies s); [|apply Hacc]. cbn [fst] in *.
    destruct (Connected200.fixed_eqb (Connected200.tempDiff s) k) eqn:Hk.
    - apply fixed_eqb_eq in Hk. subst k.
      rewrite (obj_get_set_same _ fixed_eqb_eq).
      destruct (obj_get _ td _); discriminate.
    - rewrite (obj_get_set_other _ fixed_eqb_eq); [apply Hacc|].
      intro E. apply fixed_eqb_eq in E. congruence. }
  intro Hg. destruct c; [|lia]. exfalso.
  apply (Hinv past ([], 0%nat)) in Hg; [exact Hg|]. intros k. discriminate.
Qed.

Lemma sorted_keys_of_pairs (cnt : Connected200.fixed -> nat)
    (l : list (Connected200.fixed * nat)) :
  StronglySorted by_decreasing_count l ->
  (forall p, In p l -> cnt (fst p) = snd p) ->
  StronglySorted (fun a b => (cnt b <= cnt a)%nat) (map fst l).
Proof.
  induction 1 as [|p l Hs IH Hall]; intro Hcount; cbn [map]; constructor.
  - apply IH. intros q Hq. apply Hcount. now right.
  - rewrite Forall_forall in *. intros k Hk.
    apply in_map_iff in Hk as (q & <- & Hq).
    rewrite (Hcount p) by now left.
    rewrite (Hcount q) by now right.
    exact (Hall q Hq).
Qed.

(** X4: sortedKeys holds every bin of the histogram exactly once, by
    decreasing count; so key0 = sortedKeys[0] is a modal bin (no bin holds more
    entries, and it holds at least one) and sortedKeys[1] a most frequent one
    among the others. *)
Theorem sortedKeys_by_decreasing_count (past : list Connected200.sample) :
  let temp_diffs := fst (Connected200.find_temp_diffs past) in
  let sortedKeys := Connected200.sort_by_count temp_diffs in
  Permutation sortedKeys (obj_keys temp_diffs)
  /\ NoDup sortedKeys
  /\ StronglySorted
       (fun a b => (Connected200.count_of temp_diffs b
                    <= Connected200.count_of temp_diffs a)%nat)
       sortedKeys
  /\ (forall key0 rest,
        sortedKeys = key0 :: rest ->
        (1 <= Connected200.count_of temp_diffs key0)%nat
        /\ forall key,
             (Connected200.count_of temp_diffs key
              <= Connected200.count_of temp_diffs key0)%nat).
Proof.
  intros temp_diffs sortedKeys.
  pose proof (find_temp_diffs_NoDup past) as Hnd. fold temp_diffs in Hnd.
  pose proof (sort_pairs_perm temp_diffs) as Hperm.
  pose proof (sort_pairs_sorted temp_diffs) as Hsorted.
  assert (Hkeys : Permutation sortedKeys (obj_keys temp_diffs)).
  { exact (Permutation_map fst Hperm). }
  assert (Hcount : forall p,
             In p (fold_right Connected200.insert_sorted [] temp_diffs) ->
             Connected200.count_of temp_diffs (fst p) = snd p).
  { intros [k c] Hin. apply (Permutation_in _ Hperm) in Hin.
    unfold Connected200.count_of. cbn [fst snd].
    now rewrite (obj_get_in_NoDup _ fixed_eqb_eq temp_diffs k c Hnd Hin). }
  assert (Hss : StronglySorted
                  (fun a b => (Connected200.count_of temp_diffs b
                               <= Connected200.count_of temp_diffs a)%nat)
                  sortedKeys).
  { exact (sorted_keys_of_pairs _ _ Hsorted Hcount). }
  split; [exact Hkeys|]. split.
  { apply (Permutation_NoDup (Permutation_sym Hkeys) Hnd). }
  split; [exact Hss|].
  intros key0 rest Heq.
  assert (Hkey : forall key c,
             obj_get Connected200.fixed_eqb temp_diffs key = Some c ->
             In key sortedKeys).
  { intros key c Hg. apply (Permutation_in _ (Permutation_sym Hkeys)).
    destruct (obj_get_none_not_key _ fixed_eqb_eq temp_diffs key) as [_ Hnone].
    destruct (in_dec_fixed key (obj_keys temp_diffs)) as [Hin|Hnotin];
      [exact Hin|].
    rewrite (Hnone Hnotin) in Hg. discriminate. }
  split.
  - unfold Connected200.count_of.
    destruct (obj_get Connected200.fixed_eqb temp_diffs key0) as [c|] eqn:Hg.
    + exact (find_temp_diffs_positive past key0 c Hg).
    + exfalso. apply (obj_get_none_not_key _ fixed_eqb_eq) in Hg. apply Hg.
      apply (Permutation_in _ Hkeys). rewrite Heq. now left.
  - intro key.
    destruct (obj_get Connected200.fixed_eqb temp_diffs key) as [c|] eqn:Hg.
    + apply Hkey in Hg. rewrite Heq in Hg, Hss.
      destruct Hg as [<-|Hin]; [lia|].
      inversion Hss as [|? ? _ Hall]; subst.
      rewrite Forall_forall in Hall. now apply Hall.
    + unfold Connected200.count_of at 1. rewrite Hg. lia.
Qed.

(** ** When the estimate is used *)

Lemma Connected200_logLeakage_constant_cases total_usage temperature in_tank
    debug_time now d e c d' e' :
  Connected200.logLeakage total_usage temperature in_tank debug_time now d e
  = (c, d', e') ->
  Connected200.leakageConstant d' = Connected200.leakageConstant d
  \/ Connected200.estimate (Connected200.pastLeakage d')
       (Connected200.leakageConstant d) (Connected200.tankVolume d)
     = Some (Connected200.leakageConstant d').
Proof.
  unfold Connected200.logLeakage.
  destruct (isNaN (ToNumber total_usage) || isNaN (ToNumber temperature)
            || isNaN (ToNumber in_tank));
    [intros [= _ <- _]; now left|].
  destruct (nullish (Connected200.prevPower d)
            || nullish (Connected200.prevTemp d)
            || nullish (Connected200.prevStored d));
    [intros [= _ <- _]; now left|].
  cbn [Connected200.pastLeakage Connected200.set_prev
       Connected200.set_pastLeakage Connected200.leakageConstant
       Connected200.tankVolume Connected200.currentLeakage].
  destruct (Connected200.estimate _ _ _) as [k|] eqn:Hest.
  - intros [= _ <- _]. right. exact Hest.
  - match goal with
    | |- context [if ?b then _ else _] => destruct b
    end; intros [= _ <- _]; now left.
Qed.

Lemma estimate_rejects_small_bins past leakageConstant_ tankVolume_ :
  (forall key, (List.length (filter (in_bin key) past) < 10)%nat) ->
  Connected200.estimate past leakageConstant_ tankVolume_ = None.
Proof.
  intro Hsmall. unfold Connected200.estimate.
  destruct (Connected200.find_temp_diffs past) as [temp_diffs include_count]
    eqn:Hhist.
  unfold Connected200.select_keys.
  destruct (Connected200.sort_by_count temp_diffs) as [|k0 rest]; [reflexivity|].
  assert (Hk0 : (Connected200.count_of temp_diffs k0 <? 10)%nat = true).
  { apply Nat.ltb_lt.
    destruct (find_temp_diffs_counts past k0) as [Hc _].
    rewrite Hhist in Hc. cbn [fst] in Hc. rewrite Hc. apply Hsmall. }
  rewrite Hk0, orb_true_r. reflexivity.
Qed.

(** X5: logLeakage of device.js never changes leakageConstant while no bin of
    the log holds 10 qualifying entries; in particular not while the log holds
    fewer than 10 entries with no power usage and no temperature increase. *)
Theorem leakageConstant_kept_below_10_entries
    (total_usage temperature in_tank debug_time : jsval) (now : num)
    (d d' : Connected200.dev) (e e' : env) (c : completion)
    (Hrun : Connected200.logLeakage total_usage temperature in_tank debug_time
              now d e = (c, d', e'))
    (Hfew : (forall key,
               List.length (filter (in_bin key) (Connected200.pastLeakage d'))
               < 10)%nat
            \/ (List.length
                  (filter Connected200.qualifies (Connected200.pastLeakage d'))
                < 10)%nat) :
  Connected200.leakageConstant d' = Connected200.leakageConstant d.
Proof.
  assert (Hsmall : forall key,
             (List.length (filter (in_bin key) (Connected200.pastLeakage d'))
              < 10)%nat).
  { destruct Hfew as [H|H]; [exact H|]. intro key.
    eapply Nat.le_lt_trans; [|exact H].
    generalize (Connected200.pastLeakage d'). intro l.
    induction l as [|s l IH]; [cbn; lia|].
    unfold in_bin in *. cbn [filter].
    destruct (Connected200.qualifies s); cbn [andb]; [|exact IH].
    destruct (Connected200.fixed_eqb _ key); cbn [List.length]; lia. }
  apply Connected200_logLeakage_constant_cases in Hrun as [H|H]; [exact H|].
  rewrite estimate_rejects_small_bins in H by exact Hsmall. discriminate.
Qed.

Lemma leakageConstant_kept_below_10_entries_witness :
  match scenario 8 with
  | Some (d, e) =>
      let '(_, d', _) :=
        Connected200.logLeakage (VNum (of_Z 100))
          (VNum (scenario_temperature 9)) (VNum (of_Z 5))
          (VNum (of_Z (300000 * 9))) (of_Z 0) d e in
      Connected200.leakageConstant d' = Connected200.leakageConstant d
  | None => False
  end.
Proof.
  destruct (scenario 8) as [[d e]|] eqn:Hs; [|vm_compute in Hs; discriminate Hs].
  destruct (Connected200.logLeakage (VNum (of_Z 100))
              (VNum (scenario_temperature 9)) (VNum (of_Z 5))
              (VNum (of_Z (300000 * 9))) (of_Z 0) d e)
    as [[c d'] e'] eqn:Hrun.
  apply (leakageConstant_kept_below_10_entries _ _ _ _ _ d d' e e' c Hrun).
  right. vm_compute in Hs. injection Hs as <- <-.
  vm_compute in Hrun. injection Hrun as _ <- _.
  apply Nat.ltb_lt. vm_compute. reflexivity.
Defined.

(** X6: whatever the histogram, the keys that the estimator selects are the
    modal bin sortedKeys[0], holding at least 10 entries, and at most one other
    bin, which is then in the histogram and is the bin 0.1 below or 0.1 above
    the modal one; a rejection selects nothing. *)
Theorem select_keys_modal_and_neighbour
    (temp_diffs : Connected200.histogram) (include_count : nat)
    (key0 key1 : option Connected200.fixed)
    (Hsel : Connected200.select_keys temp_diffs include_count = (key0, key1)) :
  match key0 with
  | None => key1 = None
  | Some k0 =>
      hd_error (Connected200.sort_by_count temp_diffs) = Some k0
      /\ (10 <= Connected200.count_of temp_diffs k0)%nat
      /\ include_count <> 0%nat
      /\ match key1 with
         | None => True
         | Some k1 =>
             obj_has Connected200.fixed_eqb temp_diffs k1 = true
             /\ (k1 = Connected200.toFixed 1
                        (Connected200.Number_ 1 k0 - Fin (1 # 10))%num
                 \/ k1 = Connected200.toFixed 1
                           (Connected200.Number_ 1 k0 + Fin (1 # 10))%num)
         end
  end.
Proof.
  unfold Connected200.select_keys in Hsel.
  destruct (Connected200.sort_by_count temp_diffs) as [|k0 rest];
    [now injection Hsel as <- <-|].
  destruct (Nat.eqb_spec include_count 0) as [|Hinc];
    [now injection Hsel as <- <-|].
  destruct (Nat.ltb_spec (Connected200.count_of temp_diffs k0) 10) as [|Hmodal];
    [now injection Hsel as <- <-|].
  cbn [orb] in Hsel.
  set (key1a := Connected200.toFixed 1 _) in Hsel.
  set (key1b := Connected200.toFixed 1 _) in Hsel.
  assert (Hsecond :
            forall k0' k1',
              (if negb (obj_has Connected200.fixed_eqb temp_diffs key1a
                        || obj_has Connected200.fixed_eqb temp_diffs key1b)
               then (Some k0, None)
               else if negb (obj_has Connected200.fixed_eqb temp_diffs key1a)
               then (Some k0, Some key1b)
               else if negb (obj_has Connected200.fixed_eqb temp_diffs key1b)
               then (Some k0, Some key1a)
               else if (Connected200.count_of temp_diffs key1b
                        <=? Connected200.count_of temp_diffs key1a)%nat
               then if (2 * Connected200.count_of temp_diffs key1b
                        <? Connected200.count_of temp_diffs key1a)%nat
                    then (Some k0, Some key1a) else (None, None)
               else if (2 * Connected200.count_of temp_diffs key1a
                        <? Connected200.count_of temp_diffs key1b)%nat
                    then (Some k0, Some key1b) else (None, None))
              = (k0', k1') ->
              match k0' with
              | None => k1' = None
              | Some k => k = k0
                          /\ match k1' with
                             | None => True
                             | Some k1 =>
                                 obj_has Connected200.fixed_eqb temp_diffs k1
                                 = true
                                 /\ (k1 = key1a \/ k1 = key1b)
                             end
              end).
  { intros k0' k1'.
    destruct (obj_has Connected200.fixed_eqb temp_diffs key1a) eqn:Ha,
      (obj_has Connected200.fixed_eqb temp_diffs key1b) eqn:Hb; cbn [negb orb];
      repeat match goal with
             | |- context [if ?b then _ else _] => destruct b
             end;
      intros [= <- <-]; auto. }
  destruct rest as [|k1' rest'].
  - specialize (Hsecond _ _ Hsel).
    destruct key0 as [k|]; [|exact Hsecond].
    destruct Hsecond as [-> H]. cbn [hd_error]. auto.
  - destruct (negb (num_eqb _ _)).
    + destruct (_ <? _)%nat; injection Hsel as <- <-; cbn [hd_error]; auto.
    + specialize (Hsecond _ _ Hsel).
      destruct key0 as [k|]; [|exact Hsecond].
      destruct Hsecond as [-> H]. cbn [hd_error]. auto.
Qed.

Lemma select_keys_modal_and_neighbour_witness :
  let temp_diffs :=
    [(Connected200.FxDec true 3, 12%nat); (Connected200.FxDec true 2, 5%nat)] in
  hd_error (Connected200.sort_by_count temp_diffs)
  = Some (Connected200.FxDec true 3)
  /\ (10 <= Connected200.count_of temp_diffs (Connected200.FxDec true 3))%nat
  /\ 17%nat <> 0%nat
  /\ obj_has Connected200.fixed_eqb temp_diffs (Connected200.FxDec true 2) = true
  /\ (Connected200.FxDec true 2
      = Connected200.toFixed 1
          (Connected200.Number_ 1 (Connected200.FxDec true 3) - Fin (1 # 10))%num
      \/ Connected200.FxDec true 2
         = Connected200.toFixed 1
             (Connected200.Number_ 1 (Connected200.FxDec true 3)
              + Fin (1 # 10))%num).
Proof.
  intro temp_diffs.
  exact (select_keys_modal_and_neighbour temp_diffs 17
           (Some (Connected200.FxDec true 3)) (Some (Connected200.FxDec true 2))
           eq_refl).
Defined.

(** ** Commands of the current driver *)

Lemma Device_setHeaterState_trace (turnOn : bool) (newPower : num) d e fails r
    rest :
  forallb failed fails = true ->
  needs_retry r = false ->
  writes e = fails ++ WResolves r :: rest ->
  exists e',
    Device.setHeaterState turnOn newPower d e
    = Some (Device.set_heater turnOn newPower d, e')
    /\ trace e'
       = trace e
         ++ flat_map (failed_attempt_events (power_point turnOn newPower)) fails
         ++ EvSetDevicePoint (power_point turnOn newPower)
            :: acknowledged d turnOn newPower
    /\ available e' = true
    /\ writes e' = rest
    /\ settings e' = settings e /\ store e' = store e /\ reads e' = reads e.
Proof.
  intros Hf Hr Hw.
  unfold Device.setHeaterState, setDevicePoint_retry. rewrite Hw.
  fold (power_point turnOn newPower).
  rewrite (setDevicePoint_loop_succeeds _ r rest fails None e Hf eq_refl Hr).
  destruct (fold_failed_frame (power_point turnOn newPower) fails e)
    as (Hs & Hst & Hrd).
  pose proof (fold_failed_trace (power_point turnOn newPower) fails e) as Ht.
  eexists. split; [reflexivity|].
  unfold acknowledged, newPowerText, newPowerWatt.
  destruct (num_eqb newPower (Device.max_power d)); env_simpl;
    rewrite Ht, Hs, Hst, Hrd, <- ?app_assoc; cbn [app]; auto 10.
Qed.

Lemma failed_attempt_writes points fails p :
  In (EvSetDevicePoint p) (flat_map (failed_attempt_events points) fails) ->
  p = points.
Proof.
  rewrite in_flat_map. intros (o & _ & Hin).
  destruct o; cbn in Hin; intuition congruence.
Qed.

Lemma acknowledged_no_write d turnOn newPower p :
  ~ In (EvSetDevicePoint p) (acknowledged d turnOn newPower).
Proof.
  unfold acknowledged.
  destruct (num_eqb newPower (Device.max_power d)); cbn;
    intuition discriminate.
Qed.

Lemma count_trigger_acknowledged d turnOn newPower :
  count is_trigger (acknowledged d turnOn newPower)
  = (if num_eqb newPower (Device.max_power d) then 0 else 1)%nat.
Proof.
  unfold acknowledged. now destruct (num_eqb newPower (Device.max_power d)).
Qed.

(** X8: switching the heater off and on again with the onoff capability keeps
    the level: the first call writes 0 to point 517 and the second the level
    that was cached, neither sends a max-power-changed trigger, and the driver
    ends on, at that level, and available. *)
Theorem onoff_off_then_on_restores_level
    (d : Device.dev) (e : env)
    (fails1 fails2 : list write_outcome) (r1 r2 : option response)
    (rest : list write_outcome)
    (Hlevel : isNaN (Device.max_power d) = false)
    (Hfails1 : forallb failed fails1 = true)
    (Hsuccess1 : needs_retry r1 = false)
    (Hfails2 : forallb failed fails2 = true)
    (Hsuccess2 : needs_retry r2 = false)
    (Hscript : writes e
               = fails1 ++ WResolves r1 :: fails2 ++ WResolves r2 :: rest) :
  exists d1 e1 evs1 d2 e2 evs2,
    Device.onoff_listener false d e = Some (d1, e1)
    /\ trace e1 = trace e ++ evs1
    /\ Device.onoff_listener true d1 e1 = Some (d2, e2)
    /\ trace e2 = trace e1 ++ evs2
    /\ (forall p, In (EvSetDevicePoint p) evs1 -> p = [("517", VNum (of_Z 0))])
    /\ (forall p, In (EvSetDevicePoint p) evs2 ->
          p = [("517", VNum (Device.max_power d))])
    /\ count is_trigger (evs1 ++ evs2) = 0%nat
    /\ Device.is_on d1 = false
    /\ d2 = Device.set_heater true (Device.max_power d) d
    /\ available e2 = true.
Proof.
  unfold Device.onoff_listener.
  destruct (Device_setHeaterState_trace false (Device.max_power d) d e fails1
              r1 _ Hfails1 Hsuccess1 Hscript)
    as (e1 & Hrun1 & Ht1 & _ & Hw1 & _).
  set (d1 := Device.set_heater false (Device.max_power d) d) in *.
  destruct (Device_setHeaterState_trace true (Device.max_power d1) d1 e1 fails2
              r2 rest Hfails2 Hsuccess2 Hw1)
    as (e2 & Hrun2 & Ht2 & Hav2 & _).
  exists d1, e1. eexists. exists (Device.set_heater true (Device.max_power d1) d1), e2.
  eexists.
  split; [exact Hrun1|]. split; [exact Ht1|]. split; [exact Hrun2|].
  split; [exact Ht2|].
  assert (Hwrites : forall dd on L p,
            In (EvSetDevicePoint p)
              (flat_map (failed_attempt_events (power_point on L)) fails1
               ++ EvSetDevicePoint (power_point on L) :: acknowledged dd on L)
            \/ In (EvSetDevicePoint p)
                 (flat_map (failed_attempt_events (power_point on L)) fails2
                  ++ EvSetDevicePoint (power_point on L)
                     :: acknowledged dd on L) ->
            p = power_point on L).
  { intros dd on L p [Hin|Hin]; apply in_app_or in Hin as [Hin|[Hin|Hin]];
      try (now apply failed_attempt_writes in Hin);
      try (now injection Hin as <-);
      now apply acknowledged_no_write in Hin. }
  split; [intros p Hin; apply (Hwrites d false (Device.max_power d) p); auto|].
  split; [intros p Hin; apply (Hwrites d1 true (Device.max_power d1) p); auto|].
  split.
  { rewrite !count_app, !count_trigger_failed, !count_cons.
    cbn [is_trigger]. rewrite !count_trigger_acknowledged.
    cbn [Device.max_power d1 Device.set_heater].
    now rewrite num_eqb_refl. }
  split; [reflexivity|]. split; [reflexivity|exact Hav2].
Qed.

Lemma onoff_off_then_on_restores_level_witness :
  let d := Device.onOAuth2Init_state (of_Z 0) false in
  let e := env0 [ok_response; WThrows; ok_response] [] in
  exists d1 e1 evs1 d2 e2 evs2,
    Device.onoff_listener false d e = Some (d1, e1)
    /\ trace e1 = trace e ++ evs1
    /\ Device.onoff_listener true d1 e1 = Some (d2, e2)
    /\ trace e2 = trace e1 ++ evs2
    /\ (forall p, In (EvSetDevicePoint p) evs1 -> p = [("517", VNum (of_Z 0))])
    /\ (forall p, In (EvSetDevicePoint p) evs2 ->
          p = [("517", VNum (Device.max_power d))])
    /\ count is_trigger (evs1 ++ evs2) = 0%nat
    /\ Device.is_on d1 = false
    /\ d2 = Device.set_heater true (Device.max_power d) d
    /\ available e2 = true.
Proof.
  intros d e.
  apply (onoff_off_then_on_restores_level d e [] [WThrows]
           (Some {| rok := Some true |}) (Some {| rok := Some true |}) []);
    reflexivity.
Defined.

Lemma newPowerText_round_trip d (s : string) :
  In s ["low_power"; "medium_power"; "high_power"] ->
  newPowerText d (Device.newPower_of (VStr s)) = s.
Proof.
  intros [<-|[<-|[<-|[]]]]; reflexivity.
Qed.

Lemma newPower_of_levels (value : jsval) :
  In (Device.newPower_of value) [of_Z 1; of_Z 2; of_Z 3].
Proof.
  destruct value as [| | | |s]; cbn; auto.
  destruct (String.eqb s "low_power"); [auto|].
  destruct (String.eqb s "medium_power"); auto.
Qed.

(** X9: the listener of the max-power capability, and the flow action card
    that changes the max power, map the text they are given to
    a level 1, 2 or 3 (anything but 'low_power' and 'medium_power' is level 3)
    and leaves the heater on or off as it was: while the heater is off it
    writes 0 to point 517 and only caches the level.  The capability is
    published with the text it was given when that is one of the three names;
    the trigger, sent exactly when the level differs from the cached one,
    carries the wattage of the level: element 1, element 2, or their sum. *)
Theorem max_power_listener_sets_level
    (value : jsval) (d : Device.dev) (e : env)
    (fails : list write_outcome) (r : option response)
    (rest : list write_outcome)
    (Hfails : forallb failed fails = true)
    (Hsuccess : needs_retry r = false)
    (Hscript : writes e = fails ++ WResolves r :: rest) :
  let level := Device.newPower_of value in
  exists d' e' evs,
    Device.max_power_listener value d e = Some (d', e')
    /\ Device.OnMaxPowerAction value d e = Some (d', e')
    /\ trace e' = trace e ++ evs
    /\ In level [of_Z 1; of_Z 2; of_Z 3]
    /\ Device.is_on d' = Device.is_on d
    /\ Device.max_power d' = level
    /\ (forall p, In (EvSetDevicePoint p) evs ->
          p = [("517", VNum (if Device.is_on d then level else of_Z 0))])
    /\ In (EvSetCapabilityValue (Device.max_power_capability_name d)
             (VStr (newPowerText d level))) evs
    /\ (forall s, value = VStr s ->
          In s ["low_power"; "medium_power"; "high_power"] ->
          newPowerText d level = s)
    /\ (forall w, In (EvTriggerMaxPowerChanged w) evs ->
          num_eqb level (Device.max_power d) = false
          /\ w = (if num_eqb level (of_Z 1) then Device.HeaterNomPower d
                  else if num_eqb level (of_Z 2) then Device.HeaterNomPower2 d
                  else (Device.HeaterNomPower d + Device.HeaterNomPower2 d)%num))
    /\ count is_trigger evs
       = (if num_eqb level (Device.max_power d) then 0 else 1)%nat.
Proof.
  intro level. unfold Device.max_power_listener. fold level.
  destruct (Device_setHeaterState_trace (Device.is_on d) level d e fails r rest
              Hfails Hsuccess Hscript) as (e' & Hrun & Ht & _).
  eexists _, e', _. split; [exact Hrun|]. split; [exact Hrun|].
  split; [exact Ht|].
  split; [apply newPower_of_levels|]. split; [reflexivity|].
  split; [reflexivity|]. split.
  { intros p Hin. apply in_app_or in Hin as [Hin|[Hin|Hin]].
    - now apply failed_attempt_writes in Hin.
    - now injection Hin as <-.
    - now apply acknowledged_no_write in Hin. }
  split.
  { apply in_or_app. right. right. unfold acknowledged.
    apply in_or_app. left. cbn. auto. }
  split.
  { intros s -> Hs. now apply newPowerText_round_trip. }
  split.
  { intros w Hin. apply in_app_or in Hin as [Hin|[Hin|Hin]].
    - apply in_flat_map in Hin as (o & _ & Hin).
      destruct o; cbn in Hin; intuition discriminate.
    - discriminate Hin.
    - unfold acknowledged in Hin.
      destruct (num_eqb level (Device.max_power d)); cbn in Hin;
        [intuition discriminate|].
      destruct Hin as [Hin|[Hin|[Hin|[Hin|[]]]]]; try discriminate Hin.
      injection Hin as <-. split; reflexivity. }
  rewrite count_app, count_trigger_failed, count_cons.
  cbn [is_trigger]. now rewrite count_trigger_acknowledged.
Qed.

Lemma max_power_listener_sets_level_witness :
  let d := Device.set_heater false (of_Z 3)
             (Device.onOAuth2Init_state (of_Z 0) false) in
  let e := env0 [not_ok_response; ok_response] [] in
  exists d' e' evs,
    Device.max_power_listener (VStr "low_power") d e = Some (d', e')
    /\ trace e' = trace e ++ evs
    /\ Device.is_on d' = false
    /\ Device.max_power d' = of_Z 1
    /\ (forall p, In (EvSetDevicePoint p) evs -> p = [("517", VNum (of_Z 0))])
    /\ In (EvSetCapabilityValue "max_power" (VStr "low_power")) evs
    /\ In (EvTriggerMaxPowerChanged (of_Z 700)) evs
    /\ count is_trigger evs = 1%nat.
Proof.
  intros d e.
  destruct (max_power_listener_sets_level (VStr "low_power") d e
              [not_ok_response] (Some {| rok := Some true |}) []
              eq_refl eq_refl eq_refl)
    as (d' & e' & evs & Hrun & _ & Ht & _ & Hon & Hlevel & Hw & Hcap & _ & _
        & Hc).
  exists d', e', evs. repeat split; try assumption.
  vm_compute in Hrun. injection Hrun as _ <-.
  cbn [trace env0 app e] in Ht. subst evs. cbn. auto 10.
Defined.

(** ** The other commands of the current driver *)

Lemma setDevicePoint_retry_trace points e fails r rest :
  forallb failed fails = true ->
  needs_retry r = false ->
  writes e = fails ++ WResolves r :: rest ->
  exists e',
    setDevicePoint_retry points e = Some (r, e')
    /\ trace e'
       = trace e ++ flat_map (failed_attempt_events points) fails
         ++ [EvSetDevicePoint points]
    /\ writes e' = rest
    /\ settings e' = settings e /\ store e' = store e /\ reads e' = reads e.
Proof.
  intros Hf Hr Hw. unfold setDevicePoint_retry. rewrite Hw.
  rewrite (setDevicePoint_loop_succeeds _ r rest fails None e Hf eq_refl Hr).
  eexists. split; [reflexivity|].
  destruct (fold_failed_frame points fails e) as (Hs & Hst & Hrd).
  env_simpl. rewrite fold_failed_trace, <- app_assoc. auto.
Qed.

(** X10: the flow action card and the listener of the ambient temperature
    call setAmbientTemp, which with a number other than the temperature held
    stores it in the device settings and in the cache, writes it to point 100
    until an attempt succeeds and marks the device available; it writes
    nothing else.  Calling it again with the same temperature then does
    nothing. *)
Theorem setAmbientTemp_applies_once
    (ambientTemp : num) (d : Device.dev) (e : env)
    (fails : list write_outcome) (r : option response)
    (rest : list write_outcome)
    (Hnum : isNaN ambientTemp = false)
    (Hnew : num_eqb (Device.outsideTemp d) ambientTemp = false)
    (Hfails : forallb failed fails = true)
    (Hsuccess : needs_retry r = false)
    (Hscript : writes e = fails ++ WResolves r :: rest) :
  exists d' e',
    Device.OnAmbientAction ambientTemp d e = Some (d', e')
    /\ Device.outsideTemp d' = ambientTemp
    /\ sget (settings e') "ambient_temperature" = VNum ambientTemp
    /\ trace e'
       = trace e
         ++ EvSetSettings [("ambient_temperature", VNum ambientTemp)]
            :: flat_map (failed_attempt_events [("100", VNum ambientTemp)]) fails
         ++ [EvSetDevicePoint [("100", VNum ambientTemp)]; EvSetAvailable]
    /\ available e' = true
    /\ writes e' = rest
    /\ Device.OnAmbientAction ambientTemp d' e' = Some (d', e').
Proof.
  unfold Device.OnAmbientAction.
  unfold Device.setAmbientTemp at 1. rewrite Hnum, Hnew. cbn [orb].
  set (e1 := Device.setSettings _ e).
  destruct (setDevicePoint_retry_trace
              (sset [] "100" (VNum (Device.outsideTemp
                                      (Device.set_outsideTemp ambientTemp d))))
              e1 fails r rest Hfails Hsuccess Hscript)
    as (e2 & Hrun & Ht & Hw & Hs & _ & _).
  rewrite Hrun. eexists _, _. split; [reflexivity|].
  split; [reflexivity|]. split.
  { env_simpl. rewrite Hs. subst e1. unfold Device.setSettings.
    cbn [settings fold_left fst snd]. apply sget_sset_same. }
  split.
  { env_simpl. rewrite Ht. subst e1. unfold Device.setSettings. env_simpl.
    cbn [Device.outsideTemp Device.set_outsideTemp sset obj_set].
    now rewrite <- !app_assoc. }
  split; [reflexivity|]. split; [exact Hw|].
  unfold Device.setAmbientTemp.
  cbn [Device.outsideTemp Device.set_outsideTemp].
  now rewrite (num_eqb_refl _ Hnum), orb_true_r.
Qed.

Lemma setAmbientTemp_applies_once_witness :
  let d := Device.onOAuth2Init_state (of_Z 0) false in
  let e := env0 [WThrows; ok_response] [] in
  exists d' e',
    Device.OnAmbientAction (of_Z 18) d e = Some (d', e')
    /\ Device.outsideTemp d' = of_Z 18
    /\ sget (settings e') "ambient_temperature" = VNum (of_Z 18)
    /\ trace e'
       = [EvSetSettings [("ambient_temperature", VNum (of_Z 18))];
          EvSetDevicePoint [("100", VNum (of_Z 18))];
          EvSetUnavailable; EvSleep 10000;
          EvSetDevicePoint [("100", VNum (of_Z 18))];
          EvSetAvailable]
    /\ Device.OnAmbientAction (of_Z 18) d' e' = Some (d', e').
Proof.
  intros d e.
  destruct (setAmbientTemp_applies_once (of_Z 18) d e [WThrows]
              (Some {| rok := Some true |}) [] eq_refl eq_refl eq_refl eq_refl
              eq_refl)
    as (d' & e' & Hrun & Ho & Hs & Ht & _ & _ & Hagain).
  exists d', e'. repeat split; assumption.
Defined.

(** X11: the listener of the target temperature writes the value to point
    527, again after every attempt that throws or that is answered with no
    result or with ok false, waiting ten seconds after each attempt that
    throws; when an attempt succeeds it marks the device available.  It sets
    no capability value and no setting, and writes no other point. *)
Theorem target_temperature_listener_retries
    (value : jsval) (e : env)
    (fails : list write_outcome) (r : option response)
    (rest : list write_outcome)
    (Hfails : forallb failed fails = true)
    (Hsuccess : needs_retry r = false)
    (Hscript : writes e = fails ++ WResolves r :: rest) :
  exists e' evs,
    Device.target_temperature_listener value e = Some e'
    /\ trace e' = trace e ++ evs
    /\ (forall p, In (EvSetDevicePoint p) evs -> p = [("527", value)])
    /\ count is_write evs = S (List.length fails)
    /\ count is_sleep evs = List.length (filter threw fails)
    /\ (forall ms, In (EvSleep ms) evs -> ms = 10000%Z)
    /\ count is_any_capability evs = 0%nat
    /\ last evs EvSetUnavailable = EvSetAvailable
    /\ available e' = true
    /\ settings e' = settings e
    /\ writes e' = rest.
Proof.
  unfold Device.target_temperature_listener.
  destruct (setDevicePoint_retry_trace [("527", value)] e fails r rest
              Hfails Hsuccess Hscript)
    as (e1 & Hrun & Ht & Hw & Hs & _ & _).
  rewrite Hrun. eexists _, _. split; [reflexivity|]. split.
  { env_simpl. rewrite Ht, <- !app_assoc. reflexivity. }
  split.
  { intros p Hin. apply in_app_or in Hin as [Hin|Hin].
    - now apply failed_attempt_writes in Hin.
    - destruct Hin as [Hin|[Hin|[]]]; [now injection Hin as <-|discriminate]. }
  split.
  { rewrite count_app, count_writes_failed. cbn. lia. }
  split.
  { rewrite count_app, count_sleep_failed. cbn. lia. }
  split.
  { intros ms Hin. apply in_app_or in Hin as [Hin|Hin].
    - now apply sleeps_failed in Hin.
    - destruct Hin as [Hin|[Hin|[]]]; discriminate. }
  split.
  { rewrite count_app, count_none_failed; [reflexivity|].
    now intros [|]. }
  split.
  { rewrite app_assoc. apply last_last. }
  repeat split; assumption.
Qed.

Lemma target_temperature_listener_retries_witness :
  let e := env0 [WThrows; not_ok_response; ok_response] [] in
  exists e' evs,
    Device.target_temperature_listener (VNum (of_Z 65)) e = Some e'
    /\ trace e' = trace e ++ evs
    /\ count is_write evs = 3%nat
    /\ count is_sleep evs = 1%nat
    /\ available e' = true.
Proof.
  intro e.
  destruct (target_temperature_listener_retries (VNum (of_Z 65)) e
              [WThrows; not_ok_response] (Some {| rok := Some true |}) []
              eq_refl eq_refl eq_refl)
    as (e' & evs & Hrun & Ht & _ & Hw & Hsl & _ & _ & _ & Hav & _).
  exists e', evs. repeat split; assumption.
Defined.

(** ** Initialisation of the current driver *)

(** X12: the first time the app runs ('isFirstTime' reads null from the store:
    it was never stored) the
    heater mode is set to External: unless it already reads '8', point 500
    is written with '8' until an attempt succeeds, and nothing else is
    written; 'isFirstTime' is then stored as false.  On every later run the
    step does nothing, whatever the heater mode reads. *)
Theorem firstTime_sets_external_mode_once
    (heaterMode_value : jsval) (e : env)
    (fails : list write_outcome) (r : option response)
    (rest : list write_outcome)
    (Hfirst : getStoreValue "isFirstTime" e = VNull)
    (Hfails : forallb failed fails = true)
    (Hsuccess : needs_retry r = false)
    (Hscript : heaterMode_value <> VStr "8" ->
               writes e = fails ++ WResolves r :: rest) :
  exists e' evs,
    Device.onOAuth2Init_firstTime heaterMode_value e = Some e'
    /\ trace e' = trace e ++ evs
    /\ (forall p, In (EvSetDevicePoint p) evs ->
          p = [("500", VStr "8")] /\ heaterMode_value <> VStr "8")
    /\ (heaterMode_value <> VStr "8" ->
        count is_write evs = S (List.length fails))
    /\ In (EvSetStoreValue "isFirstTime" (VBool false)) evs
    /\ getStoreValue "isFirstTime" e' = VBool false
    /\ forall heaterMode_value',
         Device.onOAuth2Init_firstTime heaterMode_value' e' = Some e'.
Proof.
  assert (Hagain : forall e1 hm,
             Device.onOAuth2Init_firstTime hm
               (setStoreValue "isFirstTime" (VBool false) e1)
             = Some (setStoreValue "isFirstTime" (VBool false) e1)).
  { intros e1 hm.
    unfold Device.onOAuth2Init_firstTime, getStoreValue, setStoreValue, sset.
    cbn [store]. now rewrite (obj_get_set_same _ String.eqb_eq). }
  assert (Hstored : forall e1,
             getStoreValue "isFirstTime"
               (setStoreValue "isFirstTime" (VBool false) e1) = VBool false).
  { intro e1. unfold getStoreValue, setStoreValue, sset. cbn [store].
    now rewrite (obj_get_set_same _ String.eqb_eq). }
  unfold Device.onOAuth2Init_firstTime at 1. rewrite Hfirst.
  assert (Hext : (match heaterMode_value with
                  | VStr s => String.eqb s "8"
                  | _ => false
                  end) = true <-> heaterMode_value = VStr "8").
  { destruct heaterMode_value as [| | | |s]; try (split; discriminate).
    rewrite String.eqb_eq. split; congruence. }
  destruct (match heaterMode_value with
            | VStr s => String.eqb s "8"
            | _ => false
            end) eqn:Hmode.
  - assert (H8 : heaterMode_value = VStr "8") by now apply Hext.
    eexists _, [EvSetStoreValue "isFirstTime" (VBool false)].
    split; [reflexivity|]. split; [reflexivity|]. split.
    { intros p [Hin|[]]. discriminate Hin. }
    split; [intro Hne; contradiction|]. split; [now left|].
    split; [apply Hstored|apply Hagain].
  - assert (Hne : heaterMode_value <> VStr "8").
    { intro H8. apply Hext in H8. discriminate H8. }
    destruct (setDevicePoint_retry_trace [("500", VStr "8")] e fails r rest
                Hfails Hsuccess (Hscript Hne))
      as (e1 & Hrun & Ht & _).
    rewrite Hrun. eexists _, _. split; [reflexivity|]. split.
    { unfold setStoreValue. env_simpl. rewrite Ht, <- !app_assoc.
      reflexivity. }
    split.
    { intros p Hin. split; [|exact Hne].
      apply in_app_or in Hin as [Hin|Hin].
      - now apply failed_attempt_writes in Hin.
      - destruct Hin as [Hin|[Hin|[]]];
          [now injection Hin as <-|discriminate]. }
    split.
    { intros _. rewrite count_app, count_writes_failed. cbn. lia. }
    split.
    { apply in_or_app. right. cbn. auto. }
    split; [apply Hstored|apply Hagain].
Qed.

Lemma firstTime_sets_external_mode_once_witness :
  let e := env0 [not_ok_response; ok_response] [] in
  exists e' evs,
    Device.onOAuth2Init_firstTime (VStr "6") e = Some e'
    /\ trace e' = trace e ++ evs
    /\ count is_write evs = 2%nat
    /\ getStoreValue "isFirstTime" e' = VBool false
    /\ Device.onOAuth2Init_firstTime (VStr "6") e' = Some e'.
Proof.
  intro e.
  destruct (firstTime_sets_external_mode_once (VStr "6") e [not_ok_response]
              (Some {| rok := Some true |}) [] eq_refl eq_refl eq_refl
              (fun _ => eq_refl))
    as (e' & evs & Hrun & Ht & _ & Hw & _ & Hst & Hagain).
  exists e', evs. repeat split; try assumption.
  - apply Hw. discriminate.
  - apply Hagain.
Defined.

Section ReverseMap.
Context {K V : Type} (eqbK : K -> K -> bool) (eqbV : V -> V -> bool).
Hypothesis eqbK_eq : forall a b, eqbK a b = true <-> a = b.
Hypothesis eqbV_eq : forall a b, eqbV a b = true <-> a = b.

Lemma obj_get_some_in (o : obj K V) k v :
  obj_get eqbK o k = Some v -> In (k, v) o.
Proof.
  induction o as [|[k' v'] o IH]; cbn [obj_get In]; [discriminate|].
  destruct (eqbK k' k) eqn:Hk.
  - apply eqbK_eq in Hk as ->. intros [= ->]. now left.
  - intro H. right. now apply IH.
Qed.

Lemma reverse_fold (km : obj K V) : forall (acc : obj V K) v,
  NoDup (map snd km) ->
  obj_get eqbV
    (fold_left (fun reverse kv => obj_set eqbV reverse (snd kv) (fst kv))
       km acc) v
  = match find (fun kv => eqbV (snd kv) v) km with
    | Some kv => Some (fst kv)
    | None => obj_get eqbV acc v
    end.
Proof.
  induction km as [|[k0 v0] km IH]; intros acc v Hnd;
    cbn [fold_left find map snd fst] in *; [reflexivity|].
  inversion Hnd as [|? ? Hnotin Hnd']; subst.
  rewrite (IH _ _ Hnd').
  destruct (eqbV v0 v) eqn:Hv.
  - apply eqbV_eq in Hv as <-.
    destruct (find _ km) as [[k1 v1]|] eqn:Hfind.
    + apply find_some in Hfind as [Hin Heq]. cbn [snd] in Heq.
      apply eqbV_eq in Heq as ->. exfalso. apply Hnotin.
      now apply (in_map snd) in Hin.
    + apply (obj_get_set_same _ eqbV_eq).
  - destruct (find _ km); [reflexivity|].
    apply (obj_get_set_other _ eqbV_eq).
    intros ->. rewrite (proj2 (eqbV_eq v v) eq_refl) in Hv. discriminate Hv.
Qed.

Lemma find_value_in (km : obj K V) k v :
  NoDup (map snd km) ->
  (exists kv, find (fun kv => eqbV (snd kv) v) km = Some kv /\ fst kv = k)
  <-> In (k, v) km.
Proof.
  intro Hnd. split.
  - intros ([k1 v1] & Hfind & <-). apply find_some in Hfind as [Hin Heq].
    cbn [snd] in Heq. now apply eqbV_eq in Heq as ->.
  - induction km as [|[k0 v0] km IH]; cbn [In find snd map] in *; [easy|].
    inversion Hnd as [|? ? Hnotin Hnd']; subst.
    intros [[= -> ->]|Hin].
    + rewrite (proj2 (eqbV_eq v v) eq_refl). now exists (k, v).
    + destruct (eqbV v0 v) eqn:Hv; [|now apply IH].
      apply eqbV_eq in Hv as ->. exfalso. apply Hnotin.
      now apply (in_map snd) in Hin.
Qed.

Lemma reverse_inverts (km : obj K V) k v :
  NoDup (obj_keys km) -> NoDup (map snd km) ->
  obj_get eqbK km k = Some v
  <-> obj_get eqbV
        (fold_left (fun reverse kv => obj_set eqbV reverse (snd kv) (fst kv))
           km []) v = Some k.
Proof.
  intros Hk Hv. rewrite (reverse_fold km [] v Hv). cbn [obj_get].
  split.
  - intro Hget. apply obj_get_some_in in Hget.
    apply (find_value_in km k v Hv) in Hget as (kv & -> & <-). reflexivity.
  - destruct (find _ km) as [kv|] eqn:Hfind; [|discriminate].
    intros [= <-]. apply (obj_get_in_NoDup _ eqbK_eq); [exact Hk|].
    apply (find_value_in km (fst kv) v Hv). now exists kv.
Qed.

End ReverseMap.

Lemma keyMap_NoDup :
  NoDup (obj_keys Device.keyMap) /\ NoDup (map snd Device.keyMap).
Proof.
  split; cbn; repeat constructor; cbn;
    intro H; repeat (destruct H as [H|H]; [discriminate H|]); exact H.
Qed.

Lemma keyMap_injective key key' id :
  obj_get String.eqb Device.keyMap key = Some id ->
  obj_get String.eqb Device.keyMap key' = Some id ->
  key = key'.
Proof.
  destruct keyMap_NoDup as [Hk Hv]. intros H1 H2.
  apply (reverse_inverts _ _ String.eqb_eq String.eqb_eq _ _ _ Hk Hv) in H1, H2.
  congruence.
Qed.

(** X13: the reverse index that onOAuth2Init builds from a map of settings to
    point ids inverts it: as long as no two settings share a point id, a
    point id is found in the index exactly when some setting maps to it, and
    the index gives that setting.  The keyMap of the driver is such a map. *)
Theorem reverseKeyMap_inverts_keyMap
    (km : obj string string)
    (Hkeys : NoDup (obj_keys km))
    (Hids : NoDup (map snd km)) :
  forall setting id,
    obj_get String.eqb km setting = Some id
    <-> obj_get String.eqb (Device.reverseKeyMap_of km) id = Some setting.
Proof.
  intros setting id. unfold Device.reverseKeyMap_of.
  apply (reverse_inverts _ _ String.eqb_eq String.eqb_eq); assumption.
Qed.

Lemma reverseKeyMap_inverts_keyMap_witness :
  NoDup (obj_keys Device.keyMap)
  /\ NoDup (map snd Device.keyMap)
  /\ obj_get String.eqb Device.reverseKeyMap "526" = Some "TankVolume"
  /\ obj_get String.eqb Device.keyMap "TankVolume" = Some "526".
Proof.
  split; [exact (proj1 keyMap_NoDup)|]. split; [exact (proj2 keyMap_NoDup)|].
  split.
  - apply (reverseKeyMap_inverts_keyMap Device.keyMap
             (proj1 keyMap_NoDup) (proj2 keyMap_NoDup)).
    reflexivity.
  - apply (reverseKeyMap_inverts_keyMap Device.keyMap
             (proj1 keyMap_NoDup) (proj2 keyMap_NoDup)).
    reflexivity.
Defined.

(** X14: on a firmware whose spot price is broken, the points that
    onOAuth2Init asks initializeInternalStates to fetch are the ids of keyMap
    other than 544 to 548, which are also the ids that onSettings still
    forwards; on a working firmware they are all the ids of keyMap. *)
Theorem statesLeft_leaves_out_price_points (id : string) :
  (In id (Device.onOAuth2Init_statesLeft true)
   <-> In id (map snd Device.keyMap) /\ ~ In id price_ids)
  /\ (In id (Device.onOAuth2Init_statesLeft true)
      <-> In id (map snd Device.keyMap)
          /\ Device.is_price_key (Some id) = false)
  /\ (In id (Device.onOAuth2Init_statesLeft false)
      <-> In id (map snd Device.keyMap)).
Proof.
  unfold Device.onOAuth2Init_statesLeft. rewrite filter_In.
  split; [|split; [|reflexivity]].
  - split.
    + intros [Hin Hf]. split; [exact Hin|]. intro Hp.
      cbn in Hp. repeat (destruct Hp as [<-|Hp]; [discriminate Hf|]).
      exact Hp.
    + intros [Hin Hp]. split; [exact Hin|].
      cbn in Hin.
      repeat (destruct Hin as [<-|Hin];
              [first [reflexivity | exfalso; apply Hp; cbn; tauto]|]).
      contradiction.
  - split.
    + intros [Hin Hf]. split; [exact Hin|].
      cbn in Hin.
      repeat (destruct Hin as [<-|Hin];
              [first [reflexivity | discriminate Hf]|]).
      contradiction.
    + intros [Hin Hp]. split; [exact Hin|].
      cbn in Hin.
      repeat (destruct Hin as [<-|Hin];
              [first [reflexivity | discriminate Hp]|]).
      contradiction.
Qed.

(** ** Settings of the current driver *)

Lemma onSettings_keyChange_sound d newSettings changedKeys id v :
  obj_get String.eqb (Device.onSettings_keyChange d newSettings changedKeys) id
  = Some v ->
  exists key,
    In key changedKeys
    /\ forwarded d (obj_get String.eqb Device.keyMap key) = true
    /\ Device.property_name (obj_get String.eqb Device.keyMap key) = id
    /\ v = sget newSettings key.
Proof.
  unfold Device.onSettings_keyChange.
  set (step := fun (keyChange : settings_obj) (key : string) => _).
  assert (Hfold : forall l acc,
             obj_get String.eqb (fold_left step l acc) id = Some v ->
             obj_get String.eqb acc id = Some v
             \/ exists key,
                  In key l
                  /\ forwarded d (obj_get String.eqb Device.keyMap key) = true
                  /\ Device.property_name
                       (obj_get String.eqb Device.keyMap key) = id
                  /\ v = sget newSettings key).
  { induction l as [|key l IH]; intros acc Hget; cbn [fold_left] in Hget;
      [now left|].
    apply IH in Hget as [Hget|(key' & Hin & H)];
      [|right; exists key'; split; [now right|exact H]].
    unfold step in Hget. fold (forwarded d (obj_get String.eqb Device.keyMap key))
      in Hget.
    destruct (forwarded d _) eqn:Hfw; [|now left].
    destruct (String.eqb
                (Device.property_name (obj_get String.eqb Device.keyMap key)) id)
      eqn:Hid.
    - apply String.eqb_eq in Hid. right. exists key.
      split; [now left|]. split; [exact Hfw|]. split; [exact Hid|].
      unfold sset in Hget. rewrite <- Hid in Hget.
      rewrite (obj_get_set_same _ String.eqb_eq) in Hget. congruence.
    - left. unfold sset in Hget.
      rewrite (obj_get_set_other _ String.eqb_eq) in Hget; [exact Hget|].
      intro E. apply String.eqb_eq in E. congruence. }
  intro Hget. apply Hfold in Hget as [Hget|H]; [discriminate Hget|exact H].
Qed.

Lemma onSettings_keyChange_complete d newSettings changedKeys key :
  In key changedKeys ->
  forwarded d (obj_get String.eqb Device.keyMap key) = true ->
  obj_get String.eqb (Device.onSettings_keyChange d newSettings changedKeys)
    (Device.property_name (obj_get String.eqb Device.keyMap key))
  <> None.
Proof.
  unfold Device.onSettings_keyChange.
  set (step := fun (keyChange : settings_obj) (key : string) => _).
  set (id := Device.property_name (obj_get String.eqb Device.keyMap key)).
  assert (Hkeep : forall l acc,
             obj_get String.eqb acc id <> None ->
             obj_get String.eqb (fold_left step l acc) id <> None).
  { induction l as [|k l IH]; intros acc Hacc; cbn [fold_left]; [exact Hacc|].
    apply IH. unfold step. destruct (negb _); [|exact Hacc].
    destruct (String.eqb
                (Device.property_name (obj_get String.eqb Device.keyMap k)) id)
      eqn:Hid.
    - apply String.eqb_eq in Hid. rewrite Hid. unfold sset.
      now rewrite (obj_get_set_same _ String.eqb_eq).
    - unfold sset. rewrite (obj_get_set_other _ String.eqb_eq); [exact Hacc|].
      intro E. apply String.eqb_eq in E. congruence. }
  intros Hin Hfw. generalize (@nil (string * jsval)).
  induction changedKeys as [|k l IH]; intro acc; [contradiction|].
  cbn [fold_left]. destruct Hin as [->|Hin]; [|now apply IH].
  apply Hkeep. unfold step. fold (forwarded d (obj_get String.eqb Device.keyMap key)).
  rewrite Hfw. fold id. unfold sset.
  now rewrite (obj_get_set_same _ String.eqb_eq).
Qed.

(** X15: when the settings change, onSettings sends one object of points,
    again until an attempt succeeds, and then marks the device available.
    With every changed key a setting of keyMap, the object holds a point id
    exactly when a changed setting of that id is forwarded (every setting on
    a working firmware, those outside 544 to 548 on a broken one), and holds
    under it the new value of that setting. *)
Theorem onSettings_forwards_changed_settings
    (newSettings : settings_obj) (changedKeys : list string)
    (d : Device.dev) (e : env) (key0 : string)
    (fails : list write_outcome) (r : option response)
    (rest : list write_outcome)
    (Hknown : forall key, In key changedKeys ->
                obj_get String.eqb Device.keyMap key <> None)
    (Hkey0 : In key0 changedKeys)
    (Hforwarded0 : forwarded d (obj_get String.eqb Device.keyMap key0) = true)
    (Hfails : forallb failed fails = true)
    (Hsuccess : needs_retry r = false)
    (Hscript : writes e = fails ++ WResolves r :: rest) :
  exists e' keyChange,
    Device.onSettings newSettings changedKeys d e = Some e'
    /\ trace e'
       = trace e ++ flat_map (failed_attempt_events keyChange) fails
         ++ [EvSetDevicePoint keyChange; EvSetAvailable]
    /\ available e' = true
    /\ forall id v,
         obj_get String.eqb keyChange id = Some v
         <-> exists key,
               In key changedKeys
               /\ obj_get String.eqb Device.keyMap key = Some id
               /\ forwarded d (Some id) = true
               /\ v = sget newSettings key.
Proof.
  unfold Device.onSettings.
  set (keyChange := Device.onSettings_keyChange d newSettings changedKeys).
  assert (Hlen : (0 <? List.length (obj_keys keyChange))%nat = true).
  { pose proof (onSettings_keyChange_complete d newSettings changedKeys key0
                  Hkey0 Hforwarded0) as Hc.
    fold keyChange in Hc. apply Nat.ltb_lt.
    destruct keyChange; [now cbn in Hc|cbn; lia]. }
  rewrite Hlen.
  destruct (setDevicePoint_retry_trace keyChange e fails r rest
              Hfails Hsuccess Hscript) as (e1 & Hrun & Ht & _).
  rewrite Hrun. exists (setAvailable e1), keyChange.
  split; [reflexivity|]. split.
  { env_simpl. now rewrite Ht, <- !app_assoc. }
  split; [reflexivity|].
  intros id v. split.
  - intro Hget.
    apply onSettings_keyChange_sound in Hget as (key & Hin & Hfw & Hid & ->).
    exists key. split; [exact Hin|].
    destruct (obj_get String.eqb Device.keyMap key) as [id'|] eqn:Hmap;
      [|now apply Hknown in Hin].
    cbn [Device.property_name] in Hid. subst id'. auto.
  - intros (key & Hin & Hmap & Hfw & ->).
    pose proof (onSettings_keyChange_complete d newSettings changedKeys key Hin)
      as Hc.
    rewrite Hmap in Hc. cbn [Device.property_name] in Hc. fold keyChange in Hc.
    specialize (Hc Hfw).
    destruct (obj_get String.eqb keyChange id) as [v|] eqn:Hget; [|easy].
    pose proof Hget as Hget'. unfold keyChange in Hget'.
    apply onSettings_keyChange_sound in Hget' as (key' & Hin' & _ & Hid' & ->).
    destruct (obj_get String.eqb Device.keyMap key') as [id'|] eqn:Hmap';
      [|now apply Hknown in Hin'].
    cbn [Device.property_name] in Hid'. subst id'.
    now rewrite (keyMap_injective _ _ _ Hmap Hmap').
Qed.

Lemma onSettings_forwards_changed_settings_witness :
  let d := Device.onOAuth2Init_state (of_Z 0) true in
  let newSettings :=
    [("max_water_flow", VNum (of_Z 12)); ("num_cheap_hours", VNum (of_Z 4))] in
  let e := env0 [WThrows; ok_response] [] in
  exists e' keyChange,
    Device.onSettings newSettings ["max_water_flow"; "num_cheap_hours"] d e
    = Some e'
    /\ trace e'
       = [EvSetDevicePoint keyChange; EvSetUnavailable; EvSleep 10000;
          EvSetDevicePoint keyChange; EvSetAvailable]
    /\ obj_get String.eqb keyChange "512" = Some (VNum (of_Z 12))
    /\ obj_get String.eqb keyChange "547" = None.
Proof.
  intros d newSettings e.
  destruct (onSettings_forwards_changed_settings newSettings
              ["max_water_flow"; "num_cheap_hours"] d e "max_water_flow"
              [WThrows] (Some {| rok := Some true |}) [])
    as (e' & keyChange & Hrun & Ht & _ & Hpoints).
  - intros key [<-|[<-|[]]]; discriminate.
  - now left.
  - reflexivity.
  - reflexivity.
  - reflexivity.
  - reflexivity.
  - exists e', keyChange. split; [exact Hrun|]. split; [exact Ht|]. split.
    + apply Hpoints. exists "max_water_flow". cbn. auto.
    + destruct (obj_get String.eqb keyChange "547") as [v|] eqn:Hget;
        [|reflexivity].
      apply Hpoints in Hget as (key & Hin & Hmap & Hfw & _).
      discriminate Hfw.
Defined.

(** X16: when no changed setting is forwarded (there is no changed key, or
    the firmware is broken and all of them are price settings), onSettings
    makes no call at all: nothing is written and the device state is left as
    it is. *)
Theorem onSettings_nothing_to_forward
    (newSettings : settings_obj) (changedKeys : list string)
    (d : Device.dev) (e : env)
    (Hnone : forall key, In key changedKeys ->
               forwarded d (obj_get String.eqb Device.keyMap key) = false) :
  Device.onSettings newSettings changedKeys d e = Some e.
Proof.
  unfold Device.onSettings.
  destruct (Device.onSettings_keyChange d newSettings changedKeys)
    as [|[id v] kc] eqn:Hkc; [reflexivity|].
  assert (Hget : obj_get String.eqb
                   (Device.onSettings_keyChange d newSettings changedKeys) id
                 = Some v).
  { rewrite Hkc. cbn [obj_get]. now rewrite String.eqb_refl. }
  apply onSettings_keyChange_sound in Hget as (key & Hin & Hfw & _).
  rewrite (Hnone _ Hin) in Hfw. discriminate Hfw.
Qed.

Lemma onSettings_nothing_to_forward_witness :
  let d := Device.onOAuth2Init_state (of_Z 0) true in
  let e := env0 [WThrows] [] in
  Device.onSettings [("num_cheap_hours", VNum (of_Z 4))] ["num_cheap_hours"]
    d e = Some e
  /\ Device.onSettings [] [] d e = Some e.
Proof.
  intros d e. split.
  - apply onSettings_nothing_to_forward.
    intros key [<-|[]]. reflexivity.
  - apply onSettings_nothing_to_forward. intros key [].
Defined.

(** X17: a changed key that is no setting of keyMap has no point id, and
    onSettings sends its value all the same, under the property name
    'undefined': the object written holds 'undefined' with the new value of
    a changed key that keyMap does not know. *)
Theorem onSettings_unknown_key_sent_as_undefined
    (newSettings : settings_obj) (changedKeys : list string)
    (d : Device.dev) (e : env) (key : string)
    (fails : list write_outcome) (r : option response)
    (rest : list write_outcome)
    (Hkey : In key changedKeys)
    (Hunknown : obj_get String.eqb Device.keyMap key = None)
    (Hfails : forallb failed fails = true)
    (Hsuccess : needs_retry r = false)
    (Hscript : writes e = fails ++ WResolves r :: rest) :
  exists e' evs keyChange key',
    Device.onSettings newSettings changedKeys d e = Some e'
    /\ trace e' = trace e ++ evs
    /\ In (EvSetDevicePoint keyChange) evs
    /\ In key' changedKeys
    /\ obj_get String.eqb Device.keyMap key' = None
    /\ obj_get String.eqb keyChange "undefined" = Some (sget newSettings key').
Proof.
  unfold Device.onSettings.
  set (keyChange := Device.onSettings_keyChange d newSettings changedKeys).
  assert (Hfw : forwarded d (obj_get String.eqb Device.keyMap key) = true).
  { rewrite Hunknown. unfold forwarded. now rewrite andb_false_r. }
  pose proof (onSettings_keyChange_complete d newSettings changedKeys key
                Hkey Hfw) as Hc.
  rewrite Hunknown in Hc. cbn [Device.property_name] in Hc. fold keyChange in Hc.
  assert (Hlen : (0 <? List.length (obj_keys keyChange))%nat = true).
  { apply Nat.ltb_lt. destruct keyChange; [now cbn in Hc|cbn; lia]. }
  rewrite Hlen.
  destruct (setDevicePoint_retry_trace keyChange e fails r rest
              Hfails Hsuccess Hscript) as (e1 & Hrun & Ht & _).
  rewrite Hrun.
  destruct (obj_get String.eqb keyChange "undefined") as [v|] eqn:Hget; [|easy].
  pose proof Hget as Hget'. unfold keyChange in Hget'.
  apply onSettings_keyChange_sound in Hget' as (key' & Hin' & _ & Hid' & ->).
  exists (setAvailable e1),
    (flat_map (failed_attempt_events keyChange) fails
     ++ [EvSetDevicePoint keyChange; EvSetAvailable]),
    keyChange, key'.
  split; [reflexivity|]. split.
  { env_simpl. now rewrite Ht, <- !app_assoc. }
  split.
  { apply in_or_app. right. now left. }
  split; [exact Hin'|]. split; [|exact Hget].
  destruct (obj_get String.eqb Device.keyMap key') as [id'|] eqn:Hmap';
    [|reflexivity].
  cbn [Device.property_name] in Hid'. subst id'.
  apply (obj_get_some_in _ String.eqb_eq) in Hmap'.
  cbn in Hmap'.
  repeat (destruct Hmap' as [Hmap'|Hmap']; [discriminate Hmap'|]).
  contradiction.
Qed.

Lemma onSettings_unknown_key_sent_as_undefined_witness :
  let d := Device.onOAuth2Init_state (of_Z 0) false in
  let e := env0 [ok_response] [] in
  exists e',
    Device.onSettings [("LeakageConstant", VStr "2")] ["LeakageConstant"] d e
    = Some e'
    /\ trace e'
       = [EvSetDevicePoint [("undefined", VStr "2")]; EvSetAvailable].
Proof.
  intros d e.
  destruct (onSettings_unknown_key_sent_as_undefined
              [("LeakageConstant", VStr "2")] ["LeakageConstant"] d e
              "LeakageConstant" [] (Some {| rok := Some true |}) []
              (or_introl eq_refl) eq_refl eq_refl eq_refl eq_refl)
    as (e' & evs & keyChange & key' & Hrun & _).
  exists e'. split; [exact Hrun|].
  vm_compute in Hrun. now injection Hrun as <-.
Defined.

(** X18: what toSettings hands to setSettings.  The six typed settings are
    strings whatever was fetched, a setting that was not fetched becoming the
    string 'undefined'; on a broken firmware the controlling device is never
    '6'; the four identity settings are those of the device data, whatever
    was fetched under their names; every other setting is handed over as it
    was fetched. *)
Theorem toSettings_hands_over_strings
    (num_to_string : num -> string) (newSettings : settings_obj)
    (d : Device.dev) (e : env) :
  exists s,
    trace (Device.toSettings num_to_string newSettings d e)
    = trace e ++ [EvSetSettings s]
    /\ (forall k, In k typed_settings ->
          exists text, sget s k = VStr text
            /\ (obj_get String.eqb newSettings k = None -> text = "undefined")
            /\ (k <> "controling_device" ->
                text = Device.String_ num_to_string (sget newSettings k)))
    /\ (Device.brokenSpotPrice d = true ->
        sget s "controling_device" <> VStr "6")
    /\ (Device.brokenSpotPrice d = false ->
        sget s "controling_device"
        = VStr (Device.String_ num_to_string
                  (sget newSettings "controling_device")))
    /\ (forall k, In k identity_settings ->
          sget s k = VStr (Device.String_ num_to_string (sget (Device.data d) k)))
    /\ (forall k,
          ~ In k (typed_settings ++ identity_settings ++ ["LeakageConstant"]) ->
          sget s k = sget newSettings k).
Proof.
  unfold Device.toSettings, Device.setSettings. env_simpl.
  eexists. split; [reflexivity|].
  unfold Device.stringify.
  assert (Hundef : forall k, obj_get String.eqb newSettings k = None ->
                     Device.String_ num_to_string (sget newSettings k)
                     = "undefined").
  { intros k Hk. unfold sget. now rewrite Hk. }
  destruct (Device.brokenSpotPrice d && _) eqn:Hb;
    repeat first [ rewrite sget_sset_same in Hb
                 | rewrite sget_sset_other in Hb by discriminate ].
  - apply andb_true_iff in Hb as [Hbroken H6]. apply String.eqb_eq in H6.
    split; [|split; [|split; [|split]]].
    + intros k Hk. cbn in Hk.
      destruct Hk as [<-|[<-|[<-|[<-|[<-|[<-|[]]]]]]];
        repeat first [ rewrite sget_sset_same
                     | rewrite sget_sset_other by discriminate ];
        (eexists; split; [reflexivity|]; split;
         [ first [ apply Hundef
                 | intro Hnone; rewrite (Hundef _ Hnone) in H6;
                   discriminate H6 ]
         | first [ reflexivity | intro Hne; now contradiction Hne ] ]).
    + intros _.
      repeat first [ rewrite sget_sset_same
                   | rewrite sget_sset_other by discriminate ].
      discriminate.
    + intro Hf. rewrite Hf in Hbroken. discriminate Hbroken.
    + intros k Hk. cbn in Hk.
      destruct Hk as [<-|[<-|[<-|[<-|[]]]]];
        repeat first [ rewrite sget_sset_same
                     | rewrite sget_sset_other by discriminate ];
        reflexivity.
    + intros k Hk.
      assert (Hne : forall k', In k' (typed_settings ++ identity_settings
                                      ++ ["LeakageConstant"]) -> k' <> k).
      { intros k' Hin ->. contradiction. }
      repeat (rewrite sget_sset_other; [|apply Hne; cbn; tauto]).
      reflexivity.
  - split; [|split; [|split; [|split]]].
    + intros k Hk. cbn in Hk.
      destruct Hk as [<-|[<-|[<-|[<-|[<-|[<-|[]]]]]]];
        repeat first [ rewrite sget_sset_same
                     | rewrite sget_sset_other by discriminate ];
        (eexists; split; [reflexivity|]; split;
         [apply Hundef|reflexivity]).
    + intro Hbroken. rewrite Hbroken in Hb. cbn [andb] in Hb.
      repeat first [ rewrite sget_sset_same
                   | rewrite sget_sset_other by discriminate ].
      intros [= E]. rewrite E in Hb. discriminate Hb.
    + intros _.
      repeat first [ rewrite sget_sset_same
                   | rewrite sget_sset_other by discriminate ].
      reflexivity.
    + intros k Hk. cbn in Hk.
      destruct Hk as [<-|[<-|[<-|[<-|[]]]]];
        repeat first [ rewrite sget_sset_same
                     | rewrite sget_sset_other by discriminate ];
        reflexivity.
    + intros k Hk.
      assert (Hne : forall k', In k' (typed_settings ++ identity_settings
                                      ++ ["LeakageConstant"]) -> k' <> k).
      { intros k' Hin ->. contradiction. }
      repeat (rewrite sget_sset_other; [|apply Hne; cbn; tauto]).
      reflexivity.
Qed.

(** ** The telemetry poll of the current driver *)

(** The loop from its first [await] on, on a script that fails, then
    succeeds. *)
Lemma setDevicePoint_await_succeeds points e fails r rest :
  forallb failed fails = true ->
  needs_retry r = false ->
  writes e = fails ++ WResolves r :: rest ->
  exists e1 evs,
    setDevicePoint_await points e = Some (r, e1)
    /\ trace e1 = trace e ++ evs
    /\ count is_trigger evs = 0%nat
    /\ count is_write evs = List.length fails
    /\ count is_any_capability evs = 0%nat
    /\ writes e1 = rest.
Proof.
  intros Hf Hr Hw. unfold setDevicePoint_await. rewrite Hw.
  destruct fails as [|o fails]; cbn [app].
  - exists (set_writes rest e), [].
    split; [destruct rest; cbn [setDevicePoint_loop]; now rewrite Hr|].
    rewrite app_nil_r. repeat split.
  - cbn [forallb] in Hf. apply andb_true_iff in Hf as [Ho Hf].
    destruct o as [|r0]; cbn [failed] in Ho.
    + rewrite (setDevicePoint_loop_succeeds points r rest fails None _ Hf
                 eq_refl Hr).
      eexists _, _. split; [reflexivity|]. env_simpl.
      rewrite fold_failed_trace. env_simpl. rewrite <- !app_assoc.
      split; [reflexivity|]. cbn [app].
      rewrite !count_cons, !count_app, count_trigger_failed,
        count_writes_failed.
      rewrite (count_none_failed is_any_capability) by now intros [|?].
      cbn. repeat split. lia.
    + rewrite (setDevicePoint_loop_succeeds points r rest fails r0 _ Hf Ho Hr).
      eexists _, _. split; [reflexivity|]. env_simpl.
      rewrite fold_failed_trace, <- !app_assoc.
      split; [reflexivity|].
      rewrite !count_app, count_trigger_failed, count_writes_failed.
      rewrite (count_none_failed is_any_capability) by now intros [|?].
      cbn. repeat split. lia.
Qed.

(** A pending call of setHeaterState resumed on a script in which a write is
    acknowledged: it sends the trigger exactly when its level differs from
    the level cached when it resumes. *)
Lemma Device_setHeaterState_resume_succeeds turnOn newPower d e fails r rest :
  forallb failed fails = true ->
  needs_retry r = false ->
  writes e = fails ++ WResolves r :: rest ->
  exists e' evs,
    Device.setHeaterState_resume turnOn newPower d e
    = Some (Device.set_heater turnOn newPower d, e')
    /\ trace e' = trace e ++ evs
    /\ count is_trigger evs
       = (if num_eqb newPower (Device.max_power d) then 0 else 1)%nat
    /\ count is_write evs = List.length fails
    /\ available e' = true
    /\ writes e' = rest.
Proof.
  intros Hf Hr Hw. unfold Device.setHeaterState_resume.
  destruct (setDevicePoint_await_succeeds
              [("517", VNum (if turnOn then newPower else of_Z 0))] e fails r
              rest Hf Hr Hw)
    as (e1 & evs & -> & Ht & Hc & Hwr & _ & Hrest).
  unfold Device.setHeaterState_acknowledged.
  exists (snd (Device.setHeaterState_acknowledged turnOn newPower d e1)),
    (evs ++ acknowledged d turnOn newPower).
  unfold Device.setHeaterState_acknowledged, acknowledged, newPowerText,
    newPowerWatt.
  destruct (num_eqb newPower (Device.max_power d)); cbn [snd]; env_simpl;
    rewrite Ht, ?count_app, Hc, Hwr, <- ?app_assoc; cbn [app];
    repeat split; try assumption; cbn; lia.
Qed.

(** What the [for] loop of a tick does to the cached state of the heater and
    to the calls left pending: the values read for parameter 517 are applied
    in their order. *)
Lemma Device_updateState_points_reapplied pts : forall st,
  let st' := Device.updateState_points pts st in
  (Device.is_on (Device.pdev st'), Device.max_power (Device.pdev st'),
   Device.pending st')
  = reapplied (values_517 pts)
      (Device.is_on (Device.pdev st), Device.max_power (Device.pdev st),
       Device.pending st).
Proof.
  induction pts as [|p pts IH]; intro st; [reflexivity|].
  change (Device.updateState_points (p :: pts) st)
    with (Device.updateState_points pts (Device.updateState_point p st)).
  cbv zeta. rewrite IH. clear IH.
  unfold values_517, reapplied. cbn [flat_map]. rewrite fold_left_app.
  f_equal. unfold Device.updateState_point.
  destruct (parameterId p) as [id|]; [destruct (value p) as [v|]|];
    try reflexivity.
  repeat match goal with
         | |- context [(id =? ?k)%Z] =>
             destruct (Z.eqb_spec id k) as [->|?]; cbn [Z.eqb Pos.eqb]
         end;
    try reflexivity.
  cbn [fold_left Device.pdev Device.pending].
  now destruct (num_eqb (ToNumber v) (of_Z 0)).
Qed.

(** X19: a poll tick writes back to the device nothing but what it has just
    read.  Once its read is answered, the tick issues, in their order, one
    write of point 517 per device point of the answer that holds parameter
    517 with a value, each with the number that the value read converts to (0
    for a value that converts to 0); it sends no max-power-changed trigger
    itself and does not wait for the answers.  The values read are copied to
    the cached state in their order (0 switches the cached state off and
    keeps the level) and each leaves a call of setHeaterState pending; an
    answer with no such point leaves the cached state as it was and no call
    pending.  When the answer holds exactly one such point, the pending call,
    resumed right after the tick on a script in which a write is
    acknowledged, sends the trigger exactly when the level it carries is NaN:
    the cache was set to that level before the comparison. *)
Theorem poll_echoes_requested_power
    (now : num) (d : Device.dev) (e e0 : env) (pts : list point)
    (Hread : getDevicePoints_loop poll_ids (reads e) None e = Some (pts, e0)) :
  exists d' e' calls evs,
    Device.updateState now d e = Some (d', e', calls)
    /\ trace e' = trace e ++ evs
    /\ filter is_write evs
       = map (fun v => EvSetDevicePoint (echo v)) (values_517 pts)
    /\ count is_trigger evs = 0%nat
    /\ writes e' = writes e
    /\ (Device.is_on d', Device.max_power d', calls)
       = reapplied (values_517 pts) (Device.is_on d, Device.max_power d, [])
    /\ (values_517 pts = [] ->
        calls = [] /\ Device.is_on d' = Device.is_on d
        /\ Device.max_power d' = Device.max_power d)
    /\ (forall v fails r rest,
          values_517 pts = [v] ->
          forallb failed fails = true ->
          needs_retry r = false ->
          writes e = fails ++ WResolves r :: rest ->
          exists turnOn newPower d'' e'' evs',
            calls = [(turnOn, newPower)]
            /\ turnOn = negb (num_eqb (ToNumber v) (of_Z 0))
            /\ newPower = (if turnOn then ToNumber v else Device.max_power d)
            /\ Device.setHeaterState_resume turnOn newPower d' e'
               = Some (d'', e'')
            /\ trace e'' = trace e' ++ evs'
            /\ count is_trigger evs' = (if isNaN newPower then 1 else 0)%nat
            /\ Device.is_on d'' = turnOn
            /\ Device.max_power d'' = newPower).
Proof.
  destruct (Device_updateState_tick now d e e0 pts Hread)
    as (d' & e' & calls & evs & Hrun & Ht & Hf & Hc & _ & Hw & _).
  exists d', e', calls, evs.
  split; [exact Hrun|]. split; [exact Ht|]. split; [exact Hf|].
  split; [exact Hc|]. split; [exact Hw|].
  assert (Hcache : (Device.is_on d', Device.max_power d', calls)
                   = reapplied (values_517 pts)
                       (Device.is_on d, Device.max_power d, [])).
  { unfold Device.updateState in Hrun. unfold poll_ids in Hread.
    rewrite Hread in Hrun.
    match type of Hrun with
    | context [Device.updateState_points pts ?st0] =>
        pose proof (Device_updateState_points_reapplied pts st0) as Hpts;
        set (st := Device.updateState_points pts st0) in *
    end.
    cbn [Device.pdev Device.pending] in Hpts. rewrite <- Hpts.
    destruct (is_undefined (Device.logTotal st)
              || is_undefined (Device.logTemp st)
              || is_undefined (Device.logStored st)).
    - now injection Hrun as <- _ <-.
    - destruct (Device.logLeakage _ _ _ _ _ _ _) as [[cl dl] el] eqn:Hlog.
      apply Device_logLeakage_quiet in Hlog as (Hon & Hmp & _).
      injection Hrun as <- _ <-. now rewrite Hon, Hmp. }
  split; [exact Hcache|]. split.
  - intro Hnone. rewrite Hnone in Hcache. cbn in Hcache.
    injection Hcache as -> -> ->. auto.
  - intros v fails r rest Hone Hfails Hr Hscript.
    rewrite Hone in Hcache. cbn in Hcache.
    set (turnOn := negb (num_eqb (ToNumber v) (of_Z 0))).
    set (newPower := if turnOn then ToNumber v else Device.max_power d).
    assert (Hd' : Device.is_on d' = turnOn /\ Device.max_power d' = newPower
                  /\ calls = [(turnOn, newPower)]).
    { subst turnOn newPower.
      destruct (num_eqb (ToNumber v) (of_Z 0)); cbn [negb] in *;
        injection Hcache as -> -> ->; auto. }
    destruct Hd' as (Hon & Hmp & Hcalls).
    rewrite <- Hw in Hscript.
    destruct (Device_setHeaterState_resume_succeeds turnOn newPower d' e'
                fails r rest Hfails Hr Hscript)
      as (e'' & evs' & Hres & Ht' & Hc' & _).
    exists turnOn, newPower, (Device.set_heater turnOn newPower d'), e'', evs'.
    repeat split; try assumption.
    rewrite Hc', Hmp.
    destruct (isNaN newPower) eqn:Hnan; [now destruct newPower|].
    now rewrite num_eqb_refl.
Qed.

(** A tick that reads level 1 while level 3 is cached: point 517 is written
    with 1, and the call resumed afterwards sends no trigger. *)
Lemma poll_echoes_requested_power_witness :
  let d := Device.onOAuth2Init_state (of_Z 0) false in
  let pts := [requested_power 1] in
  let e := env0 [ok_response] [RThrows; RResolves (Some pts)] in
  exists d' e' calls evs,
    Device.updateState (of_Z 1000) d e = Some (d', e', calls)
    /\ trace e' = trace e ++ evs
    /\ filter is_write evs = [EvSetDevicePoint [("517", VNum (of_Z 1))]]
    /\ count is_trigger evs = 0%nat
    /\ Device.max_power d = of_Z 3
    /\ Device.max_power d' = of_Z 1
    /\ calls = [(true, of_Z 1)]
    /\ exists d'' e'' evs',
         Device.setHeaterState_resume true (of_Z 1) d' e' = Some (d'', e'')
         /\ trace e'' = trace e' ++ evs'
         /\ count is_trigger evs' = 0%nat.
Proof.
  intros d pts e.
  destruct (poll_echoes_requested_power (of_Z 1000) d e
              (set_reads []
                 (emit (EvGetDevicePoints poll_ids)
                    (sleep retryOnErrorWaitTime
                       (setUnavailable
                          (emit (EvGetDevicePoints poll_ids) e)))))
              pts eq_refl)
    as (d' & e' & calls & evs & Hrun & Ht & Hf & Hc & _ & Hcache & _ & Hone).
  exists d', e', calls, evs.
  split; [exact Hrun|]. split; [exact Ht|]. split; [exact Hf|].
  split; [exact Hc|]. split; [reflexivity|].
  destruct (Hone (VNum (of_Z 1)) [] (Some {| rok := Some true |}) []
              eq_refl eq_refl eq_refl eq_refl)
    as (turnOn & newPower & d'' & e'' & evs' & Hcalls & -> & -> & Hres & Ht'
        & Hc' & _).
  cbn in Hcache. injection Hcache as _ Hmp _.
  split; [exact Hmp|]. split; [exact Hcalls|].
  exists d'', e'', evs'. auto.
Defined.

Lemma Device_updateState_point_logs p st :
  let st' := Device.updateState_point p st in
  leak_model (Device.pdev st') = leak_model (Device.pdev st)
  /\ (Device.logStored st' = Device.logStored st \/ reports 302 p = true)
  /\ (Device.logTotal st' = Device.logTotal st \/ reports 303 p = true)
  /\ (Device.logTemp st' = Device.logTemp st \/ reports 528 p = true).
Proof.
  unfold Device.updateState_point, reports.
  destruct (parameterId p) as [id|]; [destruct (value p) as [v|]|];
    try (cbv zeta; auto).
  repeat match goal with
         | |- context [(id =? ?k)%Z] =>
             destruct (Z.eqb_spec id k) as [->|?]; cbn [Z.eqb Pos.eqb]
         end;
    cbn [Device.pdev Device.logStored Device.logTotal Device.logTemp];
    auto.
  split; [|auto]. now destruct (num_eqb (ToNumber v) (of_Z 0)).
Qed.

Lemma Device_updateState_points_logs pts : forall st,
  let st' := Device.updateState_points pts st in
  leak_model (Device.pdev st') = leak_model (Device.pdev st)
  /\ (Device.logStored st' = Device.logStored st
      \/ exists p, In p pts /\ reports 302 p = true)
  /\ (Device.logTotal st' = Device.logTotal st
      \/ exists p, In p pts /\ reports 303 p = true)
  /\ (Device.logTemp st' = Device.logTemp st
      \/ exists p, In p pts /\ reports 528 p = true).
Proof.
  induction pts as [|p pts IH]; intro st; [cbn; auto|].
  change (Device.updateState_points (p :: pts) st)
    with (Device.updateState_points pts (Device.updateState_point p st)).
  destruct (Device_updateState_point_logs p st) as (Hm & H1 & H2 & H3).
  destruct (IH (Device.updateState_point p st)) as (Hm' & H1' & H2' & H3').
  cbv zeta.
  split; [congruence|].
  split; [|split].
  + destruct H1' as [E|(q & Hin & Hq)];
      [|right; exists q; split; [now right|exact Hq]].
    destruct H1 as [E1|Hq]; [left; congruence|].
    right. exists p. split; [now left|exact Hq].
  + destruct H2' as [E|(q & Hin & Hq)];
      [|right; exists q; split; [now right|exact Hq]].
    destruct H2 as [E1|Hq]; [left; congruence|].
    right. exists p. split; [now left|exact Hq].
  + destruct H3' as [E|(q & Hin & Hq)];
      [|right; exists q; split; [now right|exact Hq]].
    destruct H3 as [E1|Hq]; [left; congruence|].
    right. exists p. split; [now left|exact Hq].
Qed.

(** X20: a poll whose answer lacks one of the stored energy (302), the total
    energy (303) and the measured temperature (528), with a value, does not
    call logLeakage: the accumulated leakage, the instants and the values
    kept for the leak relation, and the leakage constant are those of before
    the tick.  The device is available after the tick all the same. *)
Theorem poll_incomplete_answer_skips_leakage
    (now : num) (d d' : Device.dev) (e e0 e' : env) (pts : list point)
    (calls : list (bool * num)) (missing : Z)
    (Hread : getDevicePoints_loop poll_ids (reads e) None e = Some (pts, e0))
    (Hrun : Device.updateState now d e = Some (d', e', calls))
    (Hid : In missing [302%Z; 303%Z; 528%Z])
    (Hmissing : forall pt, In pt pts -> reports missing pt = false) :
  leak_model d' = leak_model d
  /\ available e' = true.
Proof.
  unfold Device.updateState in Hrun. unfold poll_ids in Hread.
  rewrite Hread in Hrun.
  match type of Hrun with
  | context [Device.updateState_points pts ?st0] =>
      destruct (Device_updateState_points_logs pts st0) as (Hm & H1 & H2 & H3);
      set (st := Device.updateState_points pts st0) in *
  end.
  cbn [Device.pdev Device.logStored Device.logTotal Device.logTemp]
    in Hm, H1, H2, H3.
  assert (Hnone : is_undefined (Device.logTotal st)
                  || is_undefined (Device.logTemp st)
                  || is_undefined (Device.logStored st) = true).
  { destruct Hid as [<-|[<-|[<-|[]]]].
    - destruct H1 as [E|(q & Hin & Hq)];
        [rewrite E; apply orb_true_r|].
      rewrite (Hmissing q Hin) in Hq. discriminate Hq.
    - destruct H2 as [E|(q & Hin & Hq)]; [now rewrite E|].
      rewrite (Hmissing q Hin) in Hq. discriminate Hq.
    - destruct H3 as [E|(q & Hin & Hq)];
        [rewrite E; cbn [is_undefined]; now rewrite orb_true_r|].
      rewrite (Hmissing q Hin) in Hq. discriminate Hq. }
  rewrite Hnone in Hrun. injection Hrun as <- <- _.
  split; [exact Hm|reflexivity].
Qed.

Lemma poll_incomplete_answer_skips_leakage_witness :
  let d := Device.onOAuth2Init_state (of_Z 0) false in
  let pts := [ {| parameterId := Some 302%Z; value := Some (VNum (of_Z 9)) |};
               {| parameterId := Some 303%Z;
                  value := Some (VNum (of_Z 120)) |};
               {| parameterId := Some 528%Z; value := None |} ] in
  let e := env0 [] [RResolves (Some pts)] in
  exists d' e' calls,
    Device.updateState (of_Z 3600000) d e = Some (d', e', calls)
    /\ leak_model d' = leak_model d
    /\ available e' = true.
Proof.
  intros d pts e.
  destruct (Device.updateState (of_Z 3600000) d e) as [[[d' e'] calls]|]
    eqn:Hrun; [|vm_compute in Hrun; discriminate Hrun].
  destruct (poll_incomplete_answer_skips_leakage (of_Z 3600000) d d' e
              (set_reads [] (emit (EvGetDevicePoints poll_ids) e))
              e' pts calls 528%Z eq_refl Hrun)
    as (Hm & Hav).
  - cbn. auto.
  - intros pt [<-|[<-|[<-|[]]]]; reflexivity.
  - exists d', e', calls. auto.
Defined.

(** ** Leakage bookkeeping of the current driver *)

Lemma Device_logLeakage_relation_cases totalUsage temperature inTank now d e c
    d' e' :
  Device.logLeakage totalUsage temperature inTank VUndefined now d e
  = (c, d', e') ->
  exists evs,
    trace e' = trace e ++ evs
    /\ (publishes_relation evs ->
        time_truthy (Device.prevRelationTime d) = true
        /\ num_gtb (now - time_number (Device.prevRelationTime d))
             Device.day_ms = true
        /\ Device.prevRelationTime d' = TDate now
        /\ Device.prevRelationUse d' = totalUsage
        /\ Device.prevRelationLeak d' = Device.accumulatedLeakage d')
    /\ (time_truthy (Device.prevRelationTime d) = true ->
        num_gtb (now - time_number (Device.prevRelationTime d))
          Device.day_ms = false ->
        Device.prevRelationTime d' = Device.prevRelationTime d
        /\ Device.prevRelationUse d' = Device.prevRelationUse d
        /\ Device.prevRelationLeak d' = Device.prevRelationLeak d).
Proof.
  unfold Device.logLeakage, publishes_relation.
  cbn [ToNumber isNaN time_number].
  destruct (isNaN (ToNumber totalUsage) || isNaN (ToNumber temperature)
            || isNaN (ToNumber inTank)).
  { intros [= <- <- <-]. exists []. split; [now rewrite app_nil_r|].
    split; [intros [v []]|auto]. }
  match goal with
  | |- context [if negb ?b then _ else _] => destruct b
  end; cbn [negb].
  - destruct (time_truthy (Device.prevRelationTime d)) eqn:Hprev;
      cbn [negb];
      [destruct (num_gtb _ Device.day_ms) eqn:Hday|];
      intros [= <- <- <-]; env_simpl.
    + eexists. split; [reflexivity|]. split.
      * intros _. repeat split.
      * intros _ Hle. congruence.
    + exists []. split; [now rewrite app_nil_r|].
      split; [intros [v []]|]. auto.
    + exists []. split; [now rewrite app_nil_r|].
      split; [intros [v []]|]. intro H. discriminate H.
  - match goal with
    | |- context [if num_gtb ?a ?b then (_, setStoreValue _ _ _) else _] =>
        destruct (num_gtb a b)
    end;
      cbn [Device.prevRelationTime Device.set_accum];
      (destruct (time_truthy (Device.prevRelationTime d)) eqn:Hprev;
       cbn [negb];
       [destruct (num_gtb _ Device.day_ms) eqn:Hday|]);
      intros [= <- <- <-]; unfold setStoreValue; env_simpl;
      rewrite <- ?app_assoc;
      (eexists; split; [reflexivity|]);
      (split;
       [ intros [v Hin]; cbn [In app] in Hin;
         first [ solve [repeat split]
               | exfalso;
                 repeat (destruct Hin as [Hin|Hin]; [discriminate Hin|]);
                 exact Hin ]
       | intros Hset Hle;
         first [ discriminate Hset
               | congruence
               | cbn [Device.prevRelationTime Device.prevRelationUse
                      Device.prevRelationLeak Device.set_accum];
                 auto ] ]).
Qed.

(** X22: the leak relation is published at most once a day.  When logLeakage,
    called as the poll calls it, has published a leak relation at an instant
    t1, it has restarted the period from that instant, its total usage and
    its accumulated leakage; a later call at t2 publishes a relation only if
    more than 24 hours lie between the two, and otherwise leaves the period
    as it is. *)
Theorem leak_relation_published_daily
    (u1 T1 i1 u2 T2 i2 : jsval) (t1 t2 : num) (d : Device.dev) (e : env)
    (evs1 evs2 : list event) :
  let '(d1, e1) := logged u1 T1 i1 t1 d e in
  let '(d2, e2) := logged u2 T2 i2 t2 d1 e1 in
  trace e1 = trace e ++ evs1 ->
  trace e2 = trace e1 ++ evs2 ->
  publishes_relation evs1 ->
  (Device.prevRelationTime d1 = TDate t1
   /\ Device.prevRelationUse d1 = u1
   /\ Device.prevRelationLeak d1 = Device.accumulatedLeakage d1)
  /\ (publishes_relation evs2 ->
      num_gtb (t2 - t1) (of_Z 86400000) = true)
  /\ (num_gtb (t2 - t1) (of_Z 86400000) = false ->
      ~ publishes_relation evs2
      /\ Device.prevRelationTime d2 = TDate t1
      /\ Device.prevRelationUse d2 = u1
      /\ Device.prevRelationLeak d2 = Device.accumulatedLeakage d1).
Proof.
  unfold logged.
  destruct (Device.logLeakage u1 T1 i1 VUndefined t1 d e)
    as [[c1 d1] e1] eqn:Hrun1.
  destruct (Device.logLeakage u2 T2 i2 VUndefined t2 d1 e1)
    as [[c2 d2] e2] eqn:Hrun2.
  intros Ht1 Ht2 Hpub1.
  apply Device_logLeakage_relation_cases in Hrun1 as (evs1' & Ht1' & Hc1 & _).
  apply Device_logLeakage_relation_cases in Hrun2 as (evs2' & Ht2' & Hc2 & Hk2).
  rewrite Ht1 in Ht1'. apply app_inv_head in Ht1'. subst evs1'.
  rewrite Ht2 in Ht2'. apply app_inv_head in Ht2'. subst evs2'.
  destruct (Hc1 Hpub1) as (_ & _ & Hprev1 & Huse1 & Hleak1).
  rewrite Hprev1 in Hc2, Hk2. cbn [time_truthy time_number] in Hc2, Hk2.
  split; [auto|].
  assert (Hday : publishes_relation evs2 ->
                 num_gtb (t2 - t1) (of_Z 86400000) = true).
  { intro Hpub2. now destruct (Hc2 Hpub2) as (_ & Hgt & _). }
  split; [exact Hday|].
  intro Hle. split.
  - intro Hpub2. rewrite (Hday Hpub2) in Hle. discriminate Hle.
  - destruct (Hk2 eq_refl Hle) as (Ha & Hb & Hc). repeat split; congruence.
Qed.

Lemma leak_relation_published_daily_witness :
  let d0 := Device.onOAuth2Init_state (of_Z 0) false in
  let '(d, e) := logged (VNum (of_Z 10)) (VNum (of_Z 64)) (VNum (of_Z 8))
                   (of_Z 1000) d0 (env0 [] []) in
  let '(d1, e1) := logged (VNum (of_Z 20)) (VNum (of_Z 64)) (VNum (of_Z 8))
                     (of_Z 90000000) d e in
  let '(d2, e2) := logged (VNum (of_Z 21)) (VNum (of_Z 64)) (VNum (of_Z 8))
                     (of_Z 93600000) d1 e1 in
  exists evs1 evs2,
    trace e1 = trace e ++ evs1
    /\ trace e2 = trace e1 ++ evs2
    /\ publishes_relation evs1
    /\ ~ publishes_relation evs2
    /\ Device.prevRelationTime d2 = TDate (of_Z 90000000).
Proof.
  intro d0.
  destruct (logged (VNum (of_Z 10)) (VNum (of_Z 64)) (VNum (of_Z 8))
              (of_Z 1000) d0 (env0 [] []))
    as [d e] eqn:H0.
  pose proof (leak_relation_published_daily (VNum (of_Z 20)) (VNum (of_Z 64))
                (VNum (of_Z 8)) (VNum (of_Z 21)) (VNum (of_Z 64))
                (VNum (of_Z 8)) (of_Z 90000000) (of_Z 93600000) d e) as H.
  destruct (logged (VNum (of_Z 20)) (VNum (of_Z 64)) (VNum (of_Z 8))
              (of_Z 90000000) d e)
    as [d1 e1] eqn:H1.
  destruct (logged (VNum (of_Z 21)) (VNum (of_Z 64)) (VNum (of_Z 8))
              (of_Z 93600000) d1 e1)
    as [d2 e2] eqn:H2.
  vm_compute in H0. injection H0 as <- <-.
  vm_compute in H1. injection H1 as <- <-.
  vm_compute in H2. injection H2 as <- <-.
  eexists _, _.
  split; [cbn [trace app]; reflexivity|].
  split; [cbn [trace app]; reflexivity|].
  match goal with
  | |- publishes_relation ?a /\ ~ publishes_relation ?b /\ _ =>
      specialize (H a b eq_refl eq_refl)
  end.
  split; [eexists; cbn; eauto 10|].
  destruct H as (_ & _ & Hno); [eexists; cbn; eauto 10|].
  destruct (Hno eq_refl) as (Hn & Hp & _). split; [exact Hn|exact Hp].
Defined.

(** ** setAmbientTemp of the older driver *)

(** X24: in the older driver setAmbientTemp does not compare with the
    temperature it holds: every call with a number writes point 100 again,
    until an attempt succeeds, also when the temperature is the one already
    held, and the settings of the device are left as they are. *)
Theorem Connected200_setAmbientTemp_always_writes
    (ambient_temp : num) (c : Connected200.dev) (e : env)
    (fails : list write_outcome) (r : option response)
    (rest : list write_outcome)
    (Hnum : isNaN ambient_temp = false)
    (Hfails : forallb failed fails = true)
    (Hsuccess : needs_retry r = false)
    (Hscript : writes e = fails ++ WResolves r :: rest) :
  exists c' e',
    Connected200.setAmbientTemp ambient_temp c e = Some (c', e')
    /\ Connected200.outsideTemp c' = ambient_temp
    /\ trace e'
       = trace e
         ++ flat_map (failed_attempt_events [("100", VNum ambient_temp)]) fails
         ++ [EvSetDevicePoint [("100", VNum ambient_temp)]; EvSetAvailable]
    /\ settings e' = settings e
    /\ available e' = true
    /\ writes e' = rest.
Proof.
  unfold Connected200.setAmbientTemp. rewrite Hnum.
  destruct (setDevicePoint_retry_trace
              (sset [] "100"
                 (VNum (Connected200.outsideTemp
                          (Connected200.set_outsideTemp ambient_temp c))))
              e fails r rest Hfails Hsuccess Hscript)
    as (e1 & Hrun & Ht & Hw & Hs & _ & _).
  rewrite Hrun. eexists _, _. split; [reflexivity|].
  split; [reflexivity|]. split.
  { env_simpl. rewrite Ht.
    cbn [Connected200.outsideTemp Connected200.set_outsideTemp sset obj_set].
    now rewrite <- !app_assoc. }
  split; [exact Hs|]. split; [reflexivity|exact Hw].
Qed.

Lemma Connected200_setAmbientTemp_always_writes_witness :
  let c := Connected200.onOAuth2Init_state (of_Z 0) in
  let e := env0 [ok_response] [] in
  Connected200.outsideTemp c = of_Z 24
  /\ exists c' e',
       Connected200.setAmbientTemp (of_Z 24) c e = Some (c', e')
       /\ trace e'
          = [EvSetDevicePoint [("100", VNum (of_Z 24))]; EvSetAvailable].
Proof.
  intros c e. split; [reflexivity|].
  destruct (Connected200_setAmbientTemp_always_writes (of_Z 24) c e []
              (Some {| rok := Some true |}) [] eq_refl eq_refl eq_refl eq_refl)
    as (c' & e' & Hrun & _ & Ht & _).
  exists c', e'. split; [exact Hrun|exact Ht].
Defined.
